(** * micro-inverter firmware: supervisory layer

    Shallow embedding of [firmware/src/auxiliary.cpp],
    [firmware/src/thingset_callbacks.cpp] and of the two tasks of
    [firmware/src/main.cpp], with the properties of the specification
    stated over it. *)

From Stdlib Require Import ZArith QArith Qabs Qminmax Qround Bool String List Lia Lqa.
From Stdlib Require Import SpecFloat.
Import ListNotations.

Local Open Scope Z_scope.

(** * Arithmetic of [float32_t]

    The firmware computes on [float32_t].  The supervisory code only adds,
    subtracts, multiplies, divides, negates and compares such values, so the
    embedding is written once over an interface with exactly these
    operations.  Theorems about the control logic are proved for every
    implementation of the interface, and theorems about the order of the
    values for every implementation whose comparisons obey the laws of
    IEEE 754 ([Float32Order]).  Two implementations follow: IEEE 754
    binary32 itself, with its rounding, infinities, signed zeros and NaN,
    and exact rationals, on which the long concrete runs are evaluated at
    inputs that binary32 represents exactly.

    Two constants come from headers that are not part of the firmware
    sources and are fields of the interface too: [NO_VALUE], the "no fresh
    sample" marker of the sensor API, and [PI]. *)

Class Float32 (F : Type) := {
  fadd : F -> F -> F;
  fsub : F -> F -> F;
  fmul : F -> F -> F;
  fdiv : F -> F -> F;
  fneg : F -> F;
  fltb : F -> F -> bool;    (* x < y  *)
  fleb : F -> F -> bool;    (* x <= y *)
  feqb : F -> F -> bool;    (* x == y *)
  flit : Q -> F;            (* a literal, or the conversion of an integer *)
  NO_VALUE : F;
  PI : F
}.

Declare Scope f32_scope.
Delimit Scope f32_scope with f32.
Infix "+" := fadd : f32_scope.
Infix "-" := fsub : f32_scope.
Infix "*" := fmul : f32_scope.
Infix "/" := fdiv : f32_scope.
Notation "- x" := (fneg x) : f32_scope.
Infix "<?" := fltb : f32_scope.
Infix "<=?" := fleb : f32_scope.
Infix "=?" := feqb : f32_scope.
Notation "x >? y" := (fltb y x) : f32_scope.
Notation "x >=? y" := (fleb y x) : f32_scope.
Notation "x !=? y" := (negb (feqb x y)) (at level 70) : f32_scope.

(** Exact arithmetic.  [x / 0] is [0] here. *)
Definition Qltb (x y : Q) : bool := negb (Qle_bool y x).

#[export] Instance exact : Float32 Q := {|
  fadd := Qplus;
  fsub := Qminus;
  fmul := Qmult;
  fdiv := Qdiv;
  fneg := Qopp;
  fltb := Qltb;
  fleb := Qle_bool;
  feqb := Qeq_bool;
  flit := fun q => q;
  NO_VALUE := (-10000)%Q;
  PI := 3.14159265358979%Q
|}.

(** IEEE 754 binary32: 24 bits of precision, exponent of the infinities
    128, round to nearest even, as [SpecFloat] specifies it.  A literal is
    the quotient of its numerator by its denominator, rounded once. *)
Definition binary32_of_Q (x : Q) : spec_float :=
  match Qnum x with
  | Z0 => S754_zero false
  | Zpos n =>
      SFdiv 24 128 (S754_finite false n 0) (S754_finite false (Qden x) 0)
  | Zneg n =>
      SFdiv 24 128 (S754_finite true n 0) (S754_finite false (Qden x) 0)
  end.

#[export] Instance binary32 : Float32 spec_float := {|
  fadd := SFadd 24 128;
  fsub := SFsub 24 128;
  fmul := SFmul 24 128;
  fdiv := SFdiv 24 128;
  fneg := SFopp;
  fltb := SFltb;
  fleb := SFleb;
  feqb := SFeqb;
  flit := binary32_of_Q;
  NO_VALUE := binary32_of_Q (-10000);
  PI := binary32_of_Q 3.14159265358979
|}.

(** The laws of the IEEE 754 comparisons that the proofs use.  A NaN is
    the one value that is not equal to itself, and it compares false with
    everything; the other values, infinities included, are totally
    ordered. *)
Class Float32Order (F : Type) `{Float32 F} : Prop := {
  fle_not_nan (x y : F) :
    fleb x y = true -> feqb x x = true /\ feqb y y = true;
  flt_not_nan (x y : F) :
    fltb x y = true -> feqb x x = true /\ feqb y y = true;
  flt_total (x y : F) :
    feqb x x = true -> feqb y y = true -> fltb x y = negb (fleb y x);
  fle_total (x y : F) :
    feqb x x = true -> feqb y y = true -> fleb x y || fleb y x = true;
  fle_trans (x y z : F) :
    fleb x y = true -> fleb y z = true -> fleb x z = true
}.

(** The comparison of binary32 as an order on keys: sign class, then
    exponent and mantissa. *)
Definition SFkey (x : spec_float) : Z * Z * Z :=
  match x with
  | S754_nan => (0, 0, 0)
  | S754_infinity true => (-2, 0, 0)
  | S754_finite true m e => (-1, - e, Zneg m)
  | S754_zero _ => (0, 0, 0)
  | S754_finite false m e => (1, e, Zpos m)
  | S754_infinity false => (2, 0, 0)
  end.

Definition key_le (a b : Z * Z * Z) : Prop :=
  let '(a1, a2, a3) := a in
  let '(b1, b2, b3) := b in
  a1 < b1 \/ (a1 = b1 /\ (a2 < b2 \/ (a2 = b2 /\ a3 <= b3))).

(** * auxiliary.cpp: saturation and ramp primitives *)

Section Auxiliary.
Context {F : Type} `{Float32 F}.
Local Open Scope f32_scope.

(** [control_task_period], in microseconds, and [Ts], in seconds. *)
Definition control_task_period : Z := 100.
Definition Ts : F := flit (inject_Z control_task_period) * flit 1.0e-6.

Definition saturate (x min max : F) : F :=
  if x >? max then max
  else if x <? min then min
  else x.

Definition sign (x tol : F) : F :=
  if x >? tol then flit 1
  else if x <? - tol then flit (-1)
  else flit 0.

(** The default argument of [sign] in auxiliary.h. *)
Definition sign_tol : F := flit 1e-3.

Definition rate_limiter (ref value rate : F) : F :=
  value + Ts * rate * sign (ref - value) sign_tol.

End Auxiliary.

(** [n] successive calls [value = rate_limiter(ref, value, rate)]. *)
Fixpoint ramp {F} `{Float32 F} (n : nat) (ref rate value : F) : F :=
  match n with
  | O => value
  | S k => ramp k ref rate (rate_limiter ref value rate)
  end.

(** * Shared state

    The globals of main.cpp that the two tasks and the command gateway
    read or write, with the command mailbox [user_cmd] of
    user_data_objects.h.  The telemetry mailboxes ([user_meas],
    [user_inv_dbg], [user_boost_dbg], [user_live]) and the debug copies of
    the control law's frame quantities are only ever written by the
    firmware and are left out. *)

(** auxiliary.h, [enum serial_interface_menu_mode], stored in [uint8_t]. *)
Definition IDLEMODE : Z := 0.
Definition POWERMODE : Z := 1.
Definition ERRORMODE : Z := 3.
Definition STARTUPMODE : Z := 4.

(** Unsigned wrap-around of the tick counters ([uint32_t]). *)
Definition wrap32 (z : Z) : Z := z mod 2 ^ 32.
Arguments wrap32 : simpl never.

(** The two sub-modes of the control-law library. *)
Inductive inverter_mode : Type := FORMING | FOLLOWING.

Definition inverter_mode_eqb (a b : inverter_mode) : bool :=
  match a, b with
  | FORMING, FORMING | FOLLOWING, FOLLOWING => true
  | _, _ => false
  end.

Inductive leg_t : Type := LEG1_HIGH | LEG2_HIGH | LEG1_LOW | LEG2_LOW | ALL.

Inductive sensor_t : Type := ILow1 | VLow | VAC | ILow2 | VDCBus | IAC.

Section State.
Context {F : Type}.

Record dqo_t : Type := { d : F; q : F }.

(** user_data_api.h *)
Record command_t : Type := {
  mode_request : Z;
  cmd_inverter_on : bool;
  vd_ref : F;
  id_ref : F;
  scope_dump : bool;
  scope_trigger : bool
}.

Record globals : Type := {
  pwm_enable : bool;
  Vlow_value : F;
  Vac_value : F;
  Ilow1_value : F;
  Ilow2_value : F;
  Vdc_bus : F;
  Iac_value : F;
  Vdc_bus_filt : F;
  meas_data : F;
  Vgrid_meas : F;
  VN_meas : F;
  Igrid_meas : F;
  Vdq_ref : dqo_t;
  Vdq_ref_max : dqo_t;
  Vdq_ref_min : dqo_t;
  Idq_ref : dqo_t;
  Idq_ref_max : dqo_t;
  Idq_ref_min : dqo_t;
  is_net_synchronized : bool;
  omega : F;
  local_mode : inverter_mode;
  delta_duty_cycle : F;
  duty_cycle_1 : F;
  duty_cycle_2 : F;
  duty_cycle_offset : F;
  boost_duty_cycle : F;
  boost_pwm_enable : bool;
  inverter_on : bool;
  critical_task_counter : Z;
  sync_counter : Z;
  desync_counter : Z;
  power_counter : Z;
  desync_counter_scope : F;
  is_downloading : bool;
  trigger : bool;
  mode : Z;
  mode_asked : Z;
  spying_mode : F;
  user_cmd : command_t
}.

(** Assignment to one global.  [eta_globals] rebuilds a state from its
    fields; [setter f] replaces the field [f] in it by the new value. *)
Definition eta_globals (s : globals) : globals :=
  {| pwm_enable := pwm_enable s; Vlow_value := Vlow_value s;
     Vac_value := Vac_value s; Ilow1_value := Ilow1_value s;
     Ilow2_value := Ilow2_value s; Vdc_bus := Vdc_bus s;
     Iac_value := Iac_value s; Vdc_bus_filt := Vdc_bus_filt s;
     meas_data := meas_data s; Vgrid_meas := Vgrid_meas s;
     VN_meas := VN_meas s; Igrid_meas := Igrid_meas s;
     Vdq_ref := Vdq_ref s; Vdq_ref_max := Vdq_ref_max s;
     Vdq_ref_min := Vdq_ref_min s; Idq_ref := Idq_ref s;
     Idq_ref_max := Idq_ref_max s; Idq_ref_min := Idq_ref_min s;
     is_net_synchronized := is_net_synchronized s; omega := omega s;
     local_mode := local_mode s; delta_duty_cycle := delta_duty_cycle s;
     duty_cycle_1 := duty_cycle_1 s; duty_cycle_2 := duty_cycle_2 s;
     duty_cycle_offset := duty_cycle_offset s;
     boost_duty_cycle := boost_duty_cycle s;
     boost_pwm_enable := boost_pwm_enable s; inverter_on := inverter_on s;
     critical_task_counter := critical_task_counter s;
     sync_counter := sync_counter s; desync_counter := desync_counter s;
     power_counter := power_counter s;
     desync_counter_scope := desync_counter_scope s;
     is_downloading := is_downloading s; trigger := trigger s;
     mode := mode s; mode_asked := mode_asked s;
     spying_mode := spying_mode s; user_cmd := user_cmd s |}.

Ltac setter f :=
  let body := eval cbv [eta_globals] in (fun s : globals => eta_globals s) in
  lazymatch eval pattern f in body with
  | ?g _ =>
      let r := eval cbv beta in (fun v s => g (fun _ : globals => v) s) in
      exact r
  end.

Definition set_pwm_enable := ltac:(setter pwm_enable).
Definition set_Vlow_value := ltac:(setter Vlow_value).
Definition set_Vac_value := ltac:(setter Vac_value).
Definition set_Ilow1_value := ltac:(setter Ilow1_value).
Definition set_Ilow2_value := ltac:(setter Ilow2_value).
Definition set_Vdc_bus := ltac:(setter Vdc_bus).
Definition set_Iac_value := ltac:(setter Iac_value).
Definition set_Vdc_bus_filt := ltac:(setter Vdc_bus_filt).
Definition set_meas_data := ltac:(setter meas_data).
Definition set_Vgrid_meas := ltac:(setter Vgrid_meas).
Definition set_VN_meas := ltac:(setter VN_meas).
Definition set_Igrid_meas := ltac:(setter Igrid_meas).
Definition set_Vdq_ref := ltac:(setter Vdq_ref).
Definition set_Vdq_ref_max := ltac:(setter Vdq_ref_max).
Definition set_Vdq_ref_min := ltac:(setter Vdq_ref_min).
Definition set_Idq_ref := ltac:(setter Idq_ref).
Definition set_Idq_ref_max := ltac:(setter Idq_ref_max).
Definition set_Idq_ref_min := ltac:(setter Idq_ref_min).
Definition set_is_net_synchronized := ltac:(setter is_net_synchronized).
Definition set_omega := ltac:(setter omega).
Definition set_delta_duty_cycle := ltac:(setter delta_duty_cycle).
Definition set_duty_cycle_1 := ltac:(setter duty_cycle_1).
Definition set_duty_cycle_2 := ltac:(setter duty_cycle_2).
Definition set_duty_cycle_offset := ltac:(setter duty_cycle_offset).
Definition set_boost_duty_cycle := ltac:(setter boost_duty_cycle).
Definition set_boost_pwm_enable := ltac:(setter boost_pwm_enable).
Definition set_inverter_on := ltac:(setter inverter_on).
Definition set_critical_task_counter := ltac:(setter critical_task_counter).
Definition set_sync_counter := ltac:(setter sync_counter).
Definition set_desync_counter := ltac:(setter desync_counter).
Definition set_power_counter := ltac:(setter power_counter).
Definition set_desync_counter_scope := ltac:(setter desync_counter_scope).
Definition set_is_downloading := ltac:(setter is_downloading).
Definition set_trigger := ltac:(setter trigger).
Definition set_mode := ltac:(setter mode).
Definition set_mode_asked := ltac:(setter mode_asked).
Definition set_spying_mode := ltac:(setter spying_mode).
Definition set_user_cmd := ltac:(setter user_cmd).

Definition set_d (v : F) (r : dqo_t) : dqo_t := {| d := v; q := q r |}.
Definition set_q (v : F) (r : dqo_t) : dqo_t := {| d := d r; q := v |}.

End State.
Arguments dqo_t : clear implicits.
Arguments command_t : clear implicits.
Arguments globals : clear implicits.

(** * Collaborators

    Calls into the hardware, the capture scope, the control law and the
    console are recorded, in program order, as a trace of [hw_call]s.  What
    the collaborators return during one run of a task is given to the task
    as an oracle. *)

Inductive hw_call {F : Type} : Type :=
  | power_stop (l : leg_t)
  | power_start (l : leg_t)
  | power_setDutyCycle (l : leg_t) (duty : F)
  | power_setDeadTime (l : leg_t) (rise fall : Z)
  | power_initBoost (l : leg_t)
  | power_initBuck (l : leg_t)
  | led_turnOn
  | led_turnOff
  | led_toggle
  | scope_start
  | scope_acquire
  | scope_reset_dump
  | scope_dump_datas
  | inverter_init (m : inverter_mode)
  | inverter_setVBus (v : F)
  | inverter_setVdqRef (r : dqo_t F)
  | inverter_setIdqRef (r : dqo_t F)
  | printk (msg : string)
  | task_suspend (us : Z).
Arguments hw_call : clear implicits.

(** What one run of the critical task reads from its collaborators:
    the latest sample of each sensor channel ([NO_VALUE] when there is no
    fresh one), the responses of the bus-voltage filter and of the boost
    regulator to their arguments, the duty returned by
    [inverter.calculateDuty] and the angular frequency returned by
    [inverter.getw]. *)
Record tick_io {F : Type} : Type := {
  getLatestValue : sensor_t -> F;
  vHighFilter : F -> F;
  boost_pid : F -> F -> F;
  calculateDuty : F -> F -> F;
  getw : F
}.
Arguments tick_io : clear implicits.

(** What one run of the background task reads: the number of chunks the
    scope hands out before [get_dump_state] reports [finished]. *)
Record app_io : Type := { dump_chunks : nat }.

(** * A state and trace monad for the tasks *)

Section Monad.
Context {F : Type}.

Definition M (A : Type) : Type :=
  globals F -> A * globals F * list (hw_call F).

Definition ret {A} (a : A) : M A := fun s => (a, s, []).

Definition bind {A B} (m : M A) (k : A -> M B) : M B :=
  fun s =>
    let r1 := m s in
    let r2 := k (fst (fst r1)) (snd (fst r1)) in
    (fst (fst r2), snd (fst r2), snd r1 ++ snd r2).

Definition gets {A} (f : globals F -> A) : M A := fun s => (f s, s, []).

Definition modify (f : globals F -> globals F) : M unit :=
  fun s => (tt, f s, []).

Definition call (c : hw_call F) : M unit := fun s => (tt, s, [c]).

Definition when (b : bool) (m : M unit) : M unit :=
  if b then m else ret tt.

(** State and trace after running [m] from [s]. *)
Definition exec {A} (m : M A) (s : globals F) : globals F := snd (fst (m s)).
Definition calls {A} (m : M A) (s : globals F) : list (hw_call F) := snd (m s).

End Monad.
Arguments M : clear implicits.

Declare Scope task_scope.
Delimit Scope task_scope with task.
Notation "x <- m ;; k" := (bind m (fun x => k))
  (at level 61, m at next level, right associativity) : task_scope.
Notation "m ;; k" := (bind m (fun _ => k))
  (at level 61, right associativity) : task_scope.
Notation "f ::= v" := (modify (f v)) (at level 60) : task_scope.

(** * auxiliary.cpp and thingset_callbacks.cpp: the command gateway *)

Section Gateway.
Context {F : Type} `{Float32 F}.
Local Open Scope f32_scope.
Local Open Scope task_scope.

Definition a_trigger : M F bool := gets trigger.

Fixpoint dump_loop (chunks : nat) : M F unit :=
  match chunks with
  | O => ret tt
  | S k =>
      call scope_dump_datas ;;
      call (printk "%s") ;;
      call (task_suspend 100) ;;
      dump_loop k
  end.

Definition dump_scope_datas (io : app_io) : M F unit :=
  call scope_reset_dump ;;
  call (printk "begin record\n") ;;
  dump_loop (dump_chunks io) ;;
  call (printk "end record\n").

(** Assignments to a field of [user_cmd] and to the d component of a
    reference. *)
Definition set_cmd_vd_ref (v : F) (s : globals F) : globals F :=
  let c := user_cmd s in
  set_user_cmd
    {| mode_request := mode_request c; cmd_inverter_on := cmd_inverter_on c;
       vd_ref := v; id_ref := id_ref c;
       scope_dump := scope_dump c; scope_trigger := scope_trigger c |} s.

Definition set_cmd_id_ref (v : F) (s : globals F) : globals F :=
  let c := user_cmd s in
  set_user_cmd
    {| mode_request := mode_request c; cmd_inverter_on := cmd_inverter_on c;
       vd_ref := vd_ref c; id_ref := v;
       scope_dump := scope_dump c; scope_trigger := scope_trigger c |} s.

Definition set_cmd_scope_dump (v : bool) (s : globals F) : globals F :=
  let c := user_cmd s in
  set_user_cmd
    {| mode_request := mode_request c; cmd_inverter_on := cmd_inverter_on c;
       vd_ref := vd_ref c; id_ref := id_ref c;
       scope_dump := v; scope_trigger := scope_trigger c |} s.

Definition set_cmd_scope_trigger (v : bool) (s : globals F) : globals F :=
  let c := user_cmd s in
  set_user_cmd
    {| mode_request := mode_request c; cmd_inverter_on := cmd_inverter_on c;
       vd_ref := vd_ref c; id_ref := id_ref c;
       scope_dump := scope_dump c; scope_trigger := v |} s.

Definition set_Vdq_ref_d (v : F) (s : globals F) : globals F :=
  set_Vdq_ref (set_d v (Vdq_ref s)) s.

Definition set_Idq_ref_d (v : F) (s : globals F) : globals F :=
  set_Idq_ref (set_d v (Idq_ref s)) s.

(** The two [if]s that bound the local copy of a reference. *)
Definition clamp_ref (x min max : F) : F :=
  let x := if x >? max then max else x in
  if x <? min then min else x.

(** [app_apply_command], in the order of the source: the [switch] on the
    requested mode, the inverter-enable flag, the reference of the active
    sub-mode, the two scope flags. *)

Definition latch_mode_request : M F unit :=
  cmd <- gets user_cmd ;;
  if (mode_request cmd =? IDLEMODE)%Z then
    set_mode_asked ::= IDLEMODE
  else if (mode_request cmd =? POWERMODE)%Z then
    downloading <- gets is_downloading ;;
    when (negb downloading) (call scope_start) ;;
    set_mode_asked ::= POWERMODE
  else ret tt.

Definition apply_reference : M F unit :=
  lm <- gets local_mode ;;
  cmd <- gets user_cmd ;;
  if inverter_mode_eqb lm FORMING then
    vmax <- gets Vdq_ref_max ;;
    vmin <- gets Vdq_ref_min ;;
    let vd := clamp_ref (vd_ref cmd) (d vmin) (d vmax) in
    set_Vdq_ref_d ::= vd ;;
    set_cmd_vd_ref ::= vd
  else
    imax <- gets Idq_ref_max ;;
    imin <- gets Idq_ref_min ;;
    let id := clamp_ref (id_ref cmd) (d imin) (d imax) in
    set_Idq_ref_d ::= id ;;
    set_cmd_id_ref ::= id.

Definition consume_scope_flags : M F unit :=
  cmd <- gets user_cmd ;;
  when (scope_dump cmd)
    (set_is_downloading ::= true ;;
     set_trigger ::= false ;;
     set_cmd_scope_dump ::= false) ;;
  cmd <- gets user_cmd ;;
  when (scope_trigger cmd)
    (set_trigger ::= true ;;
     set_cmd_scope_trigger ::= false).

Definition app_apply_command : M F unit :=
  latch_mode_request ;;
  cmd <- gets user_cmd ;;
  set_inverter_on ::= cmd_inverter_on cmd ;;
  apply_reference ;;
  consume_scope_flags.

(** thingset_callbacks.cpp.  The protocol layer stores the written fields
    into [user_cmd] and then runs the callback of the command group. *)
Inductive thingset_callback_reason : Type :=
  | THINGSET_CALLBACK_PRE_WRITE
  | THINGSET_CALLBACK_POST_WRITE
  | THINGSET_CALLBACK_OTHER.

Definition conf_command_cb (reason : thingset_callback_reason) : M F unit :=
  match reason with
  | THINGSET_CALLBACK_POST_WRITE => app_apply_command
  | _ => ret tt
  end.

Definition protocol_write (c : command_t F) : M F unit :=
  set_user_cmd ::= c ;;
  conf_command_cb THINGSET_CALLBACK_POST_WRITE.

End Gateway.

(** * main.cpp *)

Section Main.
Context {F : Type} `{Float32 F}.
Local Open Scope f32_scope.
Local Open Scope task_scope.

Definition DUTY_MIN : F := flit 0.1.
Definition DUTY_MAX : F := flit 0.9.
Definition UDC_STARTUP : F := flit 0.0.

Definition I1_current_offset : F := flit 0.25.
Definition I2_current_offset : F := flit 0.25.
Definition boost_pos_dt : Z := 100.
Definition boost_neg_dt : Z := 100.
Definition boost_voltage_reference : F := flit 33.0.
Definition Udc : F := flit 63.0.
Definition f0 : F := flit 50.0.
Definition w0 : F := flit 2.0 * PI * f0.
Definition sync_power_tolerance : F := flit 0.01 * w0.
Definition decimation : Z := 1.
Definition MAX_CURRENT : F := flit 8.0.

(** The globals as their initialisers leave them, before [setup_routine]. *)
Definition zero_dq : dqo_t F := {| d := flit 0; q := flit 0 |}.

Definition static_init : globals F :=
  {| pwm_enable := false;
     Vlow_value := flit 0; Vac_value := flit 0; Ilow1_value := flit 0;
     Ilow2_value := flit 0; Vdc_bus := flit 0; Iac_value := flit 0;
     Vdc_bus_filt := flit 0; meas_data := flit 0;
     Vgrid_meas := flit 0; VN_meas := flit 0; Igrid_meas := flit 0;
     Vdq_ref := zero_dq; Vdq_ref_max := zero_dq; Vdq_ref_min := zero_dq;
     Idq_ref := zero_dq; Idq_ref_max := zero_dq; Idq_ref_min := zero_dq;
     is_net_synchronized := false; omega := flit 0;
     local_mode := FOLLOWING;
     delta_duty_cycle := flit 0; duty_cycle_1 := flit 0;
     duty_cycle_2 := flit 0; duty_cycle_offset := flit 0;
     boost_duty_cycle := flit 0.05;
     boost_pwm_enable := false; inverter_on := false;
     critical_task_counter := 0; sync_counter := 0; desync_counter := 0;
     power_counter := 0; desync_counter_scope := flit 0;
     is_downloading := false; trigger := false;
     mode := IDLEMODE; mode_asked := IDLEMODE; spying_mode := flit 0;
     user_cmd := {| mode_request := 0; cmd_inverter_on := false;
                    vd_ref := flit 0.0; id_ref := flit 0.0;
                    scope_dump := false; scope_trigger := false |} |}.

(** [setup_routine], without the sensor and scope channel configuration. *)
Definition setup_routine : M F unit :=
  call (power_initBoost LEG1_LOW) ;;
  call (power_initBoost LEG2_LOW) ;;
  call scope_start ;;
  lm <- gets local_mode ;;
  call (inverter_init lm) ;;
  set_Idq_ref ::= {| d := flit 0.0; q := flit 0.0 |} ;;
  set_Vdq_ref ::= {| d := flit 0.0; q := flit 0.0 |} ;;
  set_Idq_ref_max ::= {| d := flit 8.0; q := flit 1.0 |} ;;
  set_Idq_ref_min ::= {| d := flit (-0.1); q := flit (-0.1) |} ;;
  set_Vdq_ref_max ::= {| d := flit 30.0; q := flit 30.0 |} ;;
  set_Vdq_ref_min ::= {| d := flit (-0.1); q := flit (-0.1) |} ;;
  set_is_net_synchronized ::= false ;;
  call (power_initBuck LEG1_HIGH) ;;
  call (power_initBuck LEG2_HIGH).

(** ** The background task: the mode state machine *)

(** The [switch (mode)] of [loop_application_task]. *)
Definition mode_transitions : M F unit :=
  m <- gets mode ;;
  if (m =? IDLEMODE)%Z then
    asked <- gets mode_asked ;;
    when (asked =? POWERMODE)%Z (set_mode ::= POWERMODE) ;;
    call led_turnOn
  else if (m =? STARTUPMODE)%Z then
    on <- gets inverter_on ;;
    when (negb on) (set_mode ::= POWERMODE) ;;
    lm <- gets local_mode ;;
    delta <- gets delta_duty_cycle ;;
    synced <- gets is_net_synchronized ;;
    if inverter_mode_eqb lm FORMING && (delta >? flit 0.49) then
      set_mode ::= POWERMODE
    else if inverter_mode_eqb lm FOLLOWING && synced then
      set_mode ::= POWERMODE ;;
      when synced (call led_toggle)
    else ret tt
  else if (m =? POWERMODE)%Z then
    asked <- gets mode_asked ;;
    when (asked =? IDLEMODE)%Z (set_mode ::= IDLEMODE) ;;
    on <- gets inverter_on ;;
    when on
      (lm <- gets local_mode ;;
       vbus <- gets Vdc_bus_filt ;;
       vgrid <- gets Vgrid_meas ;;
       (if inverter_mode_eqb lm FORMING then
          when (vbus >=? UDC_STARTUP) (set_mode ::= STARTUPMODE)
        else
          when ((vgrid >=? flit 10) && (vbus >=? UDC_STARTUP))
            (set_mode ::= STARTUPMODE)) ;;
       synced <- gets is_net_synchronized ;;
       when synced (call led_toggle))
  else ret tt.

Definition loop_application_task (io : app_io) : M F unit :=
  mode_transitions ;;
  asked <- gets mode_asked ;;
  when (asked =? IDLEMODE)%Z (set_mode ::= IDLEMODE) ;;
  m <- gets mode ;;
  when (m =? IDLEMODE)%Z
    (downloading <- gets is_downloading ;;
     when downloading
       (dump_scope_datas io ;;
        set_is_downloading ::= false)) ;;
  call (task_suspend 100000).

(** ** The critical task *)

(** [meas_data = getLatestValue(ch); if (meas_data != NO_VALUE) ...] *)
Definition retrieve (io : tick_io F) (ch : sensor_t)
    (store : F -> globals F -> globals F) : M F unit :=
  set_meas_data ::= getLatestValue io ch ;;
  m <- gets meas_data ;;
  when (m !=? NO_VALUE) (modify (store m)).

Definition retrieve_measurements (io : tick_io F) : M F unit :=
  n <- gets critical_task_counter ;;
  set_critical_task_counter ::= wrap32 (n + 1) ;;
  retrieve io ILow1 (fun m => set_Ilow1_value (m - I1_current_offset)) ;;
  retrieve io VLow set_Vlow_value ;;
  retrieve io VAC set_Vac_value ;;
  retrieve io ILow2 (fun m => set_Ilow2_value (m - I2_current_offset)) ;;
  retrieve io VDCBus set_Vdc_bus ;;
  retrieve io IAC set_Iac_value ;;
  vbus <- gets Vdc_bus ;;
  set_Vdc_bus_filt ::= vHighFilter io vbus ;;
  vlow <- gets Vlow_value ;;
  vac <- gets Vac_value ;;
  i1 <- gets Ilow1_value ;;
  set_Vgrid_meas ::= vlow - vac ;;
  set_VN_meas ::= (vlow + vac) / flit 2 ;;
  set_Igrid_meas ::= i1.

Definition over_current (s : globals F) : bool :=
  (Ilow1_value s >? MAX_CURRENT)
  || (Ilow1_value s <? - MAX_CURRENT)
  || (Ilow2_value s >? MAX_CURRENT)
  || (Ilow2_value s <? - MAX_CURRENT).

Definition overcurrent_protection : M F unit :=
  over <- gets over_current ;;
  when over (set_mode ::= ERRORMODE).

Definition stop_pwm_when_idle_or_error : M F unit :=
  m <- gets mode ;;
  when ((m =? IDLEMODE)%Z || (m =? ERRORMODE)%Z)
    (pwm <- gets pwm_enable ;;
     when pwm
       (call (power_stop ALL) ;;
        call led_turnOff ;;
        set_pwm_enable ::= false) ;;
     boost <- gets boost_pwm_enable ;;
     when boost
       (call (power_stop LEG1_LOW) ;;
        call (power_stop LEG2_LOW) ;;
        set_boost_pwm_enable ::= false)).

Definition boost_stage (io : tick_io F) : M F unit :=
  m <- gets mode ;;
  when ((m =? STARTUPMODE)%Z || (m =? POWERMODE)%Z)
    (vbus <- gets Vdc_bus_filt ;;
     set_boost_duty_cycle ::= boost_pid io boost_voltage_reference vbus ;;
     duty <- gets boost_duty_cycle ;;
     call (power_setDeadTime LEG1_LOW boost_pos_dt boost_neg_dt) ;;
     call (power_setDeadTime LEG2_LOW boost_pos_dt boost_neg_dt) ;;
     call (power_setDutyCycle LEG1_LOW duty) ;;
     call (power_setDutyCycle LEG2_LOW duty) ;;
     boost <- gets boost_pwm_enable ;;
     when (negb boost)
       (call (power_start LEG1_LOW) ;;
        call (power_start LEG2_LOW) ;;
        set_boost_pwm_enable ::= true)).

Definition stop_inverter_when_disabled : M F unit :=
  on <- gets inverter_on ;;
  when (negb on)
    (pwm <- gets pwm_enable ;;
     when pwm
       (call (power_stop LEG1_HIGH) ;;
        call (power_stop LEG2_HIGH) ;;
        set_pwm_enable ::= false)).

(** The band of the lock-acquire test: strictly inside. *)
Definition sync_in_band (w : F) : bool :=
  (w <? w0 + sync_power_tolerance) && (w >? w0 - sync_power_tolerance).

(** The band of the lock-loss test: bounds included. *)
Definition power_in_band (w : F) : bool :=
  (w <=? w0 + sync_power_tolerance) && (w >=? w0 - sync_power_tolerance).

Definition startup_ramp (io : tick_io F) : M F unit :=
  m <- gets mode ;;
  on <- gets inverter_on ;;
  when ((m =? STARTUPMODE)%Z && on)
    (lm <- gets local_mode ;;
     if inverter_mode_eqb lm FORMING then
       delta <- gets delta_duty_cycle ;;
       set_delta_duty_cycle ::= rate_limiter (flit 0.5) delta (flit 50.0) ;;
       delta <- gets delta_duty_cycle ;;
       when (delta >? flit 0.5) (set_delta_duty_cycle ::= flit 0.5) ;;
       delta <- gets delta_duty_cycle ;;
       call (power_setDutyCycle LEG2_HIGH (flit 1 - delta)) ;;
       call (power_setDutyCycle LEG1_HIGH delta) ;;
       pwm <- gets pwm_enable ;;
       when (negb pwm)
         (call (power_start ALL) ;;
          set_pwm_enable ::= true)
     else
       set_omega ::= getw io ;;
       w <- gets omega ;;
       if sync_in_band w then
         n <- gets sync_counter ;;
         set_sync_counter ::= wrap32 (n + 1) ;;
         n <- gets sync_counter ;;
         when (n >? 2000)%Z
           (set_is_net_synchronized ::= true ;;
            set_sync_counter ::= 0)
       else
         set_sync_counter ::= 0 ;;
         set_is_net_synchronized ::= false).

(** The closed-loop block of the critical task, [if (mode == POWERMODE &&
    inverter_on)], in the order of the source: duty and lock-loss
    monitoring, references to the control law, duty-cycle offset, leg
    duties, delayed start of the legs, duties to the legs. *)

Definition lock_loss_monitor (io : tick_io F) : M F unit :=
  vgrid <- gets Vgrid_meas ;;
  igrid <- gets Igrid_meas ;;
  set_delta_duty_cycle ::= calculateDuty io vgrid igrid ;;
  set_omega ::= getw io ;;
  w <- gets omega ;;
  set_is_net_synchronized ::= power_in_band w ;;
  synced <- gets is_net_synchronized ;;
  when (negb synced)
    (n <- gets desync_counter ;;
     set_desync_counter ::= wrap32 (n + 1) ;;
     n <- gets desync_counter ;;
     set_desync_counter_scope ::= flit (inject_Z n) ;;
     when (n >? 200)%Z
       (set_desync_counter ::= 0 ;;
        set_sync_counter ::= 0 ;;
        set_mode_asked ::= IDLEMODE ;;
        set_mode ::= IDLEMODE ;;
        call (printk "System no longer synchronized \n"))).

Definition feed_control_law : M F unit :=
  vbus <- gets Vdc_bus_filt ;;
  call (inverter_setVBus vbus) ;;
  lm <- gets local_mode ;;
  if inverter_mode_eqb lm FORMING then
    r <- gets Vdq_ref ;; call (inverter_setVdqRef r)
  else
    r <- gets Idq_ref ;; call (inverter_setIdqRef r).

Definition update_duty_cycle_offset : M F unit :=
  pwm <- gets pwm_enable ;;
  if negb pwm then
    vn <- gets VN_meas ;;
    vbus <- gets Vdc_bus_filt ;;
    set_duty_cycle_offset ::= vn / vbus
  else
    offset <- gets duty_cycle_offset ;;
    if offset <? flit 0.5 then
      set_duty_cycle_offset ::= rate_limiter (flit 0.5) offset (flit 1.0)
    else
      set_duty_cycle_offset ::= flit 0.5.

Definition compute_leg_duties : M F unit :=
  delta <- gets delta_duty_cycle ;;
  offset <- gets duty_cycle_offset ;;
  set_duty_cycle_1 ::= delta + offset ;;
  delta <- gets delta_duty_cycle ;;
  offset <- gets duty_cycle_offset ;;
  set_duty_cycle_2 ::= - delta + offset.

Definition delayed_energizing : M F unit :=
  lm <- gets local_mode ;;
  pwm <- gets pwm_enable ;;
  when (inverter_mode_eqb lm FOLLOWING && negb pwm)
    (n <- gets power_counter ;;
     set_power_counter ::= wrap32 (n + 1) ;;
     n <- gets power_counter ;;
     when (n >? 2000)%Z
       (call (power_start ALL) ;;
        set_pwm_enable ::= true)).

Definition apply_leg_duties : M F unit :=
  duty1 <- gets duty_cycle_1 ;;
  call (power_setDutyCycle LEG1_HIGH duty1) ;;
  duty2 <- gets duty_cycle_2 ;;
  call (power_setDutyCycle LEG2_HIGH duty2).

Definition power_mode_control (io : tick_io F) : M F unit :=
  m <- gets mode ;;
  on <- gets inverter_on ;;
  when ((m =? POWERMODE)%Z && on)
    (lock_loss_monitor io ;;
     feed_control_law ;;
     update_duty_cycle_offset ;;
     compute_leg_duties ;;
     delayed_energizing ;;
     apply_leg_duties).

Definition debug_and_scope (io : tick_io F) : M F unit :=
  set_omega ::= getw io ;;
  n <- gets critical_task_counter ;;
  when (n mod decimation =? 0)%Z
    (m <- gets mode ;;
     set_spying_mode ::= flit (inject_Z m) ;;
     call scope_acquire).

Definition loop_critical_task (io : tick_io F) : M F unit :=
  retrieve_measurements io ;;
  overcurrent_protection ;;
  stop_pwm_when_idle_or_error ;;
  boost_stage io ;;
  stop_inverter_when_disabled ;;
  startup_ramp io ;;
  power_mode_control io ;;
  debug_and_scope io.

(** Successive runs of the critical task, one oracle per tick. *)
Fixpoint run_ticks (ios : list (tick_io F)) : M F unit :=
  match ios with
  | [] => ret tt
  | io :: rest => loop_critical_task io ;; run_ticks rest
  end.

End Main.

(** The blocks are unfolded by name, never by simplification. *)
Arguments exec : simpl never.
Arguments calls : simpl never.
Arguments loop_critical_task : simpl never.
Arguments retrieve : simpl never.
Arguments retrieve_measurements : simpl never.
Arguments overcurrent_protection : simpl never.
Arguments stop_pwm_when_idle_or_error : simpl never.
Arguments boost_stage : simpl never.
Arguments stop_inverter_when_disabled : simpl never.
Arguments startup_ramp : simpl never.
Arguments power_mode_control : simpl never.
Arguments lock_loss_monitor : simpl never.
Arguments feed_control_law : simpl never.
Arguments update_duty_cycle_offset : simpl never.
Arguments compute_leg_duties : simpl never.
Arguments delayed_energizing : simpl never.
Arguments apply_leg_duties : simpl never.
Arguments debug_and_scope : simpl never.
Arguments run_ticks : simpl never.
Arguments loop_application_task : simpl never.
Arguments mode_transitions : simpl never.
Arguments dump_scope_datas : simpl never.
Arguments latch_mode_request : simpl never.
Arguments apply_reference : simpl never.
Arguments consume_scope_flags : simpl never.
Arguments clamp_ref : simpl never.
Arguments app_apply_command : simpl never.
Arguments rate_limiter : simpl never.
Arguments over_current : simpl never.
Arguments sync_in_band : simpl never.
Arguments power_in_band : simpl never.


(** * Notions used to state the properties *)

(** [ceil(|target - v0| / (rate * period))] as a number of ticks, in exact
    arithmetic. *)
Definition ramp_ticks (target v0 rate : Q) : nat :=
  Z.to_nat (Qceiling (Qabs (target - v0) / (Ts * rate))).

Section Notions.
Context {F : Type} `{Float32 F}.
Local Open Scope f32_scope.

(** [m] leaves the global [f] as it found it. *)
Definition preserves {A B} (f : globals F -> B) (m : M F A) : Prop :=
  forall s, f (exec m s) = f s.

(** Every call [m] makes satisfies [P]. *)
Definition emits {A} (P : hw_call F -> Prop) (m : M F A) : Prop :=
  forall s, Forall P (calls m s).

(** The legs stopped, and the legs started, by a trace. *)
Definition stop_calls (t : list (hw_call F)) : list leg_t :=
  flat_map (fun c => match c with power_stop l => [l] | _ => [] end) t.

Definition start_calls (t : list (hw_call F)) : list leg_t :=
  flat_map (fun c => match c with power_start l => [l] | _ => [] end) t.

Definition not_a_stop (c : hw_call F) : Prop :=
  match c with power_stop _ => False | _ => True end.

Definition not_a_start (c : hw_call F) : Prop :=
  match c with power_start _ => False | _ => True end.

(** The sample of a current channel cannot trip the protection: there is
    no fresh sample, or the calibrated sample is within [MAX_CURRENT]. *)
Definition sample_within_limit (x offset : F) : bool :=
  (x =? NO_VALUE)
  || negb ((x - offset >? MAX_CURRENT) || (x - offset <? - MAX_CURRENT)).

Definition currents_within_limit (io : tick_io F) : bool :=
  sample_within_limit (getLatestValue io ILow1) I1_current_offset
  && sample_within_limit (getLatestValue io ILow2) I2_current_offset.

(** Startup mode, following sub-mode, inverter enabled. *)
Definition startup_following (s : globals F) : Prop :=
  mode s = STARTUPMODE /\ inverter_on s = true /\ local_mode s = FOLLOWING.

(** Power mode, following sub-mode, inverter enabled, legs not started,
    no overcurrent pending. *)
Definition awaiting_start (s : globals F) : Prop :=
  mode s = POWERMODE /\ inverter_on s = true /\ local_mode s = FOLLOWING
  /\ pwm_enable s = false /\ over_current s = false.

(** The calls [start(ALL)] of a trace. *)
Definition inverter_starts (t : list (hw_call F)) : list leg_t :=
  filter (fun l => match l with ALL => true | _ => false end)
    (start_calls t).

(** States the firmware can be in: [setup_routine] runs on the
    initialised globals, then the two tasks and the command callback run
    in any order, each run taken as a whole, and the protocol layer stores
    written fields into [user_cmd] before the callback. *)
Inductive reachable : globals F -> Prop :=
  | reach_setup : reachable (exec setup_routine static_init)
  | reach_critical io s :
      reachable s -> reachable (exec (loop_critical_task io) s)
  | reach_application io s :
      reachable s -> reachable (exec (loop_application_task io) s)
  | reach_store c s :
      reachable s -> reachable (set_user_cmd c s)
  | reach_callback reason s :
      reachable s -> reachable (exec (conf_command_cb reason) s).

(** ** The legs, as the calls to the power stage leave them *)

(** Which legs are switching.  [start] and [stop] act on the leg they
    name, and on the four of them when they name [ALL]. *)
Record legs : Type := {
  leg1_high : bool; leg2_high : bool; leg1_low : bool; leg2_low : bool
}.

Definition drive (on : bool) (l : leg_t) (g : legs) : legs :=
  match l with
  | LEG1_HIGH => {| leg1_high := on; leg2_high := leg2_high g;
                    leg1_low := leg1_low g; leg2_low := leg2_low g |}
  | LEG2_HIGH => {| leg1_high := leg1_high g; leg2_high := on;
                    leg1_low := leg1_low g; leg2_low := leg2_low g |}
  | LEG1_LOW => {| leg1_high := leg1_high g; leg2_high := leg2_high g;
                   leg1_low := on; leg2_low := leg2_low g |}
  | LEG2_LOW => {| leg1_high := leg1_high g; leg2_high := leg2_high g;
                   leg1_low := leg1_low g; leg2_low := on |}
  | ALL => {| leg1_high := on; leg2_high := on;
              leg1_low := on; leg2_low := on |}
  end.

Definition legs_step (g : legs) (c : hw_call F) : legs :=
  match c with
  | power_start l => drive true l g
  | power_stop l => drive false l g
  | _ => g
  end.

Definition legs_after (t : list (hw_call F)) (g : legs) : legs :=
  fold_left legs_step t g.

(** The legs as the two enable flags describe them. *)
Definition legs_of_flags (s : globals F) : legs :=
  {| leg1_high := pwm_enable s; leg2_high := pwm_enable s;
     leg1_low := boost_pwm_enable s; leg2_low := boost_pwm_enable s |}.

Inductive event : Type :=
  | critical_tick (io : tick_io F)
  | background_run (io : app_io)
  | command_write (c : command_t F).

Definition run_event (e : event) : M F unit :=
  match e with
  | critical_tick io => loop_critical_task io
  | background_run io => loop_application_task io
  | command_write c => protocol_write c
  end.

Fixpoint run_events (es : list event) : M F unit :=
  match es with
  | [] => ret tt
  | e :: rest => bind (run_event e) (fun _ => run_events rest)
  end.

(** [m] keeps the flags in step with the legs when it starts from a state
    in which [P] holds, and ends in a state in which [Q] holds. *)
Definition tracks {A} (P Q : globals F -> Prop) (m : M F A) : Prop :=
  forall s, P s ->
    legs_after (calls m s) (legs_of_flags s) = legs_of_flags (exec m s)
    /\ Q (exec m s).

(** In Startup and in Power the boost legs are switching. *)
Definition boost_runs_when_active (s : globals F) : Prop :=
  (mode s =? STARTUPMODE)%Z || (mode s =? POWERMODE)%Z = true ->
  boost_pwm_enable s = true.

(** No leg is switching. *)
Definition legs_off : legs :=
  {| leg1_high := false; leg2_high := false;
     leg1_low := false; leg2_low := false |}.

(** The four values of [serial_interface_menu_mode]. *)
Definition valid_mode (m : Z) : Prop :=
  m = IDLEMODE \/ m = POWERMODE \/ m = ERRORMODE \/ m = STARTUPMODE.

(** ** The background task *)

(** [m] assigns to no global but [mode] and [is_downloading]. *)
Definition writes_mode_and_download_only {A} (m : M F A) : Prop :=
  forall s, exists md b, exec m s = set_is_downloading b (set_mode md s).

(** What [dump_scope_datas] prints for a capture of [n] chunks. *)
Definition dump_trace (n : nat) : list (hw_call F) :=
  [scope_reset_dump; printk "begin record\n"]
  ++ concat (repeat [scope_dump_datas; printk "%s"; task_suspend 100] n)
  ++ [printk "end record\n"].

End Notions.

Arguments legs_after : simpl never.
Arguments run_events : simpl never.

(** * Concrete runs, in exact arithmetic

    The inputs and states at which the properties below are evaluated. *)

Module Scenario.

(** One tick's oracle: the raw sample of the first current channel, the
    two low-side voltages, the output of the bus-voltage filter, the duty
    returned by the control law and its angular frequency.  The second
    current channel reads 1 A, the bus 40 V, the boost regulator answers
    0.3. *)
Definition io (i1 vlow vac vfilt delta w : Q) : tick_io Q :=
  {| getLatestValue := fun ch =>
       match ch with
       | ILow1 => i1
       | VLow => vlow
       | VAC => vac
       | ILow2 => 1
       | VDCBus => 40
       | IAC => 0
       end;
     vHighFilter := fun _ => vfilt;
     boost_pid := fun _ _ => 0.3;
     calculateDuty := fun _ _ => delta;
     getw := w |}%Q.

(** Grid at nominal frequency, currents well within the limit. *)
Definition io_nominal : tick_io Q := io 1 20 20 40 0 314.159.
(** Frequency 2% above nominal. *)
Definition io_off_band : tick_io Q := io 1 20 20 40 0 320.5.
(** 9 A sampled on the first current channel. *)
Definition io_overcurrent : tick_io Q := io 9 20 20 40 0 314.159.
(** The bus-voltage filter still at 10 V while the neutral point is at 20 V. *)
Definition io_filter_lagging : tick_io Q := io 1 20 20 10 0 314.159.
(** 30 V across the grid terminals. *)
Definition io_grid_present : tick_io Q := io 1 40 10 40 0 314.159.

Definition no_dump : app_io := {| dump_chunks := 0 |}.

Definition command (m : Z) (on : bool) (id : Q) : command_t Q :=
  {| mode_request := m; cmd_inverter_on := on; vd_ref := 0%Q; id_ref := id;
     scope_dump := false; scope_trigger := false |}.

(** After [setup_routine]. *)
Definition booted : globals Q := exec setup_routine static_init.

(** Power requested with the inverter enabled, and the background task
    run once: Power mode, nothing started yet. *)
Definition in_power : globals Q :=
  exec (loop_application_task no_dump)
    (exec (protocol_write (command POWERMODE true 2)) booted).

(** One tick with the grid present, then the background task: Startup
    mode. *)
Definition in_startup : globals Q :=
  exec (loop_application_task no_dump)
    (exec (loop_critical_task io_grid_present) in_power).

(** One out-of-band tick in Startup mode: not synchronized, lock-acquire
    counter at zero. *)
Definition startup_unlocked : globals Q :=
  exec (loop_critical_task io_off_band) in_startup.

(** 2001 nominal ticks in Power mode: the inverter legs and the boost legs
    have been started. *)
Definition energized : globals Q :=
  Eval vm_compute in exec (run_ticks (repeat io_nominal 2001)) in_power.

(** The inverter is disabled by a command, one tick runs, and the inverter
    is enabled again by a command. *)
Definition disabled : globals Q :=
  exec (loop_critical_task io_nominal)
    (exec (protocol_write (command POWERMODE false 2)) energized).

Definition reenabled : globals Q :=
  exec (protocol_write (command POWERMODE true 2)) disabled.

(** An overcurrent tick in Power mode leaves Error mode with Power still
    requested; a command then requests Idle. *)
Definition in_error : globals Q :=
  exec (loop_critical_task io_overcurrent) in_power.

Definition in_error_idle_asked : globals Q :=
  exec (protocol_write (command IDLEMODE false 0)) in_error.

(** After [setup_routine], in binary32, and a command with the current
    reference [id]. *)
Definition booted32 : globals spec_float := exec setup_routine static_init.

Definition command32 (m : Z) (on : bool) (id : spec_float)
    : command_t spec_float :=
  {| mode_request := m; cmd_inverter_on := on; vd_ref := flit 0;
     id_ref := id; scope_dump := false; scope_trigger := false |}.

(** One tick's oracle in binary32: the raw sample of the first current
    channel and the angular frequency; every other channel reads 1, the
    bus-voltage filter 40 V, the boost regulator 0.3 and the control law
    a duty of 0. *)
Definition io32 (i1 w : spec_float) : tick_io spec_float :=
  {| getLatestValue := fun ch =>
       match ch with
       | ILow1 => i1
       | _ => flit 1
       end;
     vHighFilter := fun _ => flit 40;
     boost_pid := fun _ _ => flit 0.3;
     calculateDuty := fun _ _ => flit 0;
     getw := w |}.

(** A build whose [local_mode] is initialised to [FORMING], then Startup
    mode with the inverter enabled, in binary32. *)
Definition built_forming (s : globals spec_float) : globals spec_float :=
  {| pwm_enable := pwm_enable s; Vlow_value := Vlow_value s;
     Vac_value := Vac_value s; Ilow1_value := Ilow1_value s;
     Ilow2_value := Ilow2_value s; Vdc_bus := Vdc_bus s;
     Iac_value := Iac_value s; Vdc_bus_filt := Vdc_bus_filt s;
     meas_data := meas_data s; Vgrid_meas := Vgrid_meas s;
     VN_meas := VN_meas s; Igrid_meas := Igrid_meas s;
     Vdq_ref := Vdq_ref s; Vdq_ref_max := Vdq_ref_max s;
     Vdq_ref_min := Vdq_ref_min s; Idq_ref := Idq_ref s;
     Idq_ref_max := Idq_ref_max s; Idq_ref_min := Idq_ref_min s;
     is_net_synchronized := is_net_synchronized s; omega := omega s;
     local_mode := FORMING; delta_duty_cycle := delta_duty_cycle s;
     duty_cycle_1 := duty_cycle_1 s; duty_cycle_2 := duty_cycle_2 s;
     duty_cycle_offset := duty_cycle_offset s;
     boost_duty_cycle := boost_duty_cycle s;
     boost_pwm_enable := boost_pwm_enable s; inverter_on := inverter_on s;
     critical_task_counter := critical_task_counter s;
     sync_counter := sync_counter s; desync_counter := desync_counter s;
     power_counter := power_counter s;
     desync_counter_scope := desync_counter_scope s;
     is_downloading := is_downloading s; trigger := trigger s;
     mode := mode s; mode_asked := mode_asked s;
     spying_mode := spying_mode s; user_cmd := user_cmd s |}.

Definition forming_startup32 : globals spec_float :=
  set_mode STARTUPMODE (set_inverter_on true (built_forming booted32)).

(** The inverter disabled by a command while the legs are switching. *)
Definition disabling : globals Q :=
  exec (protocol_write (command POWERMODE false 2)) energized.

End Scenario.

(** * Reasoning about the tasks *)

Section MonadLaws.
Context {F : Type}.

Lemma exec_bind {A B} (m : M F A) (k : A -> M F B) (s : globals F) :
  exec (bind m k) s = exec (k (fst (fst (m s)))) (exec m s).
Proof. reflexivity. Qed.

Lemma calls_bind {A B} (m : M F A) (k : A -> M F B) (s : globals F) :
  calls (bind m k) s = calls m s ++ calls (k (fst (fst (m s)))) (exec m s).
Proof. reflexivity. Qed.

Lemma value_gets {A} (f : globals F -> A) (s : globals F) :
  fst (fst (gets f s)) = f s.
Proof. reflexivity. Qed.

Lemma exec_gets {A} (f : globals F -> A) (s : globals F) :
  exec (gets f) s = s.
Proof. reflexivity. Qed.

Lemma calls_gets {A} (f : globals F -> A) (s : globals F) :
  calls (gets f) s = [].
Proof. reflexivity. Qed.

Lemma exec_modify (g : globals F -> globals F) (s : globals F) :
  exec (modify g) s = g s.
Proof. reflexivity. Qed.

Lemma calls_modify (g : globals F -> globals F) (s : globals F) :
  calls (modify g) s = [].
Proof. reflexivity. Qed.

Lemma exec_call (c : hw_call F) (s : globals F) : exec (call c) s = s.
Proof. reflexivity. Qed.

Lemma calls_call (c : hw_call F) (s : globals F) : calls (call c) s = [c].
Proof. reflexivity. Qed.

Lemma exec_ret {A} (a : A) (s : globals F) : exec (ret a) s = s.
Proof. reflexivity. Qed.

Lemma calls_ret {A} (a : A) (s : globals F) : calls (ret a) s = [].
Proof. reflexivity. Qed.

Lemma exec_when_true (m : M F unit) (s : globals F) :
  exec (when true m) s = exec m s.
Proof. reflexivity. Qed.

Lemma exec_when_false (m : M F unit) (s : globals F) :
  exec (when false m) s = s.
Proof. reflexivity. Qed.

Lemma calls_when_true (m : M F unit) (s : globals F) :
  calls (when true m) s = calls m s.
Proof. reflexivity. Qed.

Lemma calls_when_false (m : M F unit) (s : globals F) :
  calls (when false m) s = [].
Proof. reflexivity. Qed.

Lemma exec_if {A} (b : bool) (m1 m2 : M F A) (s : globals F) :
  exec (if b then m1 else m2) s = if b then exec m1 s else exec m2 s.
Proof. destruct b; reflexivity. Qed.

Lemma calls_if {A} (b : bool) (m1 m2 : M F A) (s : globals F) :
  calls (if b then m1 else m2) s = if b then calls m1 s else calls m2 s.
Proof. destruct b; reflexivity. Qed.

End MonadLaws.

Section Frame.
Context {F : Type} `{Float32 F}.

Lemma preserves_bind {A B C} (f : globals F -> C)
    (m : M F A) (k : A -> M F B) :
  preserves f m -> (forall a, preserves f (k a)) -> preserves f (bind m k).
Proof. intros Hm Hk s. rewrite exec_bind, Hk, Hm. reflexivity. Qed.

Lemma preserves_ret {A C} (f : globals F -> C) (a : A) :
  preserves f (ret a).
Proof. intros s. reflexivity. Qed.

Lemma preserves_gets {A C} (f : globals F -> C) (g : globals F -> A) :
  preserves f (gets g).
Proof. intros s. reflexivity. Qed.

Lemma preserves_call {C} (f : globals F -> C) (c : hw_call F) :
  preserves f (call c).
Proof. intros s. reflexivity. Qed.

Lemma preserves_when {C} (f : globals F -> C) (b : bool) (m : M F unit) :
  preserves f m -> preserves f (when b m).
Proof. intros Hm. destruct b; [exact Hm | apply preserves_ret]. Qed.

Lemma preserves_modify {C} (f : globals F -> C) (g : globals F -> globals F) :
  (forall s, f (g s) = f s) -> preserves f (modify g).
Proof. intros Hg s. apply Hg. Qed.

Lemma preserves_dump_loop {C} (f : globals F -> C) (n : nat) :
  preserves f (dump_loop n).
Proof.
  induction n as [|k IH]; cbn [dump_loop].
  - apply preserves_ret.
  - repeat (apply preserves_bind; [apply preserves_call | intros _]).
    exact IH.
Qed.

Lemma emits_bind {A B} (P : hw_call F -> Prop) (m : M F A) (k : A -> M F B) :
  emits P m -> (forall a, emits P (k a)) -> emits P (bind m k).
Proof.
  intros Hm Hk s. rewrite calls_bind. apply Forall_app. split.
  - apply Hm.
  - apply Hk.
Qed.

Lemma emits_ret {A} (P : hw_call F -> Prop) (a : A) : emits P (ret a).
Proof. intros s. constructor. Qed.

Lemma emits_gets {A} (P : hw_call F -> Prop) (g : globals F -> A) :
  emits P (gets g).
Proof. intros s. constructor. Qed.

Lemma emits_modify (P : hw_call F -> Prop) (g : globals F -> globals F) :
  emits P (modify g).
Proof. intros s. constructor. Qed.

Lemma emits_call (P : hw_call F -> Prop) (c : hw_call F) :
  P c -> emits P (call c).
Proof. intros Hc s. constructor; [exact Hc | constructor]. Qed.

Lemma emits_when (P : hw_call F -> Prop) (b : bool) (m : M F unit) :
  emits P m -> emits P (when b m).
Proof. intros Hm. destruct b; [exact Hm | apply emits_ret]. Qed.

Lemma stop_calls_app (t1 t2 : list (hw_call F)) :
  stop_calls (t1 ++ t2) = stop_calls t1 ++ stop_calls t2.
Proof. apply flat_map_app. Qed.

Lemma start_calls_app (t1 t2 : list (hw_call F)) :
  start_calls (t1 ++ t2) = start_calls t1 ++ start_calls t2.
Proof. apply flat_map_app. Qed.

Lemma stop_calls_none (t : list (hw_call F)) :
  Forall not_a_stop t -> stop_calls t = [].
Proof.
  induction 1 as [|c t Hc _ IH]; [reflexivity|].
  cbn [stop_calls flat_map]. fold (stop_calls t). rewrite IH.
  destruct c; try reflexivity. destruct Hc.
Qed.

Lemma start_calls_none (t : list (hw_call F)) :
  Forall not_a_start t -> start_calls t = [].
Proof.
  induction 1 as [|c t Hc _ IH]; [reflexivity|].
  cbn [start_calls flat_map]. fold (start_calls t). rewrite IH.
  destruct c; try reflexivity. destruct Hc.
Qed.

End Frame.

(** Unfolding of the tasks into the monad's operations. *)
Ltac unfold_tasks :=
  unfold loop_critical_task, retrieve_measurements, retrieve,
    overcurrent_protection, stop_pwm_when_idle_or_error, boost_stage,
    stop_inverter_when_disabled, startup_ramp, power_mode_control,
    lock_loss_monitor, feed_control_law, update_duty_cycle_offset,
    compute_leg_duties, delayed_energizing, apply_leg_duties,
    debug_and_scope, loop_application_task, mode_transitions,
    dump_scope_datas, conf_command_cb, app_apply_command,
    latch_mode_request, apply_reference, consume_scope_flags, setup_routine.

(** [preserves f m] by following the structure of [m]. *)
Ltac frame :=
  unfold_tasks;
  repeat first
    [ apply preserves_bind; [|intro]
    | apply preserves_ret
    | apply preserves_gets
    | apply preserves_call
    | apply preserves_when
    | apply preserves_dump_loop
    | apply preserves_modify; intro; reflexivity
    | match goal with
      | |- preserves _ (if ?b then _ else _) => destruct b
      | |- preserves _ (match ?r with _ => _ end) => destruct r
      end ].

(** [emits P m] by following the structure of [m]. *)
Ltac quiet :=
  unfold_tasks;
  repeat first
    [ apply emits_bind; [|intro]
    | apply emits_ret
    | apply emits_gets
    | apply emits_modify
    | apply emits_when
    | apply emits_call; exact I
    | match goal with
      | |- emits _ (if ?b then _ else _) => destruct b
      | |- emits _ (match ?r with _ => _ end) => destruct r
      end ].

(** Rewrites [f (exec m s)] into [f s] wherever [m] leaves [f] alone. *)
Ltac unframe :=
  repeat match goal with
    | |- context [?f (exec ?m ?s)] =>
        lazymatch f with
        | context [@exec] => fail
        | context [@calls] => fail
        | _ => idtac
        end;
        let P := fresh "P" in
        assert (P : preserves f m) by (solve [frame]);
        rewrite (P s); clear P
    end.

Ltac modes := unfold IDLEMODE, POWERMODE, ERRORMODE, STARTUPMODE in *.

(** Splits the conjunctions of the goal, and nothing else. *)
Ltac conjs := repeat match goal with |- _ /\ _ => split end.

(** One block run on a state: the monad's operations are rewritten away,
    the assignments are applied, the blocks called stay folded. *)
Create Rewrite HintDb task.
#[export] Hint Rewrite
  @exec_bind @calls_bind @value_gets @exec_gets @calls_gets
  @exec_modify @calls_modify @exec_call @calls_call @exec_ret @calls_ret
  @exec_when_true @exec_when_false @calls_when_true @calls_when_false
  @app_nil_l @app_nil_r : task.

Ltac run := repeat (progress (autorewrite with task; cbn)).

(** * The critical task, block by block *)

Lemma wrap32_small (z : Z) : (0 <= z < 2 ^ 32)%Z -> wrap32 z = z.
Proof. intros Hz. unfold wrap32. apply Z.mod_small. exact Hz. Qed.

Section CriticalTask.
Context {F : Type} `{Float32 F}.
Local Open Scope f32_scope.

Lemma loop_critical_task_exec (io : tick_io F) (s : globals F) :
  exec (loop_critical_task io) s =
  exec (debug_and_scope io)
    (exec (power_mode_control io)
       (exec (startup_ramp io)
          (exec stop_inverter_when_disabled
             (exec (boost_stage io)
                (exec stop_pwm_when_idle_or_error
                   (exec overcurrent_protection
                      (exec (retrieve_measurements io) s))))))).
Proof. unfold loop_critical_task. rewrite !exec_bind. reflexivity. Qed.

Lemma loop_critical_task_calls (io : tick_io F) (s : globals F) :
  let s1 := exec (retrieve_measurements io) s in
  let s2 := exec overcurrent_protection s1 in
  let s3 := exec stop_pwm_when_idle_or_error s2 in
  let s4 := exec (boost_stage io) s3 in
  let s5 := exec stop_inverter_when_disabled s4 in
  let s6 := exec (startup_ramp io) s5 in
  let s7 := exec (power_mode_control io) s6 in
  calls (loop_critical_task io) s =
  calls (retrieve_measurements io) s
  ++ calls overcurrent_protection s1
  ++ calls stop_pwm_when_idle_or_error s2
  ++ calls (boost_stage io) s3
  ++ calls stop_inverter_when_disabled s4
  ++ calls (startup_ramp io) s5
  ++ calls (power_mode_control io) s6
  ++ calls (debug_and_scope io) s7.
Proof. unfold loop_critical_task. rewrite !calls_bind. reflexivity. Qed.

(** Blocks that are skipped. *)

Lemma overcurrent_protection_skip (s : globals F) :
  over_current s = false ->
  exec overcurrent_protection s = s /\ calls overcurrent_protection s = [].
Proof.
  intros Hc. unfold overcurrent_protection. run. rewrite Hc. split; reflexivity.
Qed.

Lemma overcurrent_protection_trip (s : globals F) :
  over_current s = true ->
  exec overcurrent_protection s = set_mode ERRORMODE s
  /\ calls overcurrent_protection s = [].
Proof.
  intros Hc. unfold overcurrent_protection. run. rewrite Hc. split; reflexivity.
Qed.

Lemma stop_pwm_skip (s : globals F) :
  ((mode s =? IDLEMODE)%Z || (mode s =? ERRORMODE)%Z = false
   \/ (pwm_enable s = false /\ boost_pwm_enable s = false)) ->
  exec stop_pwm_when_idle_or_error s = s
  /\ calls stop_pwm_when_idle_or_error s = [].
Proof.
  intros [Hc | [Hp Hb]]; unfold stop_pwm_when_idle_or_error; modes; run.
  - rewrite Hc. split; reflexivity.
  - destruct ((mode s =? 0)%Z || (mode s =? 3)%Z); run;
      rewrite ?Hp; run; rewrite ?Hb; split; reflexivity.
Qed.

Lemma boost_stage_skip (io : tick_io F) (s : globals F) :
  (mode s =? STARTUPMODE)%Z || (mode s =? POWERMODE)%Z = false ->
  exec (boost_stage io) s = s /\ calls (boost_stage io) s = [].
Proof.
  intros Hc. unfold boost_stage. modes. run. rewrite Hc. split; reflexivity.
Qed.

Lemma stop_inverter_skip (s : globals F) :
  inverter_on s = true \/ pwm_enable s = false ->
  exec stop_inverter_when_disabled s = s
  /\ calls stop_inverter_when_disabled s = [].
Proof.
  intros [Hc | Hc]; unfold stop_inverter_when_disabled; run.
  - rewrite Hc. split; reflexivity.
  - destruct (inverter_on s); run; rewrite ?Hc; split; reflexivity.
Qed.

Lemma startup_ramp_skip (io : tick_io F) (s : globals F) :
  (mode s =? STARTUPMODE)%Z && inverter_on s = false ->
  exec (startup_ramp io) s = s /\ calls (startup_ramp io) s = [].
Proof.
  intros Hc. unfold startup_ramp. modes. run. rewrite Hc. split; reflexivity.
Qed.

Lemma power_mode_control_skip (io : tick_io F) (s : globals F) :
  (mode s =? POWERMODE)%Z && inverter_on s = false ->
  exec (power_mode_control io) s = s /\ calls (power_mode_control io) s = [].
Proof.
  intros Hc. unfold power_mode_control. modes. run. rewrite Hc.
  split; reflexivity.
Qed.

End CriticalTask.

(** ** Sampling *)

Section Sampling.
Context {F : Type} `{Float32 F}.
Local Open Scope f32_scope.

Lemma exec_retrieve (io : tick_io F) (ch : sensor_t)
    (store : F -> globals F -> globals F) (s : globals F) :
  exec (retrieve io ch store) s
  = if getLatestValue io ch !=? NO_VALUE
    then store (getLatestValue io ch) (set_meas_data (getLatestValue io ch) s)
    else set_meas_data (getLatestValue io ch) s.
Proof.
  unfold retrieve. run.
  destruct (getLatestValue io ch =? NO_VALUE); reflexivity.
Qed.

Lemma retrieve_Ilow1_value (io : tick_io F) (s : globals F) :
  Ilow1_value (exec (retrieve_measurements io) s)
  = if getLatestValue io ILow1 !=? NO_VALUE
    then getLatestValue io ILow1 - I1_current_offset
    else Ilow1_value s.
Proof.
  unfold retrieve_measurements. run. unframe. rewrite exec_retrieve.
  destruct (getLatestValue io ILow1 =? NO_VALUE); reflexivity.
Qed.

Lemma retrieve_Ilow2_value (io : tick_io F) (s : globals F) :
  Ilow2_value (exec (retrieve_measurements io) s)
  = if getLatestValue io ILow2 !=? NO_VALUE
    then getLatestValue io ILow2 - I2_current_offset
    else Ilow2_value s.
Proof.
  unfold retrieve_measurements. run. unframe. rewrite exec_retrieve.
  destruct (getLatestValue io ILow2 =? NO_VALUE); cbn; unframe; reflexivity.
Qed.

(** Samples within the limit leave the protection untripped. *)
Lemma retrieve_within_limit (io : tick_io F) (s : globals F) :
  over_current s = false -> currents_within_limit io = true ->
  over_current (exec (retrieve_measurements io) s) = false.
Proof.
  unfold over_current, currents_within_limit, sample_within_limit.
  rewrite retrieve_Ilow1_value, retrieve_Ilow2_value.
  intros Hs Hio.
  apply andb_true_iff in Hio. destruct Hio as [H1 H2].
  repeat (apply orb_false_iff in Hs; destruct Hs as [Hs ?]).
  destruct (getLatestValue io ILow1 =? NO_VALUE);
    destruct (getLatestValue io ILow2 =? NO_VALUE);
    cbn [negb orb] in *;
    repeat match goal with
      | E : negb _ = true |- _ => apply negb_true_iff in E
      | E : _ || _ = false |- _ =>
          apply orb_false_iff in E; destruct E as [? ?]
      end;
    repeat (apply orb_false_iff; split); assumption.
Qed.

End Sampling.

(** ** Overcurrent protection and shutdown *)

Section Overcurrent.
Context {F : Type} `{Float32 F}.
Local Open Scope f32_scope.

Lemma overcurrent_protection_mode (s : globals F) :
  mode (exec overcurrent_protection s)
  = if over_current s then ERRORMODE else mode s.
Proof.
  unfold overcurrent_protection. run. destruct (over_current s); reflexivity.
Qed.

(** In Idle or Error the block stops what is running and clears the two
    flags. *)
Lemma stop_pwm_effect (s : globals F) :
  (mode s =? IDLEMODE)%Z || (mode s =? ERRORMODE)%Z = true ->
  let s' := exec stop_pwm_when_idle_or_error s in
  pwm_enable s' = false
  /\ boost_pwm_enable s' = false
  /\ stop_calls (calls stop_pwm_when_idle_or_error s)
     = (if pwm_enable s then [ALL] else [])
       ++ (if boost_pwm_enable s then [LEG1_LOW; LEG2_LOW] else []).
Proof.
  intros Hc. cbv zeta. unfold stop_pwm_when_idle_or_error. modes. run.
  rewrite Hc.
  destruct (pwm_enable s) eqn:Hp; destruct (boost_pwm_enable s) eqn:Hb;
    repeat (run; rewrite ?Hp, ?Hb); repeat split; reflexivity.
Qed.

(** Once in Error with everything stopped, a tick changes neither the mode
    nor the flags and stops nothing. *)
Lemma stopped_in_error_tick (io : tick_io F) (s : globals F) :
  mode s = ERRORMODE -> pwm_enable s = false -> boost_pwm_enable s = false ->
  let s' := exec (loop_critical_task io) s in
  (mode s' = ERRORMODE /\ pwm_enable s' = false /\ boost_pwm_enable s' = false)
  /\ stop_calls (calls (loop_critical_task io) s) = [].
Proof.
  intros Hm Hp Hb.
  cbv zeta. rewrite loop_critical_task_calls, loop_critical_task_exec. cbv zeta.
  set (s1 := exec (retrieve_measurements io) s).
  set (s2 := exec overcurrent_protection s1).
  assert (Hm2 : mode s2 = ERRORMODE).
  { subst s2. rewrite overcurrent_protection_mode.
    destruct (over_current s1); [reflexivity|]. subst s1. unframe. exact Hm. }
  assert (Hp2 : pwm_enable s2 = false) by (subst s2 s1; unframe; exact Hp).
  assert (Hb2 : boost_pwm_enable s2 = false) by (subst s2 s1; unframe; exact Hb).
  assert (Hc2 : calls overcurrent_protection s1 = []).
  { destruct (over_current s1) eqn:Ho.
    - apply overcurrent_protection_trip, Ho.
    - apply overcurrent_protection_skip, Ho. }
  destruct (stop_pwm_skip s2 (or_intror (conj Hp2 Hb2))) as [-> ->].
  destruct (boost_stage_skip io s2) as [-> ->]; [rewrite Hm2; reflexivity|].
  destruct (stop_inverter_skip s2 (or_intror Hp2)) as [-> ->].
  destruct (startup_ramp_skip io s2) as [-> ->]; [rewrite Hm2; reflexivity|].
  destruct (power_mode_control_skip io s2) as [-> ->]; [rewrite Hm2; reflexivity|].
  rewrite Hc2. split.
  - unframe. auto.
  - rewrite !stop_calls_app. cbn [stop_calls flat_map app].
    rewrite !stop_calls_none; [reflexivity | |].
    + assert (Q : emits not_a_stop (debug_and_scope io)) by quiet. apply Q.
    + assert (Q : emits not_a_stop (retrieve_measurements io)) by quiet. apply Q.
Qed.

Lemma run_ticks_cons_exec (io : tick_io F) (ios : list (tick_io F))
    (s : globals F) :
  exec (run_ticks (io :: ios)) s
  = exec (run_ticks ios) (exec (loop_critical_task io) s).
Proof.
  change (run_ticks (io :: ios))
    with (bind (loop_critical_task io) (fun _ => run_ticks ios)).
  rewrite exec_bind. reflexivity.
Qed.

Lemma run_ticks_nil_exec (s : globals F) : exec (run_ticks []) s = s.
Proof. reflexivity. Qed.

Lemma run_ticks_nil_calls (s : globals F) : calls (run_ticks []) s = [].
Proof. reflexivity. Qed.

Lemma run_ticks_cons_calls (io : tick_io F) (ios : list (tick_io F))
    (s : globals F) :
  calls (run_ticks (io :: ios)) s
  = calls (loop_critical_task io) s
    ++ calls (run_ticks ios) (exec (loop_critical_task io) s).
Proof.
  change (run_ticks (io :: ios))
    with (bind (loop_critical_task io) (fun _ => run_ticks ios)).
  rewrite calls_bind. reflexivity.
Qed.

Lemma stopped_in_error_run (ios : list (tick_io F)) (s : globals F) :
  mode s = ERRORMODE -> pwm_enable s = false -> boost_pwm_enable s = false ->
  stop_calls (calls (run_ticks ios) s) = []
  /\ mode (exec (run_ticks ios) s) = ERRORMODE.
Proof.
  revert s. induction ios as [|io ios IH]; intros s Hm Hp Hb.
  - split; [reflexivity | exact Hm].
  - destruct (stopped_in_error_tick io s Hm Hp Hb) as [(Hm' & Hp' & Hb') Hs].
    destruct (IH _ Hm' Hp' Hb') as [Hs' Hm''].
    rewrite run_ticks_cons_exec, run_ticks_cons_calls, stop_calls_app.
    rewrite Hs, Hs'. split; [reflexivity | exact Hm''].
Qed.

(** C2 (amended).  On a tick in which a calibrated primary current
    exceeds 8.0 in magnitude, the mode is Error at the end of that tick and
    the stop calls of that same tick are [stop(ALL)] if the inverter legs
    were running, then [stop(LEG1_LOW)] and [stop(LEG2_LOW)] if the boost
    legs were running, each once; the ticks that follow stay in Error and
    stop nothing. *)
Theorem overcurrent_trips_and_stops_in_same_tick
    (io : tick_io F) (s : globals F) :
  over_current (exec (retrieve_measurements io) s) = true ->
  let s' := exec (loop_critical_task io) s in
  mode s' = ERRORMODE
  /\ stop_calls (calls (loop_critical_task io) s)
     = (if pwm_enable s then [ALL] else [])
       ++ (if boost_pwm_enable s then [LEG1_LOW; LEG2_LOW] else [])
  /\ (forall ios : list (tick_io F),
       stop_calls (calls (run_ticks ios) s') = []
       /\ mode (exec (run_ticks ios) s') = ERRORMODE).
Proof.
  intros Hover.
  assert (Hnow :
    let s' := exec (loop_critical_task io) s in
    (mode s' = ERRORMODE /\ pwm_enable s' = false
     /\ boost_pwm_enable s' = false)
    /\ stop_calls (calls (loop_critical_task io) s)
       = (if pwm_enable s then [ALL] else [])
         ++ (if boost_pwm_enable s then [LEG1_LOW; LEG2_LOW] else [])).
  { cbv zeta.
    rewrite loop_critical_task_calls, loop_critical_task_exec. cbv zeta.
    assert (Hp1 : pwm_enable (exec (retrieve_measurements io) s)
                  = pwm_enable s) by (unframe; reflexivity).
    assert (Hb1 : boost_pwm_enable (exec (retrieve_measurements io) s)
                  = boost_pwm_enable s) by (unframe; reflexivity).
    assert (Hq1 : stop_calls (calls (retrieve_measurements io) s) = []).
    { apply stop_calls_none.
      assert (Q : emits not_a_stop (retrieve_measurements io)) by quiet.
      apply Q. }
    rewrite !stop_calls_app, Hq1.
    remember (exec (retrieve_measurements io) s) as s1 eqn:E1. clear E1.
    destruct (overcurrent_protection_trip s1 Hover) as [-> ->].
    destruct (stop_pwm_effect (set_mode ERRORMODE s1)) as (Hp3 & Hb3 & Hs3);
      [reflexivity|].
    assert (Hm3 : mode (exec stop_pwm_when_idle_or_error
                          (set_mode ERRORMODE s1)) = ERRORMODE)
      by (unframe; reflexivity).
    change (pwm_enable (set_mode ERRORMODE s1)) with (pwm_enable s1) in Hs3.
    change (boost_pwm_enable (set_mode ERRORMODE s1))
      with (boost_pwm_enable s1) in Hs3.
    rewrite Hp1, Hb1 in Hs3. rewrite Hs3.
    remember (exec stop_pwm_when_idle_or_error (set_mode ERRORMODE s1))
      as s3 eqn:E3. clear E3.
    destruct (boost_stage_skip io s3) as [-> ->]; [rewrite Hm3; reflexivity|].
    destruct (stop_inverter_skip s3 (or_intror Hp3)) as [-> ->].
    destruct (startup_ramp_skip io s3) as [-> ->];
      [rewrite Hm3; reflexivity|].
    destruct (power_mode_control_skip io s3) as [-> ->];
      [rewrite Hm3; reflexivity|].
    split.
    - unframe. auto.
    - cbn [stop_calls flat_map app].
      rewrite stop_calls_none.
      + rewrite app_nil_r. reflexivity.
      + assert (Q : emits not_a_stop (debug_and_scope io)) by quiet. apply Q. }
  cbv zeta in *. destruct Hnow as [(Hm & Hp & Hb) Hs].
  split; [exact Hm | split; [exact Hs |]].
  intros ios. apply stopped_in_error_run; assumption.
Qed.

End Overcurrent.

(** ** The closed-loop block *)

Section ClosedLoop.
Context {F : Type} `{Float32 F}.
Local Open Scope f32_scope.

Lemma power_mode_control_active (io : tick_io F) (s : globals F) :
  mode s = POWERMODE -> inverter_on s = true ->
  let s1 := exec (lock_loss_monitor io) s in
  let s2 := exec feed_control_law s1 in
  let s3 := exec update_duty_cycle_offset s2 in
  let s4 := exec compute_leg_duties s3 in
  let s5 := exec delayed_energizing s4 in
  exec (power_mode_control io) s = exec apply_leg_duties s5
  /\ calls (power_mode_control io) s
     = calls (lock_loss_monitor io) s
       ++ calls feed_control_law s1
       ++ calls update_duty_cycle_offset s2
       ++ calls compute_leg_duties s3
       ++ calls delayed_energizing s4
       ++ calls apply_leg_duties s5.
Proof.
  intros Hm Hon. unfold power_mode_control. run. rewrite Hm, Hon. run.
  split; reflexivity.
Qed.

(** A tick in Power mode with the inverter enabled and no overcurrent:
    sampling, boost stage, closed-loop block, debug block. *)
Lemma power_tick (io : tick_io F) (s : globals F) :
  mode s = POWERMODE -> inverter_on s = true ->
  over_current (exec (retrieve_measurements io) s) = false ->
  let s1 := exec (retrieve_measurements io) s in
  let s4 := exec (boost_stage io) s1 in
  let s7 := exec (power_mode_control io) s4 in
  (mode s4 = POWERMODE /\ inverter_on s4 = true)
  /\ exec (loop_critical_task io) s = exec (debug_and_scope io) s7
  /\ calls (loop_critical_task io) s
     = calls (retrieve_measurements io) s
       ++ calls (boost_stage io) s1
       ++ calls (power_mode_control io) s4
       ++ calls (debug_and_scope io) s7.
Proof.
  intros Hm Hon Hover. cbv zeta.
  rewrite loop_critical_task_calls, loop_critical_task_exec. cbv zeta.
  assert (Hm1 : mode (exec (retrieve_measurements io) s) = POWERMODE)
    by (unframe; exact Hm).
  assert (Hon1 : inverter_on (exec (retrieve_measurements io) s) = true)
    by (unframe; exact Hon).
  remember (exec (retrieve_measurements io) s) as s1 eqn:E1. clear E1.
  destruct (overcurrent_protection_skip s1 Hover) as [-> ->].
  destruct (stop_pwm_skip s1) as [-> ->];
    [left; rewrite Hm1; reflexivity|].
  assert (Hm4 : mode (exec (boost_stage io) s1) = POWERMODE)
    by (unframe; exact Hm1).
  assert (Hon4 : inverter_on (exec (boost_stage io) s1) = true)
    by (unframe; exact Hon1).
  remember (exec (boost_stage io) s1) as s4 eqn:E4.
  destruct (stop_inverter_skip s4 (or_introl Hon4)) as [-> ->].
  destruct (startup_ramp_skip io s4) as [-> ->];
    [rewrite Hm4; reflexivity|].
  repeat split; try assumption.
Qed.

(** The lock-loss monitor. *)

Lemma lock_loss_monitor_delta (io : tick_io F) (s : globals F) :
  delta_duty_cycle (exec (lock_loss_monitor io) s)
  = calculateDuty io (Vgrid_meas s) (Igrid_meas s).
Proof.
  unfold lock_loss_monitor. run.
  destruct (power_in_band (getw io)); run; [reflexivity|].
  destruct (wrap32 (desync_counter s + 1) >? 200)%Z; run; reflexivity.
Qed.

Lemma lock_loss_monitor_in_band (io : tick_io F) (s : globals F) :
  power_in_band (getw io) = true ->
  let s' := exec (lock_loss_monitor io) s in
  mode s' = mode s /\ mode_asked s' = mode_asked s
  /\ desync_counter s' = desync_counter s.
Proof.
  intros Hb. unfold lock_loss_monitor. run. rewrite Hb. run. auto.
Qed.

Lemma lock_loss_monitor_counts (io : tick_io F) (s : globals F) :
  power_in_band (getw io) = false ->
  (0 <= desync_counter s < 200)%Z ->
  let s' := exec (lock_loss_monitor io) s in
  mode s' = mode s /\ mode_asked s' = mode_asked s
  /\ desync_counter s' = (desync_counter s + 1)%Z.
Proof.
  intros Hb Hc. unfold lock_loss_monitor. run. rewrite Hb. run.
  rewrite wrap32_small by lia.
  replace (desync_counter s + 1 >? 200)%Z with false by lia. run. auto.
Qed.

Lemma lock_loss_monitor_trips (io : tick_io F) (s : globals F) :
  power_in_band (getw io) = false ->
  desync_counter s = 200%Z ->
  let s' := exec (lock_loss_monitor io) s in
  mode s' = IDLEMODE /\ mode_asked s' = IDLEMODE /\ desync_counter s' = 0%Z.
Proof.
  intros Hb Hc. unfold lock_loss_monitor. run. rewrite Hb. run.
  rewrite Hc. run. auto.
Qed.

(** The duty-cycle offset and the leg duties. *)

Lemma update_duty_cycle_offset_effect (s : globals F) :
  duty_cycle_offset (exec update_duty_cycle_offset s)
  = if pwm_enable s
    then if duty_cycle_offset s <? flit 0.5
         then rate_limiter (flit 0.5) (duty_cycle_offset s) (flit 1.0)
         else flit 0.5
    else VN_meas s / Vdc_bus_filt s.
Proof.
  unfold update_duty_cycle_offset. run. rewrite exec_if.
  destruct (pwm_enable s); run; [|reflexivity].
  rewrite exec_if.
  destruct (duty_cycle_offset s <? flit 0.5); run; reflexivity.
Qed.

Lemma compute_leg_duties_effect (s : globals F) :
  let s' := exec compute_leg_duties s in
  duty_cycle_1 s' = delta_duty_cycle s + duty_cycle_offset s
  /\ duty_cycle_2 s' = - delta_duty_cycle s + duty_cycle_offset s.
Proof. unfold compute_leg_duties. run. auto. Qed.

Lemma apply_leg_duties_calls (s : globals F) :
  calls apply_leg_duties s
  = [power_setDutyCycle LEG1_HIGH (duty_cycle_1 s);
     power_setDutyCycle LEG2_HIGH (duty_cycle_2 s)].
Proof. unfold apply_leg_duties. run. reflexivity. Qed.

(** The delayed start of the legs. *)

Lemma delayed_energizing_skip (s : globals F) :
  pwm_enable s = true ->
  exec delayed_energizing s = s /\ calls delayed_energizing s = [].
Proof.
  intros Hp. unfold delayed_energizing. run. rewrite Hp, andb_false_r. run.
  auto.
Qed.

Lemma delayed_energizing_waits (s : globals F) :
  local_mode s = FOLLOWING -> pwm_enable s = false ->
  (0 <= power_counter s < 2000)%Z ->
  let s' := exec delayed_energizing s in
  (pwm_enable s' = false /\ power_counter s' = (power_counter s + 1)%Z)
  /\ calls delayed_energizing s = [].
Proof.
  intros Hl Hp Hc. unfold delayed_energizing. run. rewrite Hl, Hp. run.
  rewrite wrap32_small by lia.
  replace (power_counter s + 1 >? 2000)%Z with false by lia. run. auto.
Qed.

Lemma delayed_energizing_starts (s : globals F) :
  local_mode s = FOLLOWING -> pwm_enable s = false ->
  (2000 <= power_counter s < 2 ^ 32 - 1)%Z ->
  let s' := exec delayed_energizing s in
  (pwm_enable s' = true /\ power_counter s' = (power_counter s + 1)%Z)
  /\ calls delayed_energizing s = [power_start ALL].
Proof.
  intros Hl Hp Hc. unfold delayed_energizing. run. rewrite Hl, Hp. run.
  rewrite wrap32_small by lia.
  replace (power_counter s + 1 >? 2000)%Z with true by lia. run. auto.
Qed.

End ClosedLoop.

(** ** Closed-loop regulation: leg duties and lock loss *)

Section PowerMode.
Context {F : Type} `{Float32 F}.
Local Open Scope f32_scope.

(** C1 (amended).  On every tick in Power mode with the inverter enabled
    and no overcurrent, [delta_duty_cycle] is the duty returned by the
    control law, [duty_cycle_offset] is the ratio of the neutral-point
    voltage to the filtered bus voltage while the legs are not started and
    is slewed towards 0.5 and capped at 0.5 once they are, and the leg
    duties are [duty_cycle_1 = delta_duty_cycle + duty_cycle_offset] and
    [duty_cycle_2 = - delta_duty_cycle + duty_cycle_offset], handed to the
    legs as they are: the loop applies no clamp to [[0,1]]. *)
Theorem power_mode_leg_duties (io : tick_io F) (s : globals F) :
  mode s = POWERMODE -> inverter_on s = true ->
  over_current (exec (retrieve_measurements io) s) = false ->
  let s1 := exec (retrieve_measurements io) s in
  let s' := exec (loop_critical_task io) s in
  delta_duty_cycle s' = calculateDuty io (Vgrid_meas s1) (Igrid_meas s1)
  /\ duty_cycle_offset s'
     = (if pwm_enable s
        then if duty_cycle_offset s <? flit 0.5
             then rate_limiter (flit 0.5) (duty_cycle_offset s) (flit 1.0)
             else flit 0.5
        else VN_meas s1 / Vdc_bus_filt s1)
  /\ duty_cycle_1 s' = delta_duty_cycle s' + duty_cycle_offset s'
  /\ duty_cycle_2 s' = - delta_duty_cycle s' + duty_cycle_offset s'
  /\ In (power_setDutyCycle LEG1_HIGH (duty_cycle_1 s'))
        (calls (loop_critical_task io) s)
  /\ In (power_setDutyCycle LEG2_HIGH (duty_cycle_2 s'))
        (calls (loop_critical_task io) s).
Proof.
  intros Hm Hon Hover. cbv zeta.
  destruct (power_tick io s Hm Hon Hover) as [[Hm4 Hon4] [-> ->]].
  destruct (power_mode_control_active io _ Hm4 Hon4) as [-> ->].
  rewrite apply_leg_duties_calls.
  repeat split.
  - unframe. rewrite lock_loss_monitor_delta. unframe. reflexivity.
  - unframe. rewrite update_duty_cycle_offset_effect. unframe.
    destruct (pwm_enable s); reflexivity.
  - unframe. rewrite (proj1 (compute_leg_duties_effect _)). unframe.
    reflexivity.
  - unframe. rewrite (proj2 (compute_leg_duties_effect _)). unframe.
    reflexivity.
  - rewrite !in_app_iff. do 2 right. left. do 5 right. left.
    unframe. reflexivity.
  - rewrite !in_app_iff. do 2 right. left. do 5 right. right. left.
    unframe. reflexivity.
Qed.

(** One out-of-band tick below the threshold counts. *)
Lemma power_tick_counts (io : tick_io F) (s : globals F) :
  mode s = POWERMODE -> inverter_on s = true -> over_current s = false ->
  currents_within_limit io = true -> power_in_band (getw io) = false ->
  (0 <= desync_counter s < 200)%Z ->
  let s' := exec (loop_critical_task io) s in
  (mode s' = POWERMODE /\ inverter_on s' = true /\ over_current s' = false)
  /\ mode_asked s' = mode_asked s
  /\ desync_counter s' = (desync_counter s + 1)%Z.
Proof.
  intros Hm Hon Hs Hio Hb Hc. cbv zeta.
  pose proof (retrieve_within_limit io s Hs Hio) as Hover.
  destruct (power_tick io s Hm Hon Hover) as [[Hm4 Hon4] [-> _]].
  destruct (power_mode_control_active io _ Hm4 Hon4) as [-> _].
  assert (Hc4 : (0 <= desync_counter
                    (exec (boost_stage io)
                       (exec (retrieve_measurements io) s)) < 200)%Z)
    by (unframe; exact Hc).
  destruct (lock_loss_monitor_counts io _ Hb Hc4) as (Hm' & Ha' & Hc').
  repeat split.
  - unframe. rewrite Hm'. exact Hm4.
  - unframe. exact Hon.
  - unframe. exact Hover.
  - unframe. rewrite Ha'. unframe. reflexivity.
  - unframe. rewrite Hc'. unframe. reflexivity.
Qed.

(** The out-of-band tick that takes the counter over the threshold trips. *)
Lemma power_tick_trips (io : tick_io F) (s : globals F) :
  mode s = POWERMODE -> inverter_on s = true -> over_current s = false ->
  currents_within_limit io = true -> power_in_band (getw io) = false ->
  desync_counter s = 200%Z ->
  let s' := exec (loop_critical_task io) s in
  mode s' = IDLEMODE /\ mode_asked s' = IDLEMODE /\ desync_counter s' = 0%Z.
Proof.
  intros Hm Hon Hs Hio Hb Hc. cbv zeta.
  pose proof (retrieve_within_limit io s Hs Hio) as Hover.
  destruct (power_tick io s Hm Hon Hover) as [[Hm4 Hon4] [-> _]].
  destruct (power_mode_control_active io _ Hm4 Hon4) as [-> _].
  assert (Hc4 : desync_counter
                  (exec (boost_stage io)
                     (exec (retrieve_measurements io) s)) = 200%Z)
    by (unframe; exact Hc).
  destruct (lock_loss_monitor_trips io _ Hb Hc4) as (Hm' & Ha' & Hc').
  repeat split; unframe; assumption.
Qed.

Lemma lock_loss_run (ios : list (tick_io F)) :
  Forall (fun io => currents_within_limit io = true
                    /\ power_in_band (getw io) = false) ios ->
  forall s : globals F,
    mode s = POWERMODE -> inverter_on s = true -> over_current s = false ->
    (0 <= desync_counter s <= 200)%Z ->
    let n := (desync_counter s + Z.of_nat (length ios))%Z in
    let s' := exec (run_ticks ios) s in
    ((n <= 200)%Z ->
       mode s' = POWERMODE /\ mode_asked s' = mode_asked s
       /\ desync_counter s' = n)
    /\ (n = 201%Z ->
        mode s' = IDLEMODE /\ mode_asked s' = IDLEMODE
        /\ desync_counter s' = 0%Z).
Proof.
  induction 1 as [|io ios [Hio Hb] _ IH]; intros s Hm Hon Hs Hc; cbv zeta.
  - cbn [length]. rewrite Z.add_0_r, run_ticks_nil_exec.
    split; [intros _ | lia]. auto.
  - rewrite run_ticks_cons_exec. cbn [length]. rewrite Nat2Z.inj_succ.
    destruct (Z.eq_dec (desync_counter s) 200) as [E | NE].
    + destruct (power_tick_trips io s Hm Hon Hs Hio Hb E) as (Hm' & Ha' & Hc').
      split; [lia|]. intros Hn.
      assert (ios = [])
        by (destruct ios; [reflexivity | cbn [length] in Hn; lia]).
      subst ios. rewrite run_ticks_nil_exec. auto.
    + assert (Hlt : (0 <= desync_counter s < 200)%Z) by lia.
      destruct (power_tick_counts io s Hm Hon Hs Hio Hb Hlt)
        as ((Hm' & Hon' & Hs') & Ha' & Hc').
      specialize (IH _ Hm' Hon' Hs'). cbv zeta in IH.
      rewrite Hc', Ha' in IH.
      destruct IH as [IH1 IH2]; [lia|].
      split; intros Hn.
      * destruct IH1 as (? & ? & ?); [lia|].
        split; [assumption | split; [assumption | lia]].
      * apply IH2. lia.
Qed.

(** C3 (amended).  In Power mode with the inverter enabled and the
    lock-loss counter at zero, every tick whose angular frequency is
    outside the band of 1% around nominal increments the counter, up to
    200, and the mode stays Power; the 201st consecutive such tick, on which
    the incremented counter exceeds 200, forces the requested mode and the
    mode to Idle and puts the counter back to zero. *)
Theorem lock_loss_trips_on_201st_tick
    (ios : list (tick_io F)) (s : globals F) :
  mode s = POWERMODE -> inverter_on s = true -> over_current s = false ->
  desync_counter s = 0%Z ->
  Forall (fun io => currents_within_limit io = true
                    /\ power_in_band (getw io) = false) ios ->
  let s' := exec (run_ticks ios) s in
  ((length ios <= 200)%nat ->
     mode s' = POWERMODE /\ mode_asked s' = mode_asked s
     /\ desync_counter s' = Z.of_nat (length ios))
  /\ (length ios = 201%nat ->
     mode s' = IDLEMODE /\ mode_asked s' = IDLEMODE
     /\ desync_counter s' = 0%Z).
Proof.
  intros Hm Hon Hs Hc Hios. cbv zeta.
  assert (Hr : (0 <= desync_counter s <= 200)%Z) by lia.
  pose proof (lock_loss_run ios Hios s Hm Hon Hs Hr) as [H1 H2].
  rewrite Hc in H1, H2. cbn [Z.add] in H1, H2.
  split; intros Hn.
  - apply H1. lia.
  - apply H2. lia.
Qed.

End PowerMode.

(** ** Startup in following sub-mode: lock acquisition *)

Section Startup.
Context {F : Type} `{Float32 F}.
Local Open Scope f32_scope.

(** A tick in Startup mode with the inverter enabled and no overcurrent:
    sampling, boost stage, startup block, debug block. *)
Lemma startup_tick (io : tick_io F) (s : globals F) :
  mode s = STARTUPMODE -> inverter_on s = true ->
  over_current (exec (retrieve_measurements io) s) = false ->
  let s4 := exec (boost_stage io) (exec (retrieve_measurements io) s) in
  (mode s4 = STARTUPMODE /\ inverter_on s4 = true)
  /\ exec (loop_critical_task io) s
     = exec (debug_and_scope io) (exec (startup_ramp io) s4).
Proof.
  intros Hm Hon Hover. cbv zeta. rewrite loop_critical_task_exec.
  assert (Hm1 : mode (exec (retrieve_measurements io) s) = STARTUPMODE)
    by (unframe; exact Hm).
  assert (Hon1 : inverter_on (exec (retrieve_measurements io) s) = true)
    by (unframe; exact Hon).
  remember (exec (retrieve_measurements io) s) as s1 eqn:E1. clear E1.
  destruct (overcurrent_protection_skip s1 Hover) as [-> _].
  destruct (stop_pwm_skip s1) as [-> _];
    [left; rewrite Hm1; reflexivity|].
  assert (Hm4 : mode (exec (boost_stage io) s1) = STARTUPMODE)
    by (unframe; exact Hm1).
  assert (Hon4 : inverter_on (exec (boost_stage io) s1) = true)
    by (unframe; exact Hon1).
  remember (exec (boost_stage io) s1) as s4 eqn:E4. clear E4.
  destruct (stop_inverter_skip s4 (or_introl Hon4)) as [-> _].
  assert (Hm5 : mode (exec (startup_ramp io) s4) = STARTUPMODE)
    by (unframe; exact Hm4).
  destruct (power_mode_control_skip io (exec (startup_ramp io) s4)) as [-> _];
    [rewrite Hm5; reflexivity|].
  auto.
Qed.

Lemma startup_ramp_counts (io : tick_io F) (s : globals F) :
  mode s = STARTUPMODE -> inverter_on s = true -> local_mode s = FOLLOWING ->
  sync_in_band (getw io) = true -> (0 <= sync_counter s < 2000)%Z ->
  let s' := exec (startup_ramp io) s in
  sync_counter s' = (sync_counter s + 1)%Z
  /\ is_net_synchronized s' = is_net_synchronized s.
Proof.
  intros Hm Hon Hl Hb Hc. unfold startup_ramp. run. rewrite Hm, Hon. run. rewrite Hl. run.
  rewrite Hb. run. rewrite wrap32_small by lia.
  replace (sync_counter s + 1 >? 2000)%Z with false by lia. run. auto.
Qed.

Lemma startup_ramp_locks (io : tick_io F) (s : globals F) :
  mode s = STARTUPMODE -> inverter_on s = true -> local_mode s = FOLLOWING ->
  sync_in_band (getw io) = true -> sync_counter s = 2000%Z ->
  let s' := exec (startup_ramp io) s in
  sync_counter s' = 0%Z /\ is_net_synchronized s' = true.
Proof.
  intros Hm Hon Hl Hb Hc. unfold startup_ramp. run. rewrite Hm, Hon. run. rewrite Hl. run.
  rewrite Hb. run. rewrite Hc. run. auto.
Qed.

Lemma startup_ramp_resets (io : tick_io F) (s : globals F) :
  mode s = STARTUPMODE -> inverter_on s = true -> local_mode s = FOLLOWING ->
  sync_in_band (getw io) = false ->
  let s' := exec (startup_ramp io) s in
  sync_counter s' = 0%Z /\ is_net_synchronized s' = false.
Proof.
  intros Hm Hon Hl Hb. unfold startup_ramp. run. rewrite Hm, Hon. run. rewrite Hl. run.
  rewrite Hb. run. auto.
Qed.

Lemma startup_tick_keeps (io : tick_io F) (s : globals F) :
  startup_following s -> over_current s = false ->
  currents_within_limit io = true ->
  let s' := exec (loop_critical_task io) s in
  startup_following s' /\ over_current s' = false.
Proof.
  intros (Hm & Hon & Hl) Hs Hio. cbv zeta.
  pose proof (retrieve_within_limit io s Hs Hio) as Hover.
  destruct (startup_tick io s Hm Hon Hover) as [_ ->].
  repeat split; unframe; assumption.
Qed.

Lemma startup_tick_sync (io : tick_io F) (s : globals F) :
  startup_following s ->
  over_current (exec (retrieve_measurements io) s) = false ->
  let s' := exec (loop_critical_task io) s in
  (sync_in_band (getw io) = true -> (0 <= sync_counter s < 2000)%Z ->
     sync_counter s' = (sync_counter s + 1)%Z
     /\ is_net_synchronized s' = is_net_synchronized s)
  /\ (sync_in_band (getw io) = true -> sync_counter s = 2000%Z ->
     sync_counter s' = 0%Z /\ is_net_synchronized s' = true)
  /\ (sync_in_band (getw io) = false ->
     sync_counter s' = 0%Z /\ is_net_synchronized s' = false).
Proof.
  intros (Hm & Hon & Hl) Hover. cbv zeta.
  destruct (startup_tick io s Hm Hon Hover) as [[Hm4 Hon4] ->].
  set (s4 := exec (boost_stage io) (exec (retrieve_measurements io) s)) in *.
  assert (Hl4 : local_mode s4 = FOLLOWING) by (subst s4; unframe; exact Hl).
  assert (Hc4 : sync_counter s4 = sync_counter s)
    by (subst s4; unframe; reflexivity).
  assert (Hn4 : is_net_synchronized s4 = is_net_synchronized s)
    by (subst s4; unframe; reflexivity).
  clearbody s4.
  split; [|split].
  - intros Hb Hc. rewrite <- Hc4 in Hc.
    destruct (startup_ramp_counts io s4 Hm4 Hon4 Hl4 Hb Hc) as [Hc' Hn'].
    split; unframe; congruence.
  - intros Hb Hc. rewrite <- Hc4 in Hc.
    destruct (startup_ramp_locks io s4 Hm4 Hon4 Hl4 Hb Hc) as [Hc' Hn'].
    split; unframe; assumption.
  - intros Hb.
    destruct (startup_ramp_resets io s4 Hm4 Hon4 Hl4 Hb) as [Hc' Hn'].
    split; unframe; assumption.
Qed.

Lemma lock_acquire_run (ios : list (tick_io F)) :
  Forall (fun io => currents_within_limit io = true
                    /\ sync_in_band (getw io) = true) ios ->
  forall s : globals F,
    startup_following s -> over_current s = false ->
    (0 <= sync_counter s <= 2000)%Z ->
    let n := (sync_counter s + Z.of_nat (length ios))%Z in
    let s' := exec (run_ticks ios) s in
    ((n <= 2000)%Z ->
       sync_counter s' = n
       /\ is_net_synchronized s' = is_net_synchronized s)
    /\ (n = 2001%Z ->
        sync_counter s' = 0%Z /\ is_net_synchronized s' = true).
Proof.
  induction 1 as [|io ios [Hio Hb] _ IH]; intros s Hsf Hs Hc; cbv zeta.
  - cbn [length]. rewrite Z.add_0_r, run_ticks_nil_exec.
    split; [intros _ | lia]. split; reflexivity.
  - rewrite run_ticks_cons_exec. cbn [length]. rewrite Nat2Z.inj_succ.
    pose proof (retrieve_within_limit io s Hs Hio) as Hover.
    destruct (startup_tick_keeps io s Hsf Hs Hio) as [Hsf' Hs'].
    destruct (startup_tick_sync io s Hsf Hover) as (Hcount & Hlock & _).
    destruct (Z.eq_dec (sync_counter s) 2000) as [E | NE].
    + destruct (Hlock Hb E) as [Hc' Hn'].
      split; [lia|]. intros Hn.
      assert (ios = [])
        by (destruct ios; [reflexivity | cbn [length] in Hn; lia]).
      subst ios. rewrite run_ticks_nil_exec. auto.
    + destruct Hcount as [Hc' Hn']; [exact Hb | lia |].
      specialize (IH _ Hsf' Hs'). cbv zeta in IH. rewrite Hc', Hn' in IH.
      destruct IH as [IH1 IH2]; [lia|].
      split; intros Hn.
      * destruct IH1 as [? ?]; [lia|]. split; [lia | assumption].
      * apply IH2. lia.
Qed.

(** C4 (amended).  In Startup mode, following sub-mode, inverter enabled:
    from a lock-acquire counter at zero and [is_net_synchronized] false, a
    run of up to 2000 consecutive in-band ticks leaves
    [is_net_synchronized] false and the counter at the length of the run;
    the 2001st in-band tick sets [is_net_synchronized] and puts the counter
    back to zero; and a tick out of band puts the counter to zero and
    clears [is_net_synchronized]. *)
Theorem lock_acquired_on_2001st_tick
    (ios : list (tick_io F)) (io : tick_io F) (s : globals F) :
  mode s = STARTUPMODE -> inverter_on s = true -> local_mode s = FOLLOWING ->
  over_current s = false -> currents_within_limit io = true ->
  Forall (fun io => currents_within_limit io = true
                    /\ sync_in_band (getw io) = true) ios ->
  let s' := exec (run_ticks ios) s in
  (sync_counter s = 0%Z -> is_net_synchronized s = false ->
     ((length ios <= 2000)%nat ->
        is_net_synchronized s' = false
        /\ sync_counter s' = Z.of_nat (length ios))
     /\ (length ios = 2001%nat ->
        is_net_synchronized s' = true /\ sync_counter s' = 0%Z))
  /\ (sync_in_band (getw io) = false ->
      sync_counter (exec (loop_critical_task io) s) = 0%Z
      /\ is_net_synchronized (exec (loop_critical_task io) s) = false).
Proof.
  intros Hm Hon Hl Hs Hio Hios. cbv zeta.
  assert (Hsf : startup_following s) by (repeat split; assumption).
  split.
  - intros Hc Hn.
    assert (Hr : (0 <= sync_counter s <= 2000)%Z) by lia.
    pose proof (lock_acquire_run ios Hios s Hsf Hs Hr) as [H1 H2].
    rewrite Hc in H1, H2. cbn [Z.add] in H1, H2. rewrite Hn in H1.
    split; intros Hlen.
    + destruct H1 as [? ?]; [lia|]. auto.
    + destruct H2 as [? ?]; [lia|]. auto.
  - intros Hb.
    pose proof (retrieve_within_limit io s Hs Hio) as Hover.
    destruct (startup_tick_sync io s Hsf Hover) as (_ & _ & Hreset).
    apply Hreset, Hb.
Qed.

End Startup.

(** ** The mode state machine *)

Section StateMachine.
Context {F : Type} `{Float32 F}.
Local Open Scope f32_scope.

Lemma mode_transitions_in_error (s : globals F) :
  mode s = ERRORMODE -> exec mode_transitions s = s.
Proof.
  intros Hm. unfold mode_transitions. run. rewrite Hm. run. reflexivity.
Qed.

(** C8.  After a run of the state machine the mode is Idle whenever the
    requested mode is Idle, whatever the mode was, Error included; and
    when the requested mode is not Idle, a mode of Error stays Error. *)
Theorem idle_request_overrides_and_error_is_kept
    (io : app_io) (s : globals F) :
  (mode_asked s = IDLEMODE ->
     mode (exec (loop_application_task io) s) = IDLEMODE)
  /\ (mode_asked s <> IDLEMODE -> mode s = ERRORMODE ->
     mode (exec (loop_application_task io) s) = ERRORMODE).
Proof.
  split.
  - intros Ha. unfold loop_application_task. run. unframe.
    rewrite Ha. run. reflexivity.
  - intros Ha Hm. unfold loop_application_task. run. unframe.
    rewrite (mode_transitions_in_error s Hm).
    replace (mode_asked s =? IDLEMODE)%Z with false
      by (symmetry; apply Z.eqb_neq; exact Ha).
    run. exact Hm.
Qed.

End StateMachine.

(** ** The command gateway *)

Section GatewayProps.
Context {F : Type} `{Float32 F}.
Local Open Scope f32_scope.

(** C10.  When [mode_request] is neither Idle (0) nor Power (1),
    [app_apply_command] leaves the requested mode [mode_asked] as it was,
    and the [switch] on the request calls nothing. *)
Theorem other_mode_requests_are_ignored (s : globals F) :
  mode_request (user_cmd s) <> IDLEMODE ->
  mode_request (user_cmd s) <> POWERMODE ->
  mode_asked (exec app_apply_command s) = mode_asked s
  /\ calls latch_mode_request s = [].
Proof.
  intros H0 H1.
  assert (E0 : (mode_request (user_cmd s) =? IDLEMODE)%Z = false)
    by (apply Z.eqb_neq; exact H0).
  assert (E1 : (mode_request (user_cmd s) =? POWERMODE)%Z = false)
    by (apply Z.eqb_neq; exact H1).
  split.
  - unfold app_apply_command. run. unframe.
    unfold latch_mode_request. run. rewrite E0, E1. run. reflexivity.
  - unfold latch_mode_request. run. rewrite calls_if, E0, calls_if, E1.
    run. reflexivity.
Qed.

Lemma latch_mode_request_idle_or_power (s : globals F) :
  let s' := exec latch_mode_request s in
  mode_asked s' = IDLEMODE \/ mode_asked s' = POWERMODE
  \/ mode_asked s' = mode_asked s.
Proof.
  cbv zeta. unfold latch_mode_request. run. rewrite exec_if.
  destruct (mode_request (user_cmd s) =? IDLEMODE)%Z; run; [auto|].
  rewrite exec_if.
  destruct (mode_request (user_cmd s) =? POWERMODE)%Z; run; auto.
Qed.

Lemma apply_reference_following (s : globals F) :
  local_mode s = FOLLOWING ->
  exec apply_reference s
  = let id := clamp_ref (id_ref (user_cmd s))
                (d (Idq_ref_min s)) (d (Idq_ref_max s)) in
    set_cmd_id_ref id (set_Idq_ref_d id s).
Proof.
  intros Hl. unfold apply_reference. run. rewrite Hl. run. reflexivity.
Qed.

Lemma apply_reference_forming (s : globals F) :
  local_mode s = FORMING ->
  exec apply_reference s
  = let vd := clamp_ref (vd_ref (user_cmd s))
                (d (Vdq_ref_min s)) (d (Vdq_ref_max s)) in
    set_cmd_vd_ref vd (set_Vdq_ref_d vd s).
Proof.
  intros Hl. unfold apply_reference. run. rewrite Hl. run. reflexivity.
Qed.

Lemma consume_scope_flags_refs (s : globals F) :
  id_ref (user_cmd (exec consume_scope_flags s)) = id_ref (user_cmd s)
  /\ vd_ref (user_cmd (exec consume_scope_flags s)) = vd_ref (user_cmd s).
Proof.
  assert (Pi : preserves (fun x : globals F => id_ref (user_cmd x)) consume_scope_flags)
    by frame.
  assert (Pv : preserves (fun x : globals F => vd_ref (user_cmd x)) consume_scope_flags)
    by frame.
  split; [apply Pi | apply Pv].
Qed.

(** The reference of the active sub-mode is bounded by [clamp_ref], stored
    and written back; the other reference is left alone. *)
Lemma apply_command_reference (s : globals F) :
  let s' := exec app_apply_command s in
  (local_mode s = FOLLOWING ->
     d (Idq_ref s') = clamp_ref (id_ref (user_cmd s))
                        (d (Idq_ref_min s)) (d (Idq_ref_max s))
     /\ id_ref (user_cmd s') = d (Idq_ref s')
     /\ q (Idq_ref s') = q (Idq_ref s)
     /\ Vdq_ref s' = Vdq_ref s
     /\ vd_ref (user_cmd s') = vd_ref (user_cmd s))
  /\ (local_mode s = FORMING ->
     d (Vdq_ref s') = clamp_ref (vd_ref (user_cmd s))
                        (d (Vdq_ref_min s)) (d (Vdq_ref_max s))
     /\ vd_ref (user_cmd s') = d (Vdq_ref s')
     /\ q (Vdq_ref s') = q (Vdq_ref s)
     /\ Idq_ref s' = Idq_ref s
     /\ id_ref (user_cmd s') = id_ref (user_cmd s)).
Proof.
  cbv zeta. unfold app_apply_command. run.
  set (s2 := set_inverter_on _ (exec latch_mode_request s)).
  assert (Hc : user_cmd s2 = user_cmd s) by (subst s2; cbn; unframe; reflexivity).
  assert (Hl : local_mode s2 = local_mode s) by (subst s2; cbn; unframe; reflexivity).
  assert (Hi : Idq_ref s2 = Idq_ref s) by (subst s2; cbn; unframe; reflexivity).
  assert (Hv : Vdq_ref s2 = Vdq_ref s) by (subst s2; cbn; unframe; reflexivity).
  assert (Himin : Idq_ref_min s2 = Idq_ref_min s) by (subst s2; cbn; unframe; reflexivity).
  assert (Himax : Idq_ref_max s2 = Idq_ref_max s) by (subst s2; cbn; unframe; reflexivity).
  assert (Hvmin : Vdq_ref_min s2 = Vdq_ref_min s) by (subst s2; cbn; unframe; reflexivity).
  assert (Hvmax : Vdq_ref_max s2 = Vdq_ref_max s) by (subst s2; cbn; unframe; reflexivity).
  clearbody s2.
  destruct (consume_scope_flags_refs (exec apply_reference s2)) as [Ei Ev].
  rewrite Ei, Ev. unframe.
  split; intros Hlm; rewrite <- Hl in Hlm.
  - rewrite (apply_reference_following s2 Hlm). cbn.
    rewrite Hc, Hi, Hv, Himin, Himax. repeat split; reflexivity.
  - rewrite (apply_reference_forming s2 Hlm). cbn.
    rewrite Hc, Hi, Hv, Hvmin, Hvmax. repeat split; reflexivity.
Qed.

End GatewayProps.

(** ** The comparisons of IEEE 754 *)

Lemma SFcompare_refl (x : spec_float) :
  SFcompare x x = match x with S754_nan => None | _ => Some Eq end.
Proof.
  destruct x as [s | s | | s m e]; try destruct s; cbn; try reflexivity.
  - rewrite Z.compare_refl. change (Pos.compare_cont Eq m m) with (m ?= m)%positive.
    rewrite Pos.compare_refl. reflexivity.
  - rewrite Z.compare_refl. change (Pos.compare_cont Eq m m) with (m ?= m)%positive.
    rewrite Pos.compare_refl. reflexivity.
Qed.

Lemma SFcompare_antisym (x y : spec_float) :
  SFcompare y x = option_map CompOpp (SFcompare x y).
Proof.
  destruct x as [s | s | | s m e]; destruct y as [s' | s' | | s' m' e'];
    try destruct s; try destruct s'; cbn; try reflexivity.
  - rewrite (Z.compare_antisym e e').
    change (Pos.compare_cont Eq m' m) with (m' ?= m)%positive.
    change (Pos.compare_cont Eq m m') with (m ?= m')%positive.
    rewrite (Pos.compare_antisym m m').
    destruct (e ?= e'); destruct (m ?= m')%positive; reflexivity.
  - rewrite (Z.compare_antisym e e').
    change (Pos.compare_cont Eq m' m) with (m' ?= m)%positive.
    change (Pos.compare_cont Eq m m') with (m ?= m')%positive.
    rewrite (Pos.compare_antisym m m').
    destruct (e ?= e'); destruct (m ?= m')%positive; reflexivity.
Qed.

Lemma SFleb_key (x y : spec_float) :
  x <> S754_nan -> y <> S754_nan ->
  (SFleb x y = true <-> key_le (SFkey x) (SFkey y)).
Proof.
  intros Hx Hy. unfold SFleb.
  destruct x as [s | s | | s m e]; destruct y as [s' | s' | | s' m' e'];
    try congruence; try destruct s; try destruct s'; cbn;
    try (split; [intros _; lia | reflexivity]);
    try (split; [discriminate | lia]).
  - change (Pos.compare_cont Eq m m') with (m ?= m')%positive.
    destruct (Z.compare_spec e e'); destruct (Pos.compare_spec m m');
      cbn; split; try discriminate; try lia; try reflexivity.
  - change (Pos.compare_cont Eq m m') with (m ?= m')%positive.
    destruct (Z.compare_spec e e'); destruct (Pos.compare_spec m m');
      cbn; split; try discriminate; try lia; try reflexivity.
Qed.

Lemma SFeqb_self (x : spec_float) : SFeqb x x = true <-> x <> S754_nan.
Proof.
  unfold SFeqb. rewrite SFcompare_refl.
  destruct x; split; try congruence; try discriminate; reflexivity.
Qed.

Lemma SFleb_not_nan (x y : spec_float) :
  SFleb x y = true -> x <> S754_nan /\ y <> S754_nan.
Proof.
  unfold SFleb. destruct x; destruct y; cbn; try discriminate;
    split; discriminate.
Qed.

Lemma SFltb_not_nan (x y : spec_float) :
  SFltb x y = true -> x <> S754_nan /\ y <> S754_nan.
Proof.
  unfold SFltb. destruct x; destruct y; cbn; try discriminate;
    split; discriminate.
Qed.

Lemma SFcompare_some (x y : spec_float) :
  x <> S754_nan -> y <> S754_nan -> exists c, SFcompare x y = Some c.
Proof.
  intros Hx Hy. destruct x; destruct y; try congruence; cbn; eauto.
Qed.

Lemma binary32_order : Float32Order spec_float.
Proof.
  split; cbn [fleb fltb feqb binary32].
  - intros x y Hle. rewrite !SFeqb_self. apply SFleb_not_nan, Hle.
  - intros x y Hlt. rewrite !SFeqb_self. apply SFltb_not_nan, Hlt.
  - intros x y Hx Hy. apply SFeqb_self in Hx. apply SFeqb_self in Hy.
    unfold SFltb, SFleb. rewrite (SFcompare_antisym x y).
    destruct (SFcompare_some x y Hx Hy) as [c ->].
    destruct c; reflexivity.
  - intros x y Hx Hy. apply SFeqb_self in Hx. apply SFeqb_self in Hy.
    unfold SFleb. rewrite (SFcompare_antisym x y).
    destruct (SFcompare_some x y Hx Hy) as [c ->].
    destruct c; reflexivity.
  - intros x y z Hxy Hyz.
    destruct (SFleb_not_nan _ _ Hxy) as [Hx Hy].
    destruct (SFleb_not_nan _ _ Hyz) as [_ Hz].
    rewrite SFleb_key in * by assumption.
    unfold key_le in *.
    destruct (SFkey x) as [[? ?] ?]; destruct (SFkey y) as [[? ?] ?];
      destruct (SFkey z) as [[? ?] ?]. lia.
Qed.

#[export] Existing Instance binary32_order.

Lemma exact_order : Float32Order Q.
Proof.
  split; cbn [fleb fltb feqb exact].
  - intros x y _. split; apply Qeq_bool_iff; reflexivity.
  - intros x y _. split; apply Qeq_bool_iff; reflexivity.
  - intros x y _ _. reflexivity.
  - intros x y _ _. apply orb_true_iff. rewrite !Qle_bool_iff.
    destruct (Qlt_le_dec x y) as [Hlt | Hle]; [left; apply Qlt_le_weak, Hlt | right; exact Hle].
  - intros x y z Hxy Hyz. rewrite Qle_bool_iff in *.
    eapply Qle_trans; eassumption.
Qed.

#[export] Existing Instance exact_order.

(** ** Consequences of the laws *)

Section OrderFacts.
Context {F : Type} `{Float32Order F}.
Local Open Scope f32_scope.

Lemma fle_refl (x : F) : (x =? x) = true -> (x <=? x) = true.
Proof.
  intros Hx. pose proof (fle_total x x Hx Hx) as Ht.
  destruct (x <=? x); [reflexivity | discriminate].
Qed.

Lemma flt_irrefl (x : F) : (x <? x) = false.
Proof.
  destruct (x <? x) eqn:E; [|reflexivity].
  destruct (flt_not_nan x x E) as [Hx _].
  rewrite (flt_total x x Hx Hx), (fle_refl x Hx) in E. discriminate.
Qed.

Lemma fle_not_flt (x y : F) : (x <=? y) = true -> (y <? x) = false.
Proof.
  intros Hle. destruct (fle_not_nan x y Hle) as [Hx Hy].
  rewrite (flt_total y x Hy Hx), Hle. reflexivity.
Qed.

Lemma not_flt_fle (x y : F) :
  (x =? x) = true -> (y =? y) = true -> (x <? y) = false -> (y <=? x) = true.
Proof.
  intros Hx Hy Hlt. rewrite (flt_total x y Hx Hy) in Hlt.
  apply negb_false_iff. exact Hlt.
Qed.

Lemma flt_fle (x y : F) : (x <? y) = true -> (x <=? y) = true.
Proof.
  intros Hlt. destruct (flt_not_nan x y Hlt) as [Hx Hy].
  rewrite (flt_total x y Hx Hy) in Hlt. apply negb_true_iff in Hlt.
  pose proof (fle_total x y Hx Hy) as Ht. rewrite Hlt, orb_false_r in Ht.
  exact Ht.
Qed.

Lemma flt_fle_trans (x y z : F) :
  (x <? y) = true -> (y <=? z) = true -> (x <? z) = true.
Proof.
  intros Hxy Hyz. destruct (flt_not_nan x y Hxy) as [Hx Hy].
  destruct (fle_not_nan y z Hyz) as [_ Hz].
  rewrite (flt_total x z Hx Hz). apply negb_true_iff.
  destruct (z <=? x) eqn:E; [|reflexivity].
  pose proof (fle_trans y z x Hyz E) as Hyx.
  rewrite (flt_total x y Hx Hy), Hyx in Hxy. discriminate.
Qed.

Lemma fle_flt_trans (x y z : F) :
  (x <=? y) = true -> (y <? z) = true -> (x <? z) = true.
Proof.
  intros Hxy Hyz. destruct (fle_not_nan x y Hxy) as [Hx Hy].
  destruct (flt_not_nan y z Hyz) as [_ Hz].
  rewrite (flt_total x z Hx Hz). apply negb_true_iff.
  destruct (z <=? x) eqn:E; [|reflexivity].
  pose proof (fle_trans z x y E Hxy) as Hzy.
  rewrite (flt_total y z Hy Hz), Hzy in Hyz. discriminate.
Qed.

Lemma feq_refl_of_fle (x : F) : (x <=? x) = true -> (x =? x) = true.
Proof. intros Hle. apply (fle_not_nan x x Hle). Qed.

(** ** saturate and the inline clamp, for every lawful arithmetic *)

Lemma saturate_idempotent_lawful (x min max : F) :
  (min <=? max) = true ->
  saturate (saturate x min max) min max = saturate x min max.
Proof.
  intros Hb. unfold saturate.
  destruct (x >? max) eqn:E1.
  - rewrite flt_irrefl, (fle_not_flt min max Hb). reflexivity.
  - destruct (x <? min) eqn:E2.
    + rewrite (fle_not_flt min max Hb), flt_irrefl. reflexivity.
    + rewrite E1, E2. reflexivity.
Qed.

Lemma saturate_in_range_lawful (x min max : F) :
  (min <=? max) = true -> (x =? x) = true ->
  (min <=? saturate x min max) = true
  /\ (saturate x min max <=? max) = true.
Proof.
  intros Hb Hx. destruct (fle_not_nan min max Hb) as [Hmin Hmax].
  unfold saturate.
  destruct (x >? max) eqn:E1.
  - split; [exact Hb | apply fle_refl, Hmax].
  - destruct (x <? min) eqn:E2.
    + split; [apply fle_refl, Hmin | exact Hb].
    + split; apply not_flt_fle; assumption.
Qed.

Lemma saturate_monotone_lawful (x y min max : F) :
  (min <=? max) = true -> (x <=? y) = true ->
  (saturate x min max <=? saturate y min max) = true.
Proof.
  intros Hb Hxy. destruct (fle_not_nan min max Hb) as [Hmin Hmax].
  destruct (fle_not_nan x y Hxy) as [Hx Hy].
  destruct (saturate_in_range_lawful x min max Hb Hx) as [Hx1 Hx2].
  destruct (saturate_in_range_lawful y min max Hb Hy) as [Hy1 Hy2].
  unfold saturate in *.
  destruct (x >? max) eqn:Ex1.
  - rewrite (flt_fle_trans max x y Ex1 Hxy). apply fle_refl, Hmax.
  - destruct (x <? min) eqn:Ex2.
    + exact Hy1.
    + destruct (y >? max) eqn:Ey1; [exact Hx2|].
      destruct (y <? min) eqn:Ey2; [|exact Hxy].
      rewrite (fle_flt_trans x y min Hxy Ey2) in Ex2. discriminate.
Qed.

Lemma clamp_ref_saturate (x min max : F) :
  (min <=? max) = true -> clamp_ref x min max = saturate x min max.
Proof.
  intros Hb. unfold clamp_ref, saturate.
  destruct (x >? max); [|reflexivity].
  rewrite (fle_not_flt min max Hb). reflexivity.
Qed.


End OrderFacts.

(** ** Exact arithmetic: the comparisons reflect the order of [Q] *)

Lemma Qltb_lt (x y : Q) : Qltb x y = true <-> (x < y)%Q.
Proof.
  unfold Qltb. rewrite negb_true_iff, <- not_true_iff_false, Qle_bool_iff.
  split; [apply Qnot_le_lt | apply Qlt_not_le].
Qed.

Lemma Qltb_ge (x y : Q) : Qltb x y = false <-> (y <= x)%Q.
Proof.
  unfold Qltb. rewrite negb_false_iff. apply Qle_bool_iff.
Qed.

Lemma Qle_bool_gt (x y : Q) : Qle_bool x y = false <-> (y < x)%Q.
Proof.
  rewrite <- not_true_iff_false, Qle_bool_iff.
  split; [apply Qnot_le_lt | apply Qlt_not_le].
Qed.

(** Case analysis on every comparison of the goal, each case with the
    order fact it stands for. *)
Ltac exact_cases :=
  cbn [fadd fsub fmul fdiv fneg fltb fleb feqb flit exact] in *;
  repeat match goal with
    | |- context [Qltb ?a ?b] =>
        let E := fresh "E" in
        destruct (Qltb a b) eqn:E;
        [apply Qltb_lt in E | apply Qltb_ge in E]
    | |- context [Qle_bool ?a ?b] =>
        let E := fresh "E" in
        destruct (Qle_bool a b) eqn:E;
        [apply Qle_bool_iff in E | apply Qle_bool_gt in E]
    end.

(** ** saturate *)

Example saturate_values :
  (saturate 5 0 1 = 1 /\ saturate (-2) 0 1 = 0
   /\ saturate 0.5 0 1 = 0.5)%Q.
Proof. repeat split. Qed.

(** ** sign *)

(** [sign] is 1 above the tolerance, -1 below its opposite and 0 in the
    deadband between the two. *)
Lemma sign_exact (x tol : Q) :
  (0 <= tol)%Q ->
  ((tol < x -> sign x tol = 1)
   /\ (x < - tol -> sign x tol = -1)
   /\ (- tol <= x <= tol -> sign x tol = 0))%Q.
Proof.
  intros Htol. unfold sign. exact_cases;
    repeat split; intros; try reflexivity; lra.
Qed.

Example sign_values :
  (sign 0.002 sign_tol = 1 /\ sign (-0.002) sign_tol = -1
   /\ sign 0.001 sign_tol = 0 /\ sign (-0.0005) sign_tol = 0)%Q.
Proof. repeat split. Qed.

(** ** rate_limiter, in exact arithmetic *)

Lemma Ts_exact_pos : (0 < Ts)%Q.
Proof. reflexivity. Qed.

Lemma sign_tol_exact_pos : (0 < sign_tol)%Q.
Proof. reflexivity. Qed.

Lemma step_exact_pos (rate : Q) : (0 < rate)%Q -> (0 < Ts * rate)%Q.
Proof. intros Hr. apply Qmult_lt_0_compat; [apply Ts_exact_pos | exact Hr]. Qed.

(** One call: a full step up, a full step down, or nothing. *)
Lemma rate_limiter_exact (target v rate : Q) :
  ((sign_tol < target - v)%Q ->
     (rate_limiter target v rate == v + Ts * rate)%Q)
  /\ ((target - v < - sign_tol)%Q ->
     (rate_limiter target v rate == v - Ts * rate)%Q)
  /\ ((- sign_tol <= target - v <= sign_tol)%Q ->
     rate_limiter target v rate = v + Ts * rate * 0)%Q.
Proof.
  pose proof sign_tol_exact_pos as Htol.
  unfold rate_limiter, sign. exact_cases;
    set (st := (Ts * rate)%Q) in *;
    repeat split; intros; try reflexivity; lra.
Qed.

Example rate_limiter_values :
  (rate_limiter 0.5 0.2 50 == 0.205
   /\ rate_limiter 0.5 0.8 50 == 0.795
   /\ rate_limiter 0.5 0.5005 50 == 0.5005)%Q.
Proof. repeat split. Qed.

Lemma rate_limiter_step_bound (target v rate b c : Q) :
  (0 < Ts * rate <= b)%Q -> (sign_tol <= b)%Q -> (0 <= c)%Q ->
  (- (b + c + Ts * rate) <= target - v <= b + c + Ts * rate)%Q ->
  (- (b + c) <= target - rate_limiter target v rate <= b + c)%Q.
Proof.
  pose proof sign_tol_exact_pos as Htol.
  unfold rate_limiter, sign. exact_cases;
    set (st := (Ts * rate)%Q) in *; intros; lra.
Qed.

Lemma inject_Z_of_nat_succ (k : nat) :
  (inject_Z (Z.of_nat (S k)) == inject_Z (Z.of_nat k) + 1)%Q.
Proof.
  rewrite Nat2Z.inj_succ. unfold Z.succ. rewrite inject_Z_plus. reflexivity.
Qed.

Lemma inject_Z_of_nat_nonneg (k : nat) : (0 <= inject_Z (Z.of_nat k))%Q.
Proof.
  change 0%Q with (inject_Z 0). rewrite <- Zle_Qle. lia.
Qed.

(** After [n] calls the gap has shrunk by [n] steps, or is within [b]. *)
Lemma ramp_gap_bound (target rate b : Q) :
  (0 < Ts * rate <= b)%Q -> (sign_tol <= b)%Q ->
  forall (n : nat) (v0 : Q),
    (Qabs (target - v0) <= b + inject_Z (Z.of_nat n) * (Ts * rate))%Q ->
    (Qabs (target - ramp n target rate v0) <= b)%Q.
Proof.
  intros Hst Htol n. induction n as [|k IH]; intros v0 Hgap.
  - cbn [ramp]. change (inject_Z (Z.of_nat 0)) with 0%Q in Hgap. lra.
  - cbn [ramp]. apply IH.
    apply Qabs_Qle_condition in Hgap. apply Qabs_Qle_condition.
    rewrite inject_Z_of_nat_succ in Hgap.
    pose proof (inject_Z_of_nat_nonneg k) as Hk.
    assert (Hc : (0 <= inject_Z (Z.of_nat k) * (Ts * rate))%Q)
      by (apply Qmult_le_0_compat; lra).
    pose proof (rate_limiter_step_bound target v0 rate b
                  (inject_Z (Z.of_nat k) * (Ts * rate)) Hst Htol Hc) as Hs.
    set (st := (Ts * rate)%Q) in *.
    set (cc := (inject_Z (Z.of_nat k) * st)%Q) in *.
    assert (Heq : ((inject_Z (Z.of_nat k) + 1) * st == cc + st)%Q)
      by (unfold cc; ring).
    rewrite Heq in Hgap. apply Hs. lra.
Qed.

(** Coming from below, the value stays under [target + step]. *)
Lemma ramp_no_overshoot_above (target rate : Q) :
  (0 < rate)%Q ->
  forall (n : nat) (v0 : Q),
    (v0 < target + Ts * rate)%Q ->
    (ramp n target rate v0 < target + Ts * rate)%Q.
Proof.
  intros Hr n. pose proof (step_exact_pos rate Hr) as Hst.
  pose proof sign_tol_exact_pos as Htol.
  induction n as [|k IH]; intros v0 Hv; cbn [ramp]; [exact Hv|].
  apply IH. unfold rate_limiter, sign. exact_cases;
    set (st := (Ts * rate)%Q) in *; lra.
Qed.

(** Coming from above, the value stays over [target - step]. *)
Lemma ramp_no_overshoot_below (target rate : Q) :
  (0 < rate)%Q ->
  forall (n : nat) (v0 : Q),
    (target - Ts * rate < v0)%Q ->
    (target - Ts * rate < ramp n target rate v0)%Q.
Proof.
  intros Hr n. pose proof (step_exact_pos rate Hr) as Hst.
  pose proof sign_tol_exact_pos as Htol.
  induction n as [|k IH]; intros v0 Hv; cbn [ramp]; [exact Hv|].
  apply IH. unfold rate_limiter, sign. exact_cases;
    set (st := (Ts * rate)%Q) in *; lra.
Qed.

Lemma ramp_ticks_cover (target v0 rate : Q) (n : nat) :
  (0 < rate)%Q -> (ramp_ticks target v0 rate <= n)%nat ->
  (Qabs (target - v0) <= inject_Z (Z.of_nat n) * (Ts * rate))%Q.
Proof.
  intros Hr Hn. pose proof (step_exact_pos rate Hr) as Hst.
  unfold ramp_ticks in Hn.
  set (g := Qabs (target - v0)) in *. set (st := (Ts * rate)%Q) in *.
  assert (Hg : (0 <= g)%Q) by apply Qabs_nonneg.
  assert (Hq : (0 <= g / st)%Q).
  { apply Qle_shift_div_l; [exact Hst | lra]. }
  assert (Hc : (0 <= Qceiling (g / st))%Z).
  { change 0%Z with (Qceiling 0). apply Qceiling_resp_le. exact Hq. }
  assert (Hz : (Qceiling (g / st) <= Z.of_nat n)%Z) by lia.
  rewrite Zle_Qle in Hz.
  pose proof (Qle_ceiling (g / st)) as Hceil.
  assert (Hdiv : (g / st <= inject_Z (Z.of_nat n))%Q) by lra.
  apply (Qmult_le_r _ _ st Hst) in Hdiv.
  assert (Hne : ~ (st == 0)%Q) by lra.
  assert (Hgs : (g / st * st == g)%Q) by (field; exact Hne).
  lra.
Qed.

(** ** The delayed start of the legs, from a counter at zero *)

Section Energizing.
Context {F : Type} `{Float32 F}.
Local Open Scope f32_scope.

Lemma boost_stage_starts_boost_legs_only (io : tick_io F) (s : globals F) :
  ~ In ALL (start_calls (calls (boost_stage io) s)).
Proof.
  unfold boost_stage. run.
  match goal with |- context [when ?c _] => destruct c end; run;
    [|intros []].
  destruct (boost_pwm_enable s); run; cbn.
  - intros [].
  - intros [E | [E | []]]; discriminate E.
Qed.

(** A tick while waiting: the inverter legs are started exactly when the
    incremented counter exceeds 2000. *)
Lemma energizing_tick (io : tick_io F) (s : globals F) :
  awaiting_start s -> currents_within_limit io = true ->
  power_in_band (getw io) = true ->
  let s' := exec (loop_critical_task io) s in
  let started := inverter_starts (calls (loop_critical_task io) s) in
  ((0 <= power_counter s < 2000)%Z ->
     awaiting_start s' /\ power_counter s' = (power_counter s + 1)%Z
     /\ started = [])
  /\ ((2000 <= power_counter s < 2 ^ 32 - 1)%Z ->
     pwm_enable s' = true /\ started = [ALL]).
Proof.
  intros (Hm & Hon & Hl & Hp & Hs) Hio Hb. cbv zeta. unfold inverter_starts.
  pose proof (retrieve_within_limit io s Hs Hio) as Hover.
  destruct (power_tick io s Hm Hon Hover) as [[Hm4 Hon4] [-> ->]].
  destruct (power_mode_control_active io _ Hm4 Hon4) as [-> ->].
  rewrite !start_calls_app, !filter_app.
  set (s4 := exec (boost_stage io) (exec (retrieve_measurements io) s)) in *.
  set (sd := exec compute_leg_duties _).
  assert (Hld : local_mode sd = FOLLOWING) by (subst sd s4; unframe; exact Hl).
  assert (Hpd : pwm_enable sd = false) by (subst sd s4; unframe; exact Hp).
  assert (Hcd : power_counter sd = power_counter s)
    by (subst sd s4; unframe; reflexivity).
  assert (Hmd : mode sd = POWERMODE).
  { subst sd. unframe.
    rewrite (proj1 (lock_loss_monitor_in_band io s4 Hb)). exact Hm4. }
  assert (Hsd : over_current sd = false) by (subst sd s4; unframe; exact Hover).
  assert (Hond : inverter_on sd = true) by (subst sd s4; unframe; exact Hon).
  assert (Q1 : filter (fun l => match l with ALL => true | _ => false end)
                 (start_calls (calls (retrieve_measurements io) s)) = []).
  { rewrite start_calls_none; [reflexivity|].
    assert (Q : emits not_a_start (retrieve_measurements io)) by quiet.
    apply Q. }
  assert (Q2 : filter (fun l => match l with ALL => true | _ => false end)
                 (start_calls (calls (boost_stage io)
                                 (exec (retrieve_measurements io) s))) = []).
  { pose proof (boost_stage_starts_boost_legs_only io
                  (exec (retrieve_measurements io) s)) as Hno.
    induction (start_calls (calls (boost_stage io)
                 (exec (retrieve_measurements io) s))) as [|l t IHt];
      [reflexivity|].
    cbn [filter]. destruct l; try (apply IHt; intros Hin; apply Hno; right;
                                   exact Hin).
    exfalso. apply Hno. left. reflexivity. }
  assert (Q3 : forall m : M F unit, emits not_a_start m -> forall x,
             filter (fun l => match l with ALL => true | _ => false end)
               (start_calls (calls m x)) = []).
  { intros m Q x. rewrite start_calls_none; [reflexivity | apply Q]. }
  rewrite Q1, Q2.
  rewrite (Q3 (lock_loss_monitor io)) by quiet.
  rewrite (Q3 feed_control_law) by quiet.
  rewrite (Q3 update_duty_cycle_offset) by quiet.
  rewrite (Q3 compute_leg_duties) by quiet.
  rewrite (Q3 apply_leg_duties) by quiet.
  rewrite (Q3 (debug_and_scope io)) by quiet.
  cbn [app]. rewrite app_nil_r.
  clearbody sd. clear Q1 Q2 Q3.
  split; intros Hc; rewrite <- Hcd in Hc.
  - destruct (delayed_energizing_waits sd Hld Hpd Hc) as [[Hp' Hc'] ->].
    unfold awaiting_start. repeat split; unframe; try assumption.
    + rewrite Hc'. rewrite Hcd. reflexivity.
  - destruct (delayed_energizing_starts sd Hld Hpd Hc) as [[Hp' Hc'] ->].
    split; [unframe; assumption | reflexivity].
Qed.

End Energizing.

Section EnergizingRun.
Context {F : Type} `{Float32 F}.

Lemma first_energizing_run (ios : list (tick_io F)) :
  Forall (fun io => currents_within_limit io = true
                    /\ power_in_band (getw io) = true) ios ->
  forall s : globals F,
    awaiting_start s -> (0 <= power_counter s <= 2000)%Z ->
    let n := (power_counter s + Z.of_nat (length ios))%Z in
    let s' := exec (run_ticks ios) s in
    let started := inverter_starts (calls (run_ticks ios) s) in
    ((n <= 2000)%Z ->
       awaiting_start s' /\ power_counter s' = n /\ started = [])
    /\ (n = 2001%Z -> pwm_enable s' = true /\ started = [ALL]).
Proof.
  induction 1 as [|io ios [Hio Hb] _ IH]; intros s Hw Hc; cbv zeta.
  - cbn [length]. rewrite Z.add_0_r, run_ticks_nil_exec, run_ticks_nil_calls.
    split; [intros _ | lia]. auto.
  - rewrite run_ticks_cons_exec, run_ticks_cons_calls.
    unfold inverter_starts. rewrite start_calls_app, filter_app.
    fold (inverter_starts (calls (loop_critical_task io) s)).
    fold (inverter_starts
            (calls (run_ticks ios) (exec (loop_critical_task io) s))).
    cbn [length]. rewrite Nat2Z.inj_succ.
    destruct (energizing_tick io s Hw Hio Hb) as [Hwait Hstart].
    destruct (Z.eq_dec (power_counter s) 2000) as [E | NE].
    + destruct Hstart as [Hp' Hst];
        [rewrite E; split; [lia | reflexivity]|].
      split; [lia|]. intros Hn.
      assert (ios = [])
        by (destruct ios; [reflexivity | cbn [length] in Hn; lia]).
      subst ios. rewrite run_ticks_nil_exec, run_ticks_nil_calls, Hst.
      split; [exact Hp' | reflexivity].
    + destruct Hwait as (Hw' & Hc' & Hst); [lia|].
      specialize (IH _ Hw'). cbv zeta in IH. rewrite Hc' in IH.
      destruct IH as [IH1 IH2]; [lia|]. rewrite Hst. cbn [app].
      split; intros Hn.
      * destruct IH1 as (? & ? & ?); [lia|].
        split; [assumption | split; [lia | assumption]].
      * apply IH2. lia.
Qed.

End EnergizingRun.

(** ** What holds in every reachable state *)

Section Reachable.
Context {F : Type} `{Float32 F}.

(** The bounds of the references are those of [setup_routine], and the
    sub-mode is the one the firmware is built with. *)
Lemma reachable_configuration (s : globals F) :
  reachable s ->
  Idq_ref_max s = {| d := flit 8.0; q := flit 1.0 |}
  /\ Idq_ref_min s = {| d := flit (-0.1); q := flit (-0.1) |}
  /\ Vdq_ref_max s = {| d := flit 30.0; q := flit 30.0 |}
  /\ Vdq_ref_min s = {| d := flit (-0.1); q := flit (-0.1) |}
  /\ local_mode s = FOLLOWING.
Proof.
  induction 1 as [|io s _ IH|io s _ IH|c s _ IH|reason s _ IH].
  - unfold setup_routine. run. repeat split; reflexivity.
  - destruct IH as (H1 & H2 & H3 & H4 & H5).
    repeat split; unframe; assumption.
  - destruct IH as (H1 & H2 & H3 & H4 & H5).
    repeat split; unframe; assumption.
  - exact IH.
  - destruct IH as (H1 & H2 & H3 & H4 & H5).
    repeat split; unframe; assumption.
Qed.

Lemma lock_loss_monitor_mode_asked (io : tick_io F) (s : globals F) :
  mode_asked (exec (lock_loss_monitor io) s) = mode_asked s
  \/ mode_asked (exec (lock_loss_monitor io) s) = IDLEMODE.
Proof.
  unfold lock_loss_monitor. run.
  destruct (power_in_band (getw io)); run; [left; reflexivity|].
  destruct (wrap32 (desync_counter s + 1) >? 200)%Z; run; auto.
Qed.

Lemma loop_critical_task_mode_asked (io : tick_io F) (s : globals F) :
  mode_asked (exec (loop_critical_task io) s) = mode_asked s
  \/ mode_asked (exec (loop_critical_task io) s) = IDLEMODE.
Proof.
  rewrite loop_critical_task_exec. unframe.
  match goal with |- context [exec (power_mode_control io) ?x] =>
    assert (Hx : mode_asked x = mode_asked s) by (unframe; reflexivity);
    remember x as s6 eqn:E6; clear E6
  end.
  destruct ((mode s6 =? POWERMODE)%Z && inverter_on s6) eqn:G.
  - apply andb_true_iff in G. destruct G as [Gm Gon].
    apply Z.eqb_eq in Gm.
    destruct (power_mode_control_active io s6 Gm Gon) as [-> _]. unframe.
    rewrite <- Hx. apply lock_loss_monitor_mode_asked.
  - destruct (power_mode_control_skip io s6 G) as [-> _]. left. exact Hx.
Qed.

(** The requested mode is never anything but Idle or Power. *)
Lemma reachable_mode_asked (s : globals F) :
  reachable s -> mode_asked s = IDLEMODE \/ mode_asked s = POWERMODE.
Proof.
  induction 1 as [|io s _ IH|io s _ IH|c s _ IH|reason s _ IH].
  - left. unfold setup_routine. run. reflexivity.
  - destruct (loop_critical_task_mode_asked io s) as [-> | ->]; auto.
  - unframe. exact IH.
  - exact IH.
  - destruct reason; try exact IH.
    change (conf_command_cb THINGSET_CALLBACK_POST_WRITE)
      with (@app_apply_command F _).
    unfold app_apply_command. run. unframe. cbn.
    destruct (latch_mode_request_idle_or_power s) as [E | [E | E]];
      cbv zeta in E; rewrite E; auto.
Qed.

End Reachable.

Lemma reachable_bounds_ordered (s : globals Q) :
  reachable s ->
  (d (Idq_ref_min s) <= d (Idq_ref_max s))%Q
  /\ (d (Vdq_ref_min s) <= d (Vdq_ref_max s))%Q.
Proof.
  intros Hr. destruct (reachable_configuration s Hr) as (-> & -> & -> & -> & _).
  split; discriminate.
Qed.

(** ** The command gateway and the reference bounds *)

Lemma reachable_bounds_ordered_binary32 (s : globals spec_float) :
  reachable s ->
  fleb (d (Idq_ref_min s)) (d (Idq_ref_max s)) = true
  /\ fleb (d (Vdq_ref_min s)) (d (Vdq_ref_max s)) = true.
Proof.
  intros Hr. destruct (reachable_configuration s Hr) as (-> & -> & -> & -> & _).
  split; vm_compute; reflexivity.
Qed.

Section CommandLawful.
Context {F : Type} `{Float32Order F}.
Local Open Scope f32_scope.



(** C9 (amended).  For bounds in order, [min <= max], which excludes a
    NaN bound: saturating twice gives the value that saturating once
    gives, for every [x]; the two compare equal with [==] whenever [x] is
    not a NaN; and [x <= y] implies
    [saturate x min max <= saturate y min max]. *)
Theorem saturate_idempotent_and_monotone (x y min max : F) :
  (min <=? max) = true ->
  saturate (saturate x min max) min max = saturate x min max
  /\ ((x =? x) = true ->
      (saturate (saturate x min max) min max =? saturate x min max) = true)
  /\ ((x <=? y) = true ->
      (saturate x min max <=? saturate y min max) = true).
Proof.
  intros Hb. split; [apply saturate_idempotent_lawful, Hb | split].
  - intros Hx. rewrite (saturate_idempotent_lawful x min max Hb).
    destruct (saturate_in_range_lawful x min max Hb Hx) as [Hlo _].
    apply (fle_not_nan _ _ Hlo).
  - apply saturate_monotone_lawful, Hb.
Qed.

End CommandLawful.

(** ** rate_limiter *)

(** Were every operation exact, and for a positive rate, the iteration
    would be within [max (rate * period) tol] of the target after
    [ceil(|target - v0| / (rate * period))] ticks and ever after, and
    would never pass the target by a full step.  Binary32 rounds, and
    there this fails: see [rate_limiter_misses_the_target]. *)
Lemma ramp_settles_in_exact_arithmetic (target v0 rate : Q) :
  (0 < rate)%Q ->
  (forall v : Q,
     ((sign_tol < target - v)%Q ->
        (rate_limiter target v rate == v + Ts * rate)%Q)
     /\ ((target - v < - sign_tol)%Q ->
        (rate_limiter target v rate == v - Ts * rate)%Q)
     /\ ((- sign_tol <= target - v <= sign_tol)%Q ->
        (rate_limiter target v rate == v)%Q))
  /\ (forall n : nat,
        (ramp_ticks target v0 rate <= n)%nat ->
        (Qabs (target - ramp n target rate v0)
         <= Qmax (Ts * rate) sign_tol)%Q)
  /\ (forall n : nat,
        (v0 <= target)%Q -> (ramp n target rate v0 < target + Ts * rate)%Q)
  /\ (forall n : nat,
        (target <= v0)%Q -> (target - Ts * rate < ramp n target rate v0)%Q).
Proof.
  intros Hr. pose proof (step_exact_pos rate Hr) as Hst.
  split; [|split; [|split]].
  - intros v. destruct (rate_limiter_exact target v rate) as (Hup & Hdown & Hstay).
    split; [exact Hup | split; [exact Hdown |]].
    intros Hin. rewrite (Hstay Hin). ring.
  - intros n Hn.
    apply ramp_gap_bound.
    + split; [exact Hst | apply Q.le_max_l].
    + apply Q.le_max_r.
    + pose proof (ramp_ticks_cover target v0 rate n Hr Hn) as Hcover.
      pose proof (Q.le_max_l (Ts * rate) sign_tol) as Hmax. lra.
  - intros n Hv. apply ramp_no_overshoot_above; [exact Hr | lra].
  - intros n Hv. apply ramp_no_overshoot_below; [exact Hr | lra].
Qed.

Section RateLimiter.
Context {F : Type} `{Float32 F}.
Local Open Scope f32_scope.




End RateLimiter.



(** * The command gateway: flags, frame and repetition *)

Section ScopeFlags.
Context {F : Type} `{Float32 F}.
Local Open Scope f32_scope.

Lemma consume_scope_flags_effect (s : globals F) :
  let c := user_cmd s in
  let s' := exec consume_scope_flags s in
  scope_dump (user_cmd s') = false
  /\ scope_trigger (user_cmd s') = false
  /\ is_downloading s' = is_downloading s || scope_dump c
  /\ trigger s' = scope_trigger c || (trigger s && negb (scope_dump c)).
Proof.
  cbv zeta. unfold consume_scope_flags. run.
  destruct (scope_dump (user_cmd s)) eqn:Ed;
    destruct (scope_trigger (user_cmd s)) eqn:Et;
    repeat (run; rewrite ?Ed, ?Et);
    rewrite ?orb_true_r, ?orb_false_r, ?andb_true_r, ?andb_false_r;
    auto.
Qed.

Lemma app_apply_command_scope_flags (s : globals F) :
  let c := user_cmd s in
  let s' := exec app_apply_command s in
  scope_dump (user_cmd s') = false
  /\ scope_trigger (user_cmd s') = false
  /\ is_downloading s' = is_downloading s || scope_dump c
  /\ trigger s' = scope_trigger c || (trigger s && negb (scope_dump c)).
Proof.
  cbv zeta. unfold app_apply_command. run.
  set (v := cmd_inverter_on _). clearbody v.
  assert (P : forall (A : Type) (f : globals F -> A),
             preserves f (@latch_mode_request F) ->
             preserves f (@apply_reference F _) ->
             (forall x, f (set_inverter_on v x) = f x) ->
             f (exec apply_reference
                  (set_inverter_on v (exec latch_mode_request s))) = f s).
  { intros A f P1 P2 P3. rewrite (P2 _), P3. apply P1. }
  pose proof (consume_scope_flags_effect
                (exec apply_reference
                   (set_inverter_on v (exec latch_mode_request s)))) as Hc.
  cbv zeta in Hc.
  assert (Ed := P _ (fun x => scope_dump (user_cmd x))
                  ltac:(frame) ltac:(frame) ltac:(reflexivity)).
  assert (Et := P _ (fun x => scope_trigger (user_cmd x))
                  ltac:(frame) ltac:(frame) ltac:(reflexivity)).
  assert (Ei := P _ is_downloading
                  ltac:(frame) ltac:(frame) ltac:(reflexivity)).
  assert (Eg := P _ trigger ltac:(frame) ltac:(frame) ltac:(reflexivity)).
  cbv beta in Ed, Et. rewrite Ed, Et, Ei, Eg in Hc.
  exact Hc.
Qed.

(** X1.  The two scope flags of a command are consumed by the callback
    that reads them: both are false in [user_cmd] afterwards; a dump
    request raises [is_downloading] and drops the trigger, unless the
    same command also sets the trigger; a trigger request raises the
    trigger.  A second run of the callback on what the first one left
    changes neither [is_downloading] nor the trigger. *)
Theorem scope_flags_are_consumed_once (s : globals F) :
  let c := user_cmd s in
  let s' := exec app_apply_command s in
  let s'' := exec app_apply_command s' in
  (scope_dump (user_cmd s') = false /\ scope_trigger (user_cmd s') = false)
  /\ is_downloading s' = is_downloading s || scope_dump c
  /\ trigger s' = scope_trigger c || (trigger s && negb (scope_dump c))
  /\ is_downloading s'' = is_downloading s'
  /\ trigger s'' = trigger s'.
Proof.
  cbv zeta.
  destruct (app_apply_command_scope_flags s) as (Hd & Ht & Hi & Hg).
  destruct (app_apply_command_scope_flags (exec app_apply_command s))
    as (_ & _ & Hi' & Hg').
  cbv zeta in *. rewrite Hd in Hi', Hg'. rewrite Ht in Hg'.
  rewrite orb_false_r in Hi'. cbn [negb orb] in Hg'.
  rewrite andb_true_r in Hg'. auto 6.
Qed.

End ScopeFlags.

Section CommandFrame.
Context {F : Type} `{Float32 F}.
Local Open Scope f32_scope.

Lemma latch_mode_request_calls (s : globals F) :
  calls latch_mode_request s
  = if (mode_request (user_cmd s) =? POWERMODE)%Z && negb (is_downloading s)
    then [scope_start] else [].
Proof.
  unfold latch_mode_request. run. rewrite calls_if.
  destruct (mode_request (user_cmd s) =? IDLEMODE)%Z eqn:E0.
  - apply Z.eqb_eq in E0. rewrite E0. run. reflexivity.
  - rewrite calls_if.
    destruct (mode_request (user_cmd s) =? POWERMODE)%Z; run; [|reflexivity].
    destruct (is_downloading s); reflexivity.
Qed.

(** X2.  The command callback latches [inverter_on] from the command and
    leaves the mode, the two enable flags, the three counters and the
    reference bounds as they are; its only call to a collaborator is
    [scope.start()], made when Power is requested while no dump is
    pending.  No leg is started, stopped or given a duty by a command. *)
Theorem command_touches_no_mode_and_no_leg (s : globals F) :
  let s' := exec app_apply_command s in
  inverter_on s' = cmd_inverter_on (user_cmd s)
  /\ mode s' = mode s
  /\ (pwm_enable s' = pwm_enable s
      /\ boost_pwm_enable s' = boost_pwm_enable s)
  /\ (sync_counter s' = sync_counter s
      /\ desync_counter s' = desync_counter s
      /\ power_counter s' = power_counter s)
  /\ (Idq_ref_min s' = Idq_ref_min s /\ Idq_ref_max s' = Idq_ref_max s
      /\ Vdq_ref_min s' = Vdq_ref_min s /\ Vdq_ref_max s' = Vdq_ref_max s)
  /\ calls app_apply_command s
     = if (mode_request (user_cmd s) =? POWERMODE)%Z
          && negb (is_downloading s)
       then [scope_start] else [].
Proof.
  cbv zeta. conjs; try (unframe; reflexivity).
  - unfold app_apply_command. run. unframe. cbn. unframe. reflexivity.
  - unfold app_apply_command. run. rewrite latch_mode_request_calls.
    assert (Q : forall m : M F unit,
               emits (fun _ => False) m -> forall x, calls m x = []).
    { intros m Q x. specialize (Q x). destruct (calls m x); [reflexivity|].
      inversion Q as [|? ? []]. }
    rewrite (Q apply_reference), (Q consume_scope_flags).
    + rewrite app_nil_r. reflexivity.
    + quiet.
    + quiet.
Qed.

End CommandFrame.

Section Eta.
Context {F : Type}.

Lemma set_mode_asked_same (x : globals F) (v : Z) :
  mode_asked x = v -> set_mode_asked v x = x.
Proof. intros <-. destruct x; reflexivity. Qed.

Lemma set_inverter_on_same (x : globals F) (v : bool) :
  inverter_on x = v -> set_inverter_on v x = x.
Proof. intros <-. destruct x; reflexivity. Qed.

Lemma set_Idq_ref_d_same (x : globals F) (v : F) :
  d (Idq_ref x) = v -> set_Idq_ref_d v x = x.
Proof.
  intros <-. destruct x as [? ? ? ? ? ? ? ? ? ? ? ? ? ? ? r ? ? ? ? ? ? ? ? ? ? ? ? ? ? ? ? ? ? ? ? ? ? ?].
  destruct r; reflexivity.
Qed.

Lemma set_Vdq_ref_d_same (x : globals F) (v : F) :
  d (Vdq_ref x) = v -> set_Vdq_ref_d v x = x.
Proof.
  intros <-. destruct x as [? ? ? ? ? ? ? ? ? ? ? ? r ? ? ? ? ? ? ? ? ? ? ? ? ? ? ? ? ? ? ? ? ? ? ? ? ? ?].
  destruct r; reflexivity.
Qed.

Lemma set_cmd_id_ref_same (x : globals F) (v : F) :
  id_ref (user_cmd x) = v -> set_cmd_id_ref v x = x.
Proof.
  intros <-. destruct x as [? ? ? ? ? ? ? ? ? ? ? ? ? ? ? ? ? ? ? ? ? ? ? ? ? ? ? ? ? ? ? ? ? ? ? ? ? ? c].
  destruct c; reflexivity.
Qed.

Lemma set_cmd_vd_ref_same (x : globals F) (v : F) :
  vd_ref (user_cmd x) = v -> set_cmd_vd_ref v x = x.
Proof.
  intros <-. destruct x as [? ? ? ? ? ? ? ? ? ? ? ? ? ? ? ? ? ? ? ? ? ? ? ? ? ? ? ? ? ? ? ? ? ? ? ? ? ? c].
  destruct c; reflexivity.
Qed.

End Eta.

Section Settled.
Context {F : Type} `{Float32 F}.
Local Open Scope f32_scope.

(** The blocks of [app_apply_command] on a state in which their work is
    already done. *)

Lemma latch_mode_request_settled (x : globals F) :
  (mode_request (user_cmd x) = IDLEMODE -> mode_asked x = IDLEMODE) ->
  (mode_request (user_cmd x) = POWERMODE -> mode_asked x = POWERMODE) ->
  exec latch_mode_request x = x.
Proof.
  intros H0 H1. unfold latch_mode_request. run. rewrite exec_if.
  destruct (mode_request (user_cmd x) =? IDLEMODE)%Z eqn:E0.
  - apply Z.eqb_eq in E0. run. apply set_mode_asked_same, H0, E0.
  - rewrite exec_if.
    destruct (mode_request (user_cmd x) =? POWERMODE)%Z eqn:E1; run;
      [|reflexivity].
    apply Z.eqb_eq in E1.
    replace (exec (when (negb (is_downloading x)) (call scope_start)) x)
      with x by (destruct (is_downloading x); reflexivity).
    apply set_mode_asked_same, H1, E1.
Qed.

Lemma latch_mode_request_mode_asked (s : globals F) :
  let s' := exec latch_mode_request s in
  (mode_request (user_cmd s) = IDLEMODE -> mode_asked s' = IDLEMODE)
  /\ (mode_request (user_cmd s) = POWERMODE -> mode_asked s' = POWERMODE).
Proof.
  cbv zeta. unfold latch_mode_request. run. rewrite exec_if.
  split; intros E; rewrite E; run; reflexivity.
Qed.

Lemma consume_scope_flags_settled (x : globals F) :
  scope_dump (user_cmd x) = false -> scope_trigger (user_cmd x) = false ->
  exec consume_scope_flags x = x.
Proof.
  intros Hd Ht. unfold consume_scope_flags. run. rewrite Hd. run.
  rewrite Ht. run. reflexivity.
Qed.

Lemma apply_reference_settled (x : globals F) :
  (local_mode x = FOLLOWING ->
     clamp_ref (id_ref (user_cmd x)) (d (Idq_ref_min x)) (d (Idq_ref_max x))
     = id_ref (user_cmd x)
     /\ d (Idq_ref x) = id_ref (user_cmd x)) ->
  (local_mode x = FORMING ->
     clamp_ref (vd_ref (user_cmd x)) (d (Vdq_ref_min x)) (d (Vdq_ref_max x))
     = vd_ref (user_cmd x)
     /\ d (Vdq_ref x) = vd_ref (user_cmd x)) ->
  exec apply_reference x = x.
Proof.
  intros Hfollow Hform. destruct (local_mode x) eqn:Hl.
  - rewrite (apply_reference_forming x Hl). cbv zeta.
    destruct (Hform eq_refl) as [-> Hd].
    rewrite (set_Vdq_ref_d_same x _ Hd). apply set_cmd_vd_ref_same. reflexivity.
  - rewrite (apply_reference_following x Hl). cbv zeta.
    destruct (Hfollow eq_refl) as [-> Hd].
    rewrite (set_Idq_ref_d_same x _ Hd). apply set_cmd_id_ref_same. reflexivity.
Qed.

End Settled.

Section CommandEffect.
Context {F : Type} `{Float32 F}.
Local Open Scope f32_scope.

(** What is left of the command after the callback. *)
Lemma app_apply_command_mailbox (s : globals F) :
  let s' := exec app_apply_command s in
  mode_request (user_cmd s') = mode_request (user_cmd s)
  /\ cmd_inverter_on (user_cmd s') = cmd_inverter_on (user_cmd s)
  /\ inverter_on s' = cmd_inverter_on (user_cmd s)
  /\ (mode_request (user_cmd s) = IDLEMODE -> mode_asked s' = IDLEMODE)
  /\ (mode_request (user_cmd s) = POWERMODE -> mode_asked s' = POWERMODE).
Proof.
  cbv zeta.
  assert (Pm : preserves (fun x : globals F => mode_request (user_cmd x))
                 app_apply_command) by frame.
  assert (Po : preserves (fun x : globals F => cmd_inverter_on (user_cmd x))
                 app_apply_command) by frame.
  split; [apply Pm|]. split; [apply Po|].
  unfold app_apply_command. run. unframe. cbn. unframe.
  split; [reflexivity|].
  apply latch_mode_request_mode_asked.
Qed.

End CommandEffect.

Section Idempotent.
Context {F : Type} `{Float32Order F}.
Local Open Scope f32_scope.

Lemma clamp_ref_idempotent (x min max : F) :
  (min <=? max) = true ->
  clamp_ref (clamp_ref x min max) min max = clamp_ref x min max.
Proof.
  intros Hb. rewrite !(clamp_ref_saturate _ _ _ Hb).
  apply saturate_idempotent_lawful, Hb.
Qed.

(** X3.  With the bounds of both references in order, running the
    command callback a second time on the state the first run left
    changes nothing: the mode request is latched, the reference is
    already clamped and written back, and the scope flags are consumed.
    This holds for a NaN reference too, which is stored as it came. *)
Theorem command_is_idempotent (s : globals F) :
  (d (Idq_ref_min s) <=? d (Idq_ref_max s)) = true ->
  (d (Vdq_ref_min s) <=? d (Vdq_ref_max s)) = true ->
  exec app_apply_command (exec app_apply_command s)
  = exec app_apply_command s.
Proof.
  intros Hi Hv.
  destruct (app_apply_command_mailbox s) as (Hmr & Hco & Hon & Ha0 & Ha1).
  destruct (app_apply_command_scope_flags s) as (Hsd & Hst & _).
  destruct (apply_command_reference s) as [Hfollow Hform].
  assert (Hl : local_mode (exec app_apply_command s) = local_mode s)
    by (unframe; reflexivity).
  assert (Himin : Idq_ref_min (exec app_apply_command s) = Idq_ref_min s)
    by (unframe; reflexivity).
  assert (Himax : Idq_ref_max (exec app_apply_command s) = Idq_ref_max s)
    by (unframe; reflexivity).
  assert (Hvmin : Vdq_ref_min (exec app_apply_command s) = Vdq_ref_min s)
    by (unframe; reflexivity).
  assert (Hvmax : Vdq_ref_max (exec app_apply_command s) = Vdq_ref_max s)
    by (unframe; reflexivity).
  cbv zeta in *.
  remember (exec app_apply_command s) as s' eqn:E'. clear E'.
  unfold app_apply_command. run.
  rewrite (latch_mode_request_settled s');
    [| intros E; apply Ha0; rewrite <- Hmr; exact E
     | intros E; apply Ha1; rewrite <- Hmr; exact E].
  rewrite (set_inverter_on_same s') by (rewrite Hco; exact Hon).
  rewrite (apply_reference_settled s').
  - apply consume_scope_flags_settled; assumption.
  - intros Hlm. rewrite Hl in Hlm. destruct (Hfollow Hlm) as (Hd & Hback & _).
    rewrite Himin, Himax, Hback. split; [|reflexivity].
    rewrite Hd. apply clamp_ref_idempotent, Hi.
  - intros Hlm. rewrite Hl in Hlm. destruct (Hform Hlm) as (Hd & Hback & _).
    rewrite Hvmin, Hvmax, Hback. split; [|reflexivity].
    rewrite Hd. apply clamp_ref_idempotent, Hv.
Qed.

End Idempotent.

(** * The mode state machine: its edges *)

Section StateMachineMore.
Context {F : Type} `{Float32 F}.
Local Open Scope f32_scope.

Lemma loop_application_task_mode (io : app_io) (s : globals F) :
  mode (exec (loop_application_task io) s)
  = if (mode_asked s =? IDLEMODE)%Z then IDLEMODE
    else mode (exec mode_transitions s).
Proof.
  unfold loop_application_task. run. unframe.
  destruct (mode_asked s =? IDLEMODE)%Z; run; reflexivity.
Qed.

Lemma mode_transitions_mode (s : globals F) :
  mode (exec mode_transitions s)
  = if (mode s =? IDLEMODE)%Z then
      if (mode_asked s =? POWERMODE)%Z then POWERMODE else mode s
    else if (mode s =? STARTUPMODE)%Z then
      if (inverter_mode_eqb (local_mode s) FORMING
          && (delta_duty_cycle s >? flit 0.49))
         || (inverter_mode_eqb (local_mode s) FOLLOWING
             && is_net_synchronized s)
         || negb (inverter_on s)
      then POWERMODE else mode s
    else if (mode s =? POWERMODE)%Z then
      if inverter_on s
         && (if inverter_mode_eqb (local_mode s) FORMING
             then Vdc_bus_filt s >=? UDC_STARTUP
             else (Vgrid_meas s >=? flit 10)
                  && (Vdc_bus_filt s >=? UDC_STARTUP))
      then STARTUPMODE
      else if (mode_asked s =? IDLEMODE)%Z then IDLEMODE else mode s
    else mode s.
Proof.
  unfold mode_transitions. run. rewrite !exec_if.
  destruct (mode s =? IDLEMODE)%Z eqn:E0.
  { run. destruct (mode_asked s =? POWERMODE)%Z; run; reflexivity. }
  destruct (mode s =? STARTUPMODE)%Z eqn:E4.
  { run. destruct (inverter_on s); run; rewrite ?exec_if;
    destruct (local_mode s); cbn;
    destruct (is_net_synchronized s);
    try destruct (fltb (flit 0.49) (delta_duty_cycle s)); run; reflexivity. }
  destruct (mode s =? POWERMODE)%Z eqn:E1; [|reflexivity].
  run.
  destruct (mode_asked s =? IDLEMODE)%Z; run;
    destruct (inverter_on s); run; try reflexivity;
    rewrite ?exec_if; destruct (local_mode s); cbn;
    repeat match goal with
      | |- context [fleb ?a ?b] => destruct (fleb a b); run; cbn
      end;
    destruct (is_net_synchronized s); run; reflexivity.
Qed.

End StateMachineMore.

Section StateMachineEdges.
Context {F : Type} `{Float32 F}.
Local Open Scope f32_scope.

(** X4.  The edges of the mode state machine, over one run of the
    background task.  Error is never entered; Startup is reached only
    from Startup or Power, with the inverter enabled and Idle not
    requested; Power is reached only from Idle with Power requested, from
    Startup or from Power; from Idle the next mode is Power exactly when
    Power is requested; and the mode after the run is the mode before it
    or one of Idle, Power and Startup. *)
Theorem state_machine_edges (io : app_io) (s : globals F) :
  let s' := exec (loop_application_task io) s in
  (mode s' = ERRORMODE ->
     mode s = ERRORMODE /\ mode_asked s <> IDLEMODE)
  /\ (mode s' = STARTUPMODE ->
      (mode s = STARTUPMODE \/ mode s = POWERMODE)
      /\ inverter_on s = true /\ mode_asked s <> IDLEMODE)
  /\ (mode s' = POWERMODE ->
      (mode s = IDLEMODE /\ mode_asked s = POWERMODE)
      \/ mode s = STARTUPMODE \/ mode s = POWERMODE)
  /\ (mode s = IDLEMODE ->
      mode s' = (if (mode_asked s =? POWERMODE)%Z then POWERMODE
                 else IDLEMODE))
  /\ (mode s' = mode s \/ mode s' = IDLEMODE \/ mode s' = POWERMODE
      \/ mode s' = STARTUPMODE).
Proof.
  cbv zeta. rewrite loop_application_task_mode, mode_transitions_mode.
  destruct (mode_asked s =? IDLEMODE)%Z eqn:Ea;
    destruct (mode_asked s =? POWERMODE)%Z eqn:Ep;
    destruct (mode s =? IDLEMODE)%Z eqn:E0;
    destruct (mode s =? STARTUPMODE)%Z eqn:E4;
    destruct (mode s =? POWERMODE)%Z eqn:E1;
    destruct (inverter_on s); destruct (local_mode s);
    destruct (is_net_synchronized s);
    cbn [negb andb orb inverter_mode_eqb];
    rewrite ?orb_true_r, ?orb_false_r, ?andb_true_r, ?andb_false_r;
    repeat match goal with
      | |- context [if ?c then _ else _] => destruct c
      end;
    modes;
    repeat match goal with
      | E : (_ =? _)%Z = true |- _ => apply Z.eqb_eq in E
      | E : (_ =? _)%Z = false |- _ => apply Z.eqb_neq in E
      end;
    conjs; intros; try lia; auto; try (split; [lia | split; [reflexivity | lia]]).
Qed.

End StateMachineEdges.

(** * The background task: what it writes and prints *)


Section Ownership.
Context {F : Type} `{Float32 F}.
Local Open Scope f32_scope.
Local Open Scope task_scope.

Lemma writes_collapse (s : globals F) (m1 m2 : Z) (b1 b2 : bool) :
  set_is_downloading b2 (set_mode m2 (set_is_downloading b1 (set_mode m1 s)))
  = set_is_downloading b2 (set_mode m2 s).
Proof. destruct s; reflexivity. Qed.

Lemma writes_nothing (s : globals F) :
  s = set_is_downloading (is_downloading s) (set_mode (mode s) s).
Proof. destruct s; reflexivity. Qed.

Lemma writes_bind {A B} (m : M F A) (k : A -> M F B) :
  writes_mode_and_download_only m ->
  (forall a, writes_mode_and_download_only (k a)) ->
  writes_mode_and_download_only (bind m k).
Proof.
  intros Hm Hk s. rewrite exec_bind.
  destruct (Hm s) as (m1 & b1 & ->).
  destruct (Hk (fst (fst (m s))) (set_is_downloading b1 (set_mode m1 s)))
    as (m2 & b2 & ->).
  exists m2, b2. apply writes_collapse.
Qed.

Lemma writes_ret {A} (a : A) : writes_mode_and_download_only (ret (F:=F) a).
Proof. intros s. eexists _, _. apply writes_nothing. Qed.

Lemma writes_gets {A} (g : globals F -> A) :
  writes_mode_and_download_only (gets g).
Proof. intros s. eexists _, _. apply writes_nothing. Qed.

Lemma writes_call (c : hw_call F) : writes_mode_and_download_only (call c).
Proof. intros s. eexists _, _. apply writes_nothing. Qed.

Lemma writes_when (b : bool) (m : M F unit) :
  writes_mode_and_download_only m -> writes_mode_and_download_only (when b m).
Proof. intros Hm. destruct b; [exact Hm | apply writes_ret]. Qed.

Lemma writes_set_mode (v : Z) :
  writes_mode_and_download_only (modify (set_mode (F:=F) v)).
Proof.
  intros s. exists v, (is_downloading s). destruct s; reflexivity.
Qed.

Lemma writes_set_is_downloading (v : bool) :
  writes_mode_and_download_only (modify (set_is_downloading (F:=F) v)).
Proof.
  intros s. exists (mode s), v. destruct s; reflexivity.
Qed.

Lemma writes_dump_loop (n : nat) :
  writes_mode_and_download_only (dump_loop (F:=F) n).
Proof.
  induction n as [|k IH]; cbn [dump_loop].
  - apply writes_ret.
  - repeat (apply writes_bind; [apply writes_call | intros _]). exact IH.
Qed.

Lemma background_writes (io : app_io) :
  writes_mode_and_download_only (loop_application_task (F:=F) io).
Proof.
  unfold_tasks.
  repeat first
    [ apply writes_bind; [|intro]
    | apply writes_ret
    | apply writes_gets
    | apply writes_call
    | apply writes_when
    | apply writes_dump_loop
    | apply writes_set_mode
    | apply writes_set_is_downloading
    | match goal with
      | |- writes_mode_and_download_only (if ?b then _ else _) => destruct b
      end ].
Qed.

Lemma dump_loop_calls (n : nat) (s : globals F) :
  calls (dump_loop n) s
  = concat (repeat [scope_dump_datas; printk "%s"; task_suspend 100] n).
Proof.
  revert s. induction n as [|k IH]; intros s; cbn [dump_loop repeat concat].
  - reflexivity.
  - run. rewrite IH. reflexivity.
Qed.

Lemma dump_scope_datas_calls (io : app_io) (s : globals F) :
  calls (dump_scope_datas io) s = dump_trace (dump_chunks io).
Proof.
  unfold dump_scope_datas, dump_trace. run. rewrite dump_loop_calls.
  reflexivity.
Qed.

Lemma dump_scope_datas_exec (io : app_io) (s : globals F) :
  exec (dump_scope_datas io) s = s.
Proof.
  unfold dump_scope_datas. run.
  assert (P : forall n x, exec (dump_loop (F:=F) n) x = x).
  { induction n as [|k IH]; intros x; cbn [dump_loop]; [reflexivity|].
    run. apply IH. }
  apply P.
Qed.

Lemma mode_transitions_calls_are_led (s : globals F) :
  Forall (fun c => c = led_turnOn \/ c = led_toggle)
    (calls mode_transitions s).
Proof.
  assert (Q : emits (F:=F) (fun c => c = led_turnOn \/ c = led_toggle)
                mode_transitions).
  { unfold mode_transitions.
    repeat first
      [ apply emits_bind; [|intro]
      | apply emits_ret
      | apply emits_gets
      | apply emits_modify
      | apply emits_when
      | apply emits_call; auto
      | match goal with
        | |- emits _ (if ?b then _ else _) => destruct b
        end ]. }
  apply Q.
Qed.

Lemma loop_application_task_split (io : app_io) (s : globals F) :
  let s1 := exec (when (mode_asked s =? IDLEMODE)%Z (set_mode ::= IDLEMODE))
              (exec mode_transitions s) in
  let dumps := (mode s1 =? IDLEMODE)%Z && is_downloading s in
  exec (loop_application_task io) s
  = (if dumps then set_is_downloading false s1 else s1)
  /\ calls (loop_application_task io) s
     = calls mode_transitions s
       ++ (if dumps then dump_trace (dump_chunks io) else [])
       ++ [task_suspend 100000].
Proof.
  cbv zeta.
  assert (Ea : mode_asked (exec mode_transitions s) = mode_asked s)
    by (unframe; reflexivity).
  assert (Ed : is_downloading
                 (exec (when (mode_asked s =? IDLEMODE)%Z
                          (set_mode ::= IDLEMODE))
                    (exec mode_transitions s)) = is_downloading s).
  { destruct (mode_asked s =? IDLEMODE)%Z; run; unframe; reflexivity. }
  unfold loop_application_task. run. rewrite Ea.
  assert (Ew : calls (when (mode_asked s =? IDLEMODE)%Z
                        (set_mode (F:=F) ::= IDLEMODE))
                 (exec mode_transitions s) = [])
    by (destruct (mode_asked s =? IDLEMODE)%Z; run; reflexivity).
  rewrite Ew. clear Ew.
  set (s1 := exec (when (mode_asked s =? IDLEMODE)%Z (set_mode ::= IDLEMODE))
               (exec mode_transitions s)) in *.
  clearbody s1.
  destruct (mode s1 =? IDLEMODE)%Z; cbn [andb]; run.
  - rewrite Ed. destruct (is_downloading s); run.
    + rewrite dump_scope_datas_exec, dump_scope_datas_calls.
      split; [reflexivity|]. unfold dump_trace.
      rewrite <- !app_assoc. reflexivity.
    + split; reflexivity.
  - split; reflexivity.
Qed.

(** X5.  One run of the background task assigns to [mode] and to
    [is_downloading] and to no other global of the control logic (the
    telemetry mailbox it also fills is outside the embedding).  A pending
    dump is printed
    only when the run ends in Idle mode, and [is_downloading] is lowered
    then; in any other mode it stays pending.  The calls of the run are
    those of the state machine, which only drives the LED, then the dump
    ([reset_dump], the opening line, one chunk line and a 100 us pause
    per chunk, the closing line) when there is one, then the 100 ms
    pause. *)
Theorem background_task_dumps_in_idle_only (io : app_io) (s : globals F) :
  let s' := exec (loop_application_task io) s in
  let dumps := (mode s' =? IDLEMODE)%Z && is_downloading s in
  s' = set_is_downloading (is_downloading s && negb (mode s' =? IDLEMODE)%Z)
         (set_mode (mode s') s)
  /\ calls (loop_application_task io) s
     = calls mode_transitions s
       ++ (if dumps then dump_trace (dump_chunks io) else [])
       ++ [task_suspend 100000]
  /\ Forall (fun c => c = led_turnOn \/ c = led_toggle)
       (calls mode_transitions s).
Proof.
  cbv zeta.
  destruct (loop_application_task_split io s) as [E C]. cbv zeta in E, C.
  assert (Ed : is_downloading
                 (exec (when (mode_asked s =? IDLEMODE)%Z
                          (set_mode ::= IDLEMODE))
                    (exec mode_transitions s)) = is_downloading s).
  { destruct (mode_asked s =? IDLEMODE)%Z; run; unframe; reflexivity. }
  set (s1 := exec (when (mode_asked s =? IDLEMODE)%Z (set_mode ::= IDLEMODE))
               (exec mode_transitions s)) in *.
  assert (Em : mode (exec (loop_application_task io) s) = mode s1).
  { rewrite E. destruct (_ && _); reflexivity. }
  assert (El : is_downloading (exec (loop_application_task io) s)
               = is_downloading s && negb (mode s1 =? IDLEMODE)%Z).
  { rewrite E. destruct (mode s1 =? IDLEMODE)%Z, (is_downloading s) eqn:Es;
      cbn [andb negb]; try rewrite Es; try exact Ed; reflexivity. }
  split; [|split; [|apply mode_transitions_calls_are_led]].
  - destruct (background_writes io s) as (md & b & W).
    rewrite Em. rewrite <- El, <- Em. rewrite W. reflexivity.
  - rewrite Em. exact C.
Qed.

End Ownership.

(** * The critical task at standstill *)

Section Blocks.
Context {F : Type} `{Float32 F}.
Local Open Scope f32_scope.

Lemma calls_nil_of_emits {A} (m : M F A) :
  emits (fun _ => False) m -> forall s, calls m s = [].
Proof.
  intros Q s. specialize (Q s). destruct (calls m s); [reflexivity|].
  inversion Q as [|? ? []].
Qed.

Lemma retrieve_measurements_calls (io : tick_io F) (s : globals F) :
  calls (retrieve_measurements io) s = [].
Proof. apply calls_nil_of_emits. quiet. Qed.

Lemma overcurrent_protection_calls (s : globals F) :
  calls overcurrent_protection s = [].
Proof. apply calls_nil_of_emits. quiet. Qed.

Lemma debug_and_scope_calls (io : tick_io F) (s : globals F) :
  calls (debug_and_scope io) s = [scope_acquire].
Proof.
  unfold debug_and_scope, decimation. run. rewrite Z.mod_1_r. run. reflexivity.
Qed.

Lemma debug_and_scope_spying_mode (io : tick_io F) (s : globals F) :
  spying_mode (exec (debug_and_scope io) s) = flit (inject_Z (mode s)).
Proof.
  unfold debug_and_scope, decimation. run. rewrite Z.mod_1_r. run. reflexivity.
Qed.

Lemma stop_pwm_calls (s : globals F) :
  (mode s =? IDLEMODE)%Z || (mode s =? ERRORMODE)%Z = true ->
  calls stop_pwm_when_idle_or_error s
  = (if pwm_enable s then [power_stop ALL; led_turnOff] else [])
    ++ (if boost_pwm_enable s
        then [power_stop LEG1_LOW; power_stop LEG2_LOW] else []).
Proof.
  intros Hc. unfold stop_pwm_when_idle_or_error. modes. run. rewrite Hc.
  destruct (pwm_enable s) eqn:Hp; destruct (boost_pwm_enable s) eqn:Hb;
    repeat (run; rewrite ?Hp, ?Hb); reflexivity.
Qed.

Lemma boost_stage_active (io : tick_io F) (s : globals F) :
  (mode s =? STARTUPMODE)%Z || (mode s =? POWERMODE)%Z = true ->
  let duty := boost_pid io boost_voltage_reference (Vdc_bus_filt s) in
  let s' := exec (boost_stage io) s in
  boost_duty_cycle s' = duty
  /\ boost_pwm_enable s' = true
  /\ calls (boost_stage io) s
     = [power_setDeadTime LEG1_LOW boost_pos_dt boost_neg_dt;
        power_setDeadTime LEG2_LOW boost_pos_dt boost_neg_dt;
        power_setDutyCycle LEG1_LOW duty;
        power_setDutyCycle LEG2_LOW duty]
       ++ (if boost_pwm_enable s then []
           else [power_start LEG1_LOW; power_start LEG2_LOW]).
Proof.
  intros Hc. cbv zeta. unfold boost_stage. modes. run. rewrite Hc.
  destruct (boost_pwm_enable s) eqn:Hb; repeat (run; rewrite ?Hb); auto.
Qed.

Lemma stop_inverter_effect (s : globals F) :
  inverter_on s = false ->
  pwm_enable (exec stop_inverter_when_disabled s) = false
  /\ calls stop_inverter_when_disabled s
     = if pwm_enable s then [power_stop LEG1_HIGH; power_stop LEG2_HIGH]
       else [].
Proof.
  intros Hon. unfold stop_inverter_when_disabled. run. rewrite Hon.
  destruct (pwm_enable s) eqn:Hp; repeat (run; rewrite ?Hp); auto.
Qed.

End Blocks.

Section Standstill.
Context {F : Type} `{Float32 F}.
Local Open Scope f32_scope.

(** A tick that finds the mode at Idle or Error, or that trips the
    protection: everything is stopped and nothing else is driven. *)
Lemma standstill_tick_effect (io : tick_io F) (s : globals F) :
  let s1 := exec (retrieve_measurements io) s in
  (mode s = IDLEMODE \/ mode s = ERRORMODE \/ over_current s1 = true) ->
  let s' := exec (loop_critical_task io) s in
  mode s' = (if over_current s1 then ERRORMODE else mode s)
  /\ pwm_enable s' = false /\ boost_pwm_enable s' = false
  /\ mode_asked s' = mode_asked s
  /\ calls (loop_critical_task io) s
     = (if pwm_enable s then [power_stop ALL; led_turnOff] else [])
       ++ (if boost_pwm_enable s
           then [power_stop LEG1_LOW; power_stop LEG2_LOW] else [])
       ++ [scope_acquire].
Proof.
  cbv zeta. intros Hm.
  rewrite loop_critical_task_calls, loop_critical_task_exec. cbv zeta.
  rewrite retrieve_measurements_calls, overcurrent_protection_calls,
    debug_and_scope_calls.
  assert (Hm1 : mode (exec (retrieve_measurements io) s) = mode s)
    by (unframe; reflexivity).
  assert (Hp1 : pwm_enable (exec (retrieve_measurements io) s) = pwm_enable s)
    by (unframe; reflexivity).
  assert (Hb1 : boost_pwm_enable (exec (retrieve_measurements io) s)
                = boost_pwm_enable s) by (unframe; reflexivity).
  assert (Ha1 : mode_asked (exec (retrieve_measurements io) s) = mode_asked s)
    by (unframe; reflexivity).
  remember (exec (retrieve_measurements io) s) as s1 eqn:E1. clear E1.
  assert (Hm2 : mode (exec overcurrent_protection s1)
                = if over_current s1 then ERRORMODE else mode s)
    by (rewrite overcurrent_protection_mode, Hm1; reflexivity).
  assert (Hp2 : pwm_enable (exec overcurrent_protection s1) = pwm_enable s)
    by (unframe; exact Hp1).
  assert (Hb2 : boost_pwm_enable (exec overcurrent_protection s1)
                = boost_pwm_enable s) by (unframe; exact Hb1).
  assert (Ha2 : mode_asked (exec overcurrent_protection s1) = mode_asked s)
    by (unframe; exact Ha1).
  remember (exec overcurrent_protection s1) as s2 eqn:E2. clear E2.
  assert (Hc2 : (mode s2 =? IDLEMODE)%Z || (mode s2 =? ERRORMODE)%Z = true).
  { rewrite Hm2. destruct (over_current s1); [reflexivity|].
    destruct Hm as [-> | [-> | Hf]]; [reflexivity | reflexivity | discriminate]. }
  destruct (stop_pwm_effect s2 Hc2) as (Hp3 & Hb3 & _).
  rewrite (stop_pwm_calls s2 Hc2), Hp2, Hb2.
  assert (Hm3 : mode (exec stop_pwm_when_idle_or_error s2) = mode s2)
    by (unframe; reflexivity).
  assert (Ha3 : mode_asked (exec stop_pwm_when_idle_or_error s2) = mode_asked s)
    by (unframe; exact Ha2).
  remember (exec stop_pwm_when_idle_or_error s2) as s3 eqn:E3. clear E3.
  assert (Hn3 : (mode s3 =? STARTUPMODE)%Z = false
                /\ (mode s3 =? POWERMODE)%Z = false).
  { rewrite Hm3. apply orb_true_iff in Hc2. modes.
    destruct Hc2 as [E | E]; apply Z.eqb_eq in E; rewrite E; split; reflexivity. }
  destruct Hn3 as [Hn4 Hn1].
  destruct (boost_stage_skip io s3) as [-> ->]; [rewrite Hn4, Hn1; reflexivity|].
  destruct (stop_inverter_skip s3 (or_intror Hp3)) as [-> ->].
  destruct (startup_ramp_skip io s3) as [-> ->]; [rewrite Hn4; reflexivity|].
  destruct (power_mode_control_skip io s3) as [-> ->];
    [rewrite Hn1; reflexivity|].
  cbn [app].
  split; [unframe; rewrite Hm3; exact Hm2|].
  split; [unframe; exact Hp3|].
  split; [unframe; exact Hb3|].
  split; [unframe; exact Ha3|].
  rewrite app_assoc. reflexivity.
Qed.

End Standstill.

(** * The enable flags and the legs *)


Section Legs.
Context {F : Type} `{Float32 F}.
Local Open Scope f32_scope.

Lemma legs_after_app (t1 t2 : list (hw_call F)) (g : legs) :
  legs_after (t1 ++ t2) g = legs_after t2 (legs_after t1 g).
Proof. apply fold_left_app. Qed.

Lemma tracks_bind {A B} (P Q R : globals F -> Prop)
    (m : M F A) (k : A -> M F B) :
  tracks P Q m -> (forall a, tracks Q R (k a)) -> tracks P R (bind m k).
Proof.
  intros Hm Hk s Hs. destruct (Hm s Hs) as [E1 Hq].
  destruct (Hk (fst (fst (m s))) _ Hq) as [E2 Hr].
  rewrite calls_bind, exec_bind, legs_after_app, E1. auto.
Qed.

Lemma tracks_weaken {A} (P P' Q Q' : globals F -> Prop) (m : M F A) :
  (forall s, P' s -> P s) -> (forall s, Q s -> Q' s) ->
  tracks P Q m -> tracks P' Q' m.
Proof.
  intros HP HQ Hm s Hs. destruct (Hm s (HP s Hs)) as [E Hq]. auto.
Qed.

(** A block that calls neither [start] nor [stop] and leaves the two flags
    and the mode alone. *)
Lemma tracks_quiet {A} (P : globals F -> Prop) (m : M F A) :
  emits (fun c => not_a_start c /\ not_a_stop c) m ->
  preserves pwm_enable m -> preserves boost_pwm_enable m ->
  (forall s, P s -> P (exec m s)) ->
  tracks P P m.
Proof.
  intros Q Pp Pb HP s Hs. split; [|apply HP, Hs].
  unfold legs_of_flags. rewrite (Pp s), (Pb s).
  specialize (Q s). unfold legs_after.
  induction Q as [|c t [Hc1 Hc2] _ IH]; [reflexivity|].
  cbn [fold_left]. destruct c; try exact IH; contradiction.
Qed.

Lemma stop_pwm_tracks :
  tracks (fun _ : globals F => True) (fun _ => True)
    stop_pwm_when_idle_or_error.
Proof.
  intros s _. split; [|exact I].
  destruct ((mode s =? IDLEMODE)%Z || (mode s =? ERRORMODE)%Z) eqn:Hc.
  - destruct (stop_pwm_effect s Hc) as (Hp & Hb & _).
    rewrite (stop_pwm_calls s Hc). unfold legs_of_flags. rewrite Hp, Hb.
    destruct (pwm_enable s); destruct (boost_pwm_enable s); reflexivity.
  - destruct (stop_pwm_skip s (or_introl Hc)) as [-> ->]. reflexivity.
Qed.

Lemma boost_stage_tracks (io : tick_io F) :
  tracks (fun _ : globals F => True) boost_runs_when_active (boost_stage io).
Proof.
  intros s _.
  destruct ((mode s =? STARTUPMODE)%Z || (mode s =? POWERMODE)%Z) eqn:Hc.
  - destruct (boost_stage_active io s Hc) as (_ & Hb & ->).
    assert (Hp : pwm_enable (exec (boost_stage io) s) = pwm_enable s)
      by (unframe; reflexivity).
    split; [|intros _; exact Hb].
    unfold legs_of_flags. rewrite Hp, Hb.
    destruct (boost_pwm_enable s); reflexivity.
  - destruct (boost_stage_skip io s Hc) as [-> ->].
    split; [reflexivity|]. intros Hc'. rewrite Hc in Hc'. discriminate.
Qed.

Lemma stop_inverter_tracks :
  tracks (F:=F) boost_runs_when_active boost_runs_when_active
    stop_inverter_when_disabled.
Proof.
  intros s Hs.
  assert (Hm : mode (exec stop_inverter_when_disabled s) = mode s)
    by (unframe; reflexivity).
  assert (Hb : boost_pwm_enable (exec stop_inverter_when_disabled s)
               = boost_pwm_enable s) by (unframe; reflexivity).
  split; [|unfold boost_runs_when_active; rewrite Hm, Hb; exact Hs].
  destruct (inverter_on s) eqn:Hon.
  - destruct (stop_inverter_skip s (or_introl Hon)) as [-> ->]. reflexivity.
  - destruct (stop_inverter_effect s Hon) as [Hp ->].
    unfold legs_of_flags. rewrite Hp, Hb.
    destruct (pwm_enable s); reflexivity.
Qed.

Lemma startup_ramp_forming (io : tick_io F) (s : globals F) :
  mode s = STARTUPMODE -> inverter_on s = true -> local_mode s = FORMING ->
  let r := rate_limiter (flit 0.5) (delta_duty_cycle s) (flit 50.0) in
  let delta := if r >? flit 0.5 then flit 0.5 else r in
  let s' := exec (startup_ramp io) s in
  delta_duty_cycle s' = delta
  /\ pwm_enable s' = true
  /\ calls (startup_ramp io) s
     = [power_setDutyCycle LEG2_HIGH (flit 1 - delta);
        power_setDutyCycle LEG1_HIGH delta]
       ++ (if pwm_enable s then [] else [power_start ALL]).
Proof.
  intros Hm Hon Hl. cbv zeta. unfold startup_ramp. run. rewrite Hm, Hon. run.
  rewrite Hl. run.
  destruct (fltb (flit 0.5)
              (rate_limiter (flit 0.5) (delta_duty_cycle s) (flit 50.0)));
    run; destruct (pwm_enable s) eqn:Hp; repeat (run; rewrite ?Hp); auto.
Qed.

Lemma startup_ramp_following (io : tick_io F) (s : globals F) :
  local_mode s = FOLLOWING ->
  pwm_enable (exec (startup_ramp io) s) = pwm_enable s
  /\ delta_duty_cycle (exec (startup_ramp io) s) = delta_duty_cycle s
  /\ calls (startup_ramp io) s = [].
Proof.
  intros Hl. unfold startup_ramp. run.
  destruct ((mode s =? STARTUPMODE)%Z && inverter_on s); run; [|auto].
  rewrite Hl. run. rewrite exec_if, calls_if.
  destruct (sync_in_band (getw io)); run; [|auto].
  destruct (wrap32 (sync_counter s + 1) >? 2000)%Z; run; auto.
Qed.

Lemma startup_ramp_tracks (io : tick_io F) :
  tracks (F:=F) boost_runs_when_active boost_runs_when_active
    (startup_ramp io).
Proof.
  intros s Hs.
  assert (Hm : mode (exec (startup_ramp io) s) = mode s)
    by (unframe; reflexivity).
  assert (Hb : boost_pwm_enable (exec (startup_ramp io) s)
               = boost_pwm_enable s) by (unframe; reflexivity).
  split; [|unfold boost_runs_when_active; rewrite Hm, Hb; exact Hs].
  destruct ((mode s =? STARTUPMODE)%Z && inverter_on s) eqn:Hc.
  - apply andb_true_iff in Hc. destruct Hc as [Em Hon].
    assert (Hbt : boost_pwm_enable s = true) by (apply Hs; rewrite Em; reflexivity).
    apply Z.eqb_eq in Em.
    destruct (local_mode s) eqn:Hl.
    + destruct (startup_ramp_forming io s Em Hon Hl) as (_ & Hp & ->).
      unfold legs_of_flags. rewrite Hp, Hb, Hbt.
      destruct (pwm_enable s); reflexivity.
    + destruct (startup_ramp_following io s Hl) as (Hp & _ & ->).
      unfold legs_of_flags. rewrite Hp, Hb. reflexivity.
  - destruct (startup_ramp_skip io s Hc) as [-> ->]. reflexivity.
Qed.

Lemma delayed_energizing_effect (s : globals F) :
  let go := inverter_mode_eqb (local_mode s) FOLLOWING
            && negb (pwm_enable s)
            && (wrap32 (power_counter s + 1) >? 2000)%Z in
  let s' := exec delayed_energizing s in
  pwm_enable s' = pwm_enable s || go
  /\ calls delayed_energizing s = if go then [power_start ALL] else [].
Proof.
  cbv zeta. unfold delayed_energizing. run.
  destruct (inverter_mode_eqb (local_mode s) FOLLOWING);
    destruct (pwm_enable s) eqn:Hp; cbn [andb negb]; run; auto.
  destruct (wrap32 (power_counter s + 1) >? 2000)%Z; run; rewrite ?Hp; auto.
Qed.

Lemma delayed_energizing_tracks :
  tracks (fun s : globals F => boost_pwm_enable s = true) (fun _ => True)
    delayed_energizing.
Proof.
  intros s Hb. split; [|exact I].
  destruct (delayed_energizing_effect s) as [Hp ->].
  assert (Hb' : boost_pwm_enable (exec delayed_energizing s)
                = boost_pwm_enable s) by (unframe; reflexivity).
  unfold legs_of_flags. rewrite Hp, Hb', Hb.
  destruct (inverter_mode_eqb (local_mode s) FOLLOWING);
    destruct (pwm_enable s); cbn [andb negb orb]; try reflexivity.
  destruct (wrap32 (power_counter s + 1) >? 2000)%Z; reflexivity.
Qed.

Ltac tracks_quietly :=
  apply tracks_quiet;
  [ quiet; apply emits_call; split; exact I | frame | frame | intros ? E; unframe; exact E ].

Lemma power_mode_control_tracks (io : tick_io F) :
  tracks (F:=F) boost_runs_when_active (fun _ => True)
    (power_mode_control io).
Proof.
  intros s Hs. split; [|exact I].
  destruct ((mode s =? POWERMODE)%Z && inverter_on s) eqn:Hc.
  - apply andb_true_iff in Hc. destruct Hc as [Em Hon].
    assert (Hbt : boost_pwm_enable s = true)
      by (apply Hs; rewrite Em; apply orb_true_r).
    apply Z.eqb_eq in Em.
    destruct (power_mode_control_active io s Em Hon) as [-> ->].
    set (P := fun x : globals F => boost_pwm_enable x = true).
    assert (T1 : tracks P P (lock_loss_monitor io)) by tracks_quietly.
    assert (T2 : tracks P P (feed_control_law (F:=F))) by tracks_quietly.
    assert (T3 : tracks P P (update_duty_cycle_offset (F:=F))) by tracks_quietly.
    assert (T4 : tracks P P (compute_leg_duties (F:=F))) by tracks_quietly.
    assert (T6 : tracks (fun _ : globals F => True) (fun _ => True)
                   (apply_leg_duties (F:=F))).
    { apply tracks_quiet; [quiet; apply emits_call; split; exact I | frame | frame | auto]. }
    destruct (T1 s Hbt) as [E1 H1].
    destruct (T2 _ H1) as [E2 H2].
    destruct (T3 _ H2) as [E3 H3].
    destruct (T4 _ H3) as [E4 H4].
    destruct (delayed_energizing_tracks _ H4) as [E5 _].
    pose proof (fun x => proj1 (T6 x I)) as E6.
    rewrite !legs_after_app, E1, E2, E3, E4, E5, E6. reflexivity.
  - destruct (power_mode_control_skip io s Hc) as [-> ->]. reflexivity.
Qed.

Lemma tick_keeps_flags_in_step_with_legs (io : tick_io F) (s : globals F) :
  legs_after (calls (loop_critical_task io) s) (legs_of_flags s)
  = legs_of_flags (exec (loop_critical_task io) s).
Proof.
  assert (T : tracks (fun _ : globals F => True) (fun _ => True)
                (loop_critical_task io)).
  { unfold loop_critical_task.
    apply tracks_bind with (Q := fun _ => True).
    { apply tracks_quiet; [quiet; apply emits_call; split; exact I | frame | frame | auto]. }
    intros _. apply tracks_bind with (Q := fun _ => True).
    { apply tracks_quiet; [quiet; apply emits_call; split; exact I | frame | frame | auto]. }
    intros _. apply tracks_bind with (Q := fun _ => True).
    { apply stop_pwm_tracks. }
    intros _. apply tracks_bind with (Q := boost_runs_when_active).
    { apply boost_stage_tracks. }
    intros _. apply tracks_bind with (Q := boost_runs_when_active).
    { apply stop_inverter_tracks. }
    intros _. apply tracks_bind with (Q := boost_runs_when_active).
    { apply startup_ramp_tracks. }
    intros _. apply tracks_bind with (Q := fun _ => True).
    { apply power_mode_control_tracks. }
    intros _.
    apply tracks_quiet; [quiet; apply emits_call; split; exact I | frame | frame | auto]. }
  apply (T s I).
Qed.

End Legs.

Section Schedules.
Context {F : Type} `{Float32 F}.
Local Open Scope f32_scope.

Lemma run_events_cons_exec (e : event) (es : list event) (s : globals F) :
  exec (run_events (e :: es)) s = exec (run_events es) (exec (run_event e) s).
Proof.
  change (run_events (e :: es))
    with (bind (run_event e) (fun _ => run_events es)).
  rewrite exec_bind. reflexivity.
Qed.

Lemma run_events_cons_calls (e : event) (es : list event) (s : globals F) :
  calls (run_events (e :: es)) s
  = calls (run_event e) s ++ calls (run_events es) (exec (run_event e) s).
Proof.
  change (run_events (e :: es))
    with (bind (run_event e) (fun _ => run_events es)).
  rewrite calls_bind. reflexivity.
Qed.

Lemma run_events_nil_exec (s : globals F) : exec (run_events []) s = s.
Proof. reflexivity. Qed.

Lemma run_events_nil_calls (s : globals F) : calls (run_events []) s = [].
Proof. reflexivity. Qed.

Lemma background_tracks (io : app_io) :
  tracks (fun _ : globals F => True) (fun _ => True)
    (loop_application_task io).
Proof.
  apply tracks_quiet; [| frame | frame | auto].
  unfold_tasks.
  repeat first
    [ apply emits_bind; [|intro]
    | apply emits_ret
    | apply emits_gets
    | apply emits_modify
    | apply emits_when
    | apply emits_call; split; exact I
    | match goal with
      | |- emits _ (if ?b then _ else _) => destruct b
      end ].
  all: try (induction (dump_chunks io) as [|k IH]; cbn [dump_loop];
            [apply emits_ret |
             repeat (apply emits_bind; [apply emits_call; split; exact I | intros _]);
             exact IH]).
Qed.

Lemma command_tracks (c : command_t F) :
  tracks (fun _ : globals F => True) (fun _ => True) (protocol_write c).
Proof.
  unfold protocol_write.
  apply tracks_quiet; [quiet; apply emits_call; split; exact I | frame | frame | auto].
Qed.

Lemma event_tracks (e : event) (s : globals F) :
  legs_after (calls (run_event e) s) (legs_of_flags s)
  = legs_of_flags (exec (run_event e) s).
Proof.
  destruct e as [io | io | c]; cbn [run_event].
  - apply tick_keeps_flags_in_step_with_legs.
  - apply (background_tracks io s I).
  - apply (command_tracks c s I).
Qed.


(** X7.  [pwm_enable] and [boost_pwm_enable] tell which legs are
    switching.  Reading [power.start] and [power.stop] as acting on the
    leg they name, and on the four legs for [ALL]: after any sequence of
    critical-task ticks, background runs and command writes from any
    state, the legs that the calls of the sequence leave switching,
    starting from the legs the flags describe, are the legs the flags
    describe at the end; and from power-up, with no leg switching, the
    same holds after [setup_routine] and any such sequence. *)
Theorem flags_stay_in_step_with_legs (es : list event) :
  (forall s : globals F,
     legs_after (calls (run_events es) s) (legs_of_flags s)
     = legs_of_flags (exec (run_events es) s))
  /\ (let boot := bind setup_routine (fun _ => run_events es) in
      legs_after (calls boot static_init) legs_off
      = legs_of_flags (exec boot static_init)).
Proof.
  assert (Hrun : forall s : globals F,
            legs_after (calls (run_events es) s) (legs_of_flags s)
            = legs_of_flags (exec (run_events es) s)).
  { induction es as [|e es IH]; intros s.
    - reflexivity.
    - rewrite run_events_cons_calls, run_events_cons_exec, legs_after_app.
      rewrite event_tracks. apply IH. }
  split; [exact Hrun|].
  cbv zeta. rewrite calls_bind, exec_bind, legs_after_app.
  assert (T : tracks (fun _ : globals F => True) (fun _ => True)
                (setup_routine (F:=F))).
  { apply tracks_quiet;
      [quiet; apply emits_call; split; exact I | frame | frame | auto]. }
  destruct (T static_init I) as [E _].
  change legs_off with (legs_of_flags (static_init (F:=F))).
  rewrite E. apply Hrun.
Qed.

(** X6.  A tick that finds the mode at Idle or Error, or that trips the
    over-current protection, stops whatever was switching and drives
    nothing: the inverter legs and then the boost legs are stopped if
    their flag was set, the flags are both false afterwards, no duty is
    written, and the only other call is [scope.acquire()].  The mode is
    kept, or is Error after a trip; the requested mode is kept. *)
Theorem standstill_tick_stops_everything (io : tick_io F) (s : globals F) :
  let s1 := exec (retrieve_measurements io) s in
  (mode s = IDLEMODE \/ mode s = ERRORMODE \/ over_current s1 = true) ->
  let s' := exec (loop_critical_task io) s in
  mode s' = (if over_current s1 then ERRORMODE else mode s)
  /\ mode_asked s' = mode_asked s
  /\ legs_of_flags s' = legs_off
  /\ calls (loop_critical_task io) s
     = (if pwm_enable s then [power_stop ALL; led_turnOff] else [])
       ++ (if boost_pwm_enable s
           then [power_stop LEG1_LOW; power_stop LEG2_LOW] else [])
       ++ [scope_acquire].
Proof.
  cbv zeta. intros Hm.
  destruct (standstill_tick_effect io s Hm) as (E & Hp & Hb & Ha & Hc).
  cbv zeta in *. unfold legs_of_flags, legs_off. rewrite Hp, Hb. auto.
Qed.

Lemma lock_loss_monitor_mode (io : tick_io F) (s : globals F) :
  let s' := exec (lock_loss_monitor io) s in
  (mode s' = mode s /\ mode_asked s' = mode_asked s)
  \/ (mode s' = IDLEMODE /\ mode_asked s' = IDLEMODE
      /\ desync_counter s' = 0%Z /\ power_in_band (getw io) = false).
Proof.
  cbv zeta. unfold lock_loss_monitor. run.
  destruct (power_in_band (getw io)); run; [left; split; reflexivity|].
  destruct (wrap32 (desync_counter s + 1) >? 200)%Z; run; auto 6.
Qed.

Lemma loop_critical_task_mode (io : tick_io F) (s : globals F) :
  let s1 := exec (retrieve_measurements io) s in
  let s' := exec (loop_critical_task io) s in
  (over_current s1 = false /\ mode s' = mode s
   /\ mode_asked s' = mode_asked s)
  \/ (over_current s1 = true /\ mode s' = ERRORMODE
      /\ mode_asked s' = mode_asked s)
  \/ (over_current s1 = false /\ mode s = POWERMODE /\ inverter_on s = true
      /\ power_in_band (getw io) = false
      /\ mode s' = IDLEMODE /\ mode_asked s' = IDLEMODE
      /\ desync_counter s' = 0%Z).
Proof.
  cbv zeta.
  destruct (over_current (exec (retrieve_measurements io) s)) eqn:Hover.
  { right. left. split; [reflexivity|].
    destruct (standstill_tick_effect io s) as (Hm & _ & _ & Ha & _).
    - right. right. exact Hover.
    - cbv zeta in Hm, Ha. rewrite Hover in Hm. split; assumption. }
  rewrite loop_critical_task_exec.
  assert (Hm1 : mode (exec (retrieve_measurements io) s) = mode s)
    by (unframe; reflexivity).
  assert (Hon1 : inverter_on (exec (retrieve_measurements io) s)
                 = inverter_on s) by (unframe; reflexivity).
  assert (Ha1 : mode_asked (exec (retrieve_measurements io) s)
                = mode_asked s) by (unframe; reflexivity).
  remember (exec (retrieve_measurements io) s) as s1 eqn:E1. clear E1.
  destruct (overcurrent_protection_skip s1 Hover) as [-> _].
  match goal with |- context [exec (power_mode_control io) ?x] =>
    assert (Hm6 : mode x = mode s) by (unframe; exact Hm1);
    assert (Hon6 : inverter_on x = inverter_on s) by (unframe; exact Hon1);
    assert (Ha6 : mode_asked x = mode_asked s) by (unframe; exact Ha1);
    remember x as s6 eqn:E6; clear E6
  end.
  destruct ((mode s6 =? POWERMODE)%Z && inverter_on s6) eqn:G.
  - apply andb_true_iff in G. destruct G as [Gm Gon]. apply Z.eqb_eq in Gm.
    destruct (power_mode_control_active io s6 Gm Gon) as [-> _].
    destruct (lock_loss_monitor_mode io s6) as [[E Ea] | (E & Ea & Ec & Eb)];
      cbv zeta in *.
    + left. split; [reflexivity|]. split; unframe.
      * rewrite E. exact Hm6.
      * rewrite Ea. exact Ha6.
    + right. right. rewrite <- Hm6, <- Hon6.
      repeat split; try assumption; unframe; assumption.
  - destruct (power_mode_control_skip io s6 G) as [-> _].
    left. split; [reflexivity|]. split; unframe; assumption.
Qed.

(** X8.  A tick of the critical task changes the mode in two cases only:
    to Error when a calibrated primary current is out of range, and to
    Idle, with Idle latched as the requested mode and the loss counter
    cleared, when the lock-loss monitor trips in Power mode with the
    inverter enabled.  In every other tick the mode and the requested mode
    are kept.  The tick never writes the command, the references, their
    bounds, [inverter_on], [local_mode], [is_downloading] or the
    trigger. *)
Theorem critical_task_changes_the_mode_only_to_trip
    (io : tick_io F) (s : globals F) :
  let s1 := exec (retrieve_measurements io) s in
  let s' := exec (loop_critical_task io) s in
  ((over_current s1 = false /\ mode s' = mode s
    /\ mode_asked s' = mode_asked s)
   \/ (over_current s1 = true /\ mode s' = ERRORMODE
       /\ mode_asked s' = mode_asked s)
   \/ (over_current s1 = false /\ mode s = POWERMODE /\ inverter_on s = true
       /\ power_in_band (getw io) = false
       /\ mode s' = IDLEMODE /\ mode_asked s' = IDLEMODE
       /\ desync_counter s' = 0%Z))
  /\ user_cmd s' = user_cmd s
  /\ Idq_ref s' = Idq_ref s /\ Vdq_ref s' = Vdq_ref s
  /\ Idq_ref_min s' = Idq_ref_min s /\ Idq_ref_max s' = Idq_ref_max s
  /\ Vdq_ref_min s' = Vdq_ref_min s /\ Vdq_ref_max s' = Vdq_ref_max s
  /\ inverter_on s' = inverter_on s /\ local_mode s' = local_mode s
  /\ is_downloading s' = is_downloading s /\ trigger s' = trigger s.
Proof.
  cbv zeta. split; [apply loop_critical_task_mode|].
  repeat match goal with |- _ /\ _ => split end; unframe; reflexivity.
Qed.

End Schedules.

(** * Modes and flags in every reachable state *)

Section Invariants.
Context {F : Type} `{Float32 F}.
Local Open Scope f32_scope.


Lemma tick_boost_running (io : tick_io F) (s : globals F) :
  mode s = STARTUPMODE \/ mode s = POWERMODE ->
  over_current (exec (retrieve_measurements io) s) = false ->
  boost_pwm_enable (exec (loop_critical_task io) s) = true.
Proof.
  intros Hm Hover. rewrite loop_critical_task_exec. unframe.
  assert (Hm1 : mode (exec (retrieve_measurements io) s) = mode s)
    by (unframe; reflexivity).
  remember (exec (retrieve_measurements io) s) as s1 eqn:E1. clear E1.
  destruct (overcurrent_protection_skip s1 Hover) as [-> _].
  destruct (stop_pwm_skip s1) as [-> _].
  { left. rewrite Hm1. destruct Hm as [-> | ->]; reflexivity. }
  apply boost_stage_active.
  rewrite Hm1. destruct Hm as [-> | ->]; reflexivity.
Qed.

Lemma application_task_valid_mode (io : app_io) (s : globals F) :
  valid_mode (mode s) -> valid_mode (mode (exec (loop_application_task io) s)).
Proof.
  intros Hv. rewrite loop_application_task_mode, mode_transitions_mode.
  unfold valid_mode in *.
  repeat match goal with
    | |- context [if ?c then _ else _] => destruct c
    end; auto.
Qed.

(** X9.  In every state reached from power-up by ticks, background
    runs, command writes and callbacks: the mode is one of Idle, Power,
    Error and Startup; the requested mode is Idle or Power; and the
    inverter legs are never flagged as switching while the boost legs are
    not. *)
Theorem reachable_modes_and_flags (s : globals F) :
  reachable s ->
  valid_mode (mode s)
  /\ (mode_asked s = IDLEMODE \/ mode_asked s = POWERMODE)
  /\ (pwm_enable s = true -> boost_pwm_enable s = true).
Proof.
  intros Hr. split; [|split; [apply reachable_mode_asked, Hr|]].
  - induction Hr as [|io s _ IH|io s _ IH|c s _ IH|reason s _ IH].
    + left. unfold setup_routine. run. reflexivity.
    + destruct (loop_critical_task_mode io s)
        as [(_ & E & _) | [(_ & E & _) | (_ & _ & _ & _ & E & _)]];
        cbv zeta in E; rewrite E; unfold valid_mode; auto.
    + apply application_task_valid_mode, IH.
    + exact IH.
    + unframe. exact IH.
  - assert (Hboth : valid_mode (mode s)
                    /\ (pwm_enable s = true -> boost_pwm_enable s = true));
      [|apply Hboth].
    induction Hr as [|io s _ IH|io s _ IH|c s _ IH|reason s _ IH].
    + split; [left|]; unfold setup_routine; run; [reflexivity | discriminate].
    + destruct IH as [Hv Hf]. split.
      * destruct (loop_critical_task_mode io s)
          as [(_ & E & _) | [(_ & E & _) | (_ & _ & _ & _ & E & _)]];
          cbv zeta in E; rewrite E; unfold valid_mode; auto.
      * destruct (over_current (exec (retrieve_measurements io) s)) eqn:Hover.
        { destruct (standstill_tick_effect io s) as (_ & Hp & _);
            [auto|]. cbv zeta in Hp. rewrite Hp. discriminate. }
        destruct Hv as [E | [E | [E | E]]].
        -- destruct (standstill_tick_effect io s) as (_ & Hp & _);
             [auto|]. cbv zeta in Hp. rewrite Hp. discriminate.
        -- intros _. apply tick_boost_running; auto.
        -- destruct (standstill_tick_effect io s) as (_ & Hp & _);
             [auto|]. cbv zeta in Hp. rewrite Hp. discriminate.
        -- intros _. apply tick_boost_running; auto.
    + destruct IH as [Hv Hf]. split.
      * apply application_task_valid_mode, Hv.
      * unframe. exact Hf.
    + exact IH.
    + destruct IH as [Hv Hf]. split; unframe; assumption.
Qed.

End Invariants.

(** * Sampling: what is held between fresh samples *)

Section SamplingMore.
Context {F : Type} `{Float32 F}.
Local Open Scope f32_scope.

Lemma retrieve_Vlow_value (io : tick_io F) (s : globals F) :
  Vlow_value (exec (retrieve_measurements io) s)
  = if getLatestValue io VLow !=? NO_VALUE
    then getLatestValue io VLow else Vlow_value s.
Proof.
  unfold retrieve_measurements. run. unframe. rewrite exec_retrieve.
  destruct (getLatestValue io VLow =? NO_VALUE); cbn; unframe; reflexivity.
Qed.

Lemma retrieve_Vac_value (io : tick_io F) (s : globals F) :
  Vac_value (exec (retrieve_measurements io) s)
  = if getLatestValue io VAC !=? NO_VALUE
    then getLatestValue io VAC else Vac_value s.
Proof.
  unfold retrieve_measurements. run. unframe. rewrite exec_retrieve.
  destruct (getLatestValue io VAC =? NO_VALUE); cbn; unframe; reflexivity.
Qed.

Lemma retrieve_Vdc_bus (io : tick_io F) (s : globals F) :
  Vdc_bus (exec (retrieve_measurements io) s)
  = if getLatestValue io VDCBus !=? NO_VALUE
    then getLatestValue io VDCBus else Vdc_bus s.
Proof.
  unfold retrieve_measurements. run. unframe. rewrite exec_retrieve.
  destruct (getLatestValue io VDCBus =? NO_VALUE); cbn; unframe; reflexivity.
Qed.

Lemma retrieve_Iac_value (io : tick_io F) (s : globals F) :
  Iac_value (exec (retrieve_measurements io) s)
  = if getLatestValue io IAC !=? NO_VALUE
    then getLatestValue io IAC else Iac_value s.
Proof.
  unfold retrieve_measurements. run. rewrite exec_retrieve.
  destruct (getLatestValue io IAC =? NO_VALUE); cbn; unframe; reflexivity.
Qed.

Lemma retrieve_derived (io : tick_io F) (s : globals F) :
  let s1 := exec (retrieve_measurements io) s in
  Vdc_bus_filt s1 = vHighFilter io (Vdc_bus s1)
  /\ Vgrid_meas s1 = Vlow_value s1 - Vac_value s1
  /\ VN_meas s1 = (Vlow_value s1 + Vac_value s1) / flit 2
  /\ Igrid_meas s1 = Ilow1_value s1.
Proof.
  cbv zeta. unfold retrieve_measurements. run. auto.
Qed.

Lemma tick_keeps_samples {A} (f : globals F -> A) (io : tick_io F)
    (s : globals F) :
  preserves f (overcurrent_protection (F:=F)) ->
  preserves f (stop_pwm_when_idle_or_error (F:=F)) ->
  preserves f (boost_stage io) ->
  preserves f (stop_inverter_when_disabled (F:=F)) ->
  preserves f (startup_ramp io) ->
  preserves f (power_mode_control io) ->
  preserves f (debug_and_scope io) ->
  f (exec (loop_critical_task io) s) = f (exec (retrieve_measurements io) s).
Proof.
  intros P2 P3 P4 P5 P6 P7 P8. rewrite loop_critical_task_exec.
  rewrite (P8 _), (P7 _), (P6 _), (P5 _), (P4 _), (P3 _), (P2 _).
  reflexivity.
Qed.

(** X10.  Each of the six channels is read once per tick, and a channel
    that answers [NO_VALUE] keeps the value of the tick before: the two
    primary currents (less their offsets when fresh), the two low-side
    voltages, the bus voltage and the AC current.  The derived values are
    recomputed every tick from what is held: the filtered bus voltage,
    the grid voltage [Vlow - Vac], the neutral voltage [(Vlow + Vac) / 2]
    and the grid current.  So a primary current that was out of range
    trips the protection again on a tick that brings no fresh current
    sample. *)
Theorem samples_are_held_when_missing (io : tick_io F) (s : globals F) :
  let fresh := fun ch => getLatestValue io ch !=? NO_VALUE in
  let s' := exec (loop_critical_task io) s in
  (Ilow1_value s' = (if fresh ILow1
                     then getLatestValue io ILow1 - I1_current_offset
                     else Ilow1_value s)
   /\ Ilow2_value s' = (if fresh ILow2
                        then getLatestValue io ILow2 - I2_current_offset
                        else Ilow2_value s))
  /\ (Vlow_value s' = (if fresh VLow then getLatestValue io VLow
                       else Vlow_value s)
      /\ Vac_value s' = (if fresh VAC then getLatestValue io VAC
                         else Vac_value s)
      /\ Vdc_bus s' = (if fresh VDCBus then getLatestValue io VDCBus
                       else Vdc_bus s)
      /\ Iac_value s' = (if fresh IAC then getLatestValue io IAC
                         else Iac_value s))
  /\ (Vdc_bus_filt s' = vHighFilter io (Vdc_bus s')
      /\ Vgrid_meas s' = Vlow_value s' - Vac_value s'
      /\ VN_meas s' = (Vlow_value s' + Vac_value s') / flit 2
      /\ Igrid_meas s' = Ilow1_value s')
  /\ (fresh ILow1 = false -> fresh ILow2 = false -> over_current s = true ->
      mode s' = ERRORMODE).
Proof.
  cbv zeta.
  assert (Hstale : (getLatestValue io ILow1 !=? NO_VALUE) = false ->
                   (getLatestValue io ILow2 !=? NO_VALUE) = false ->
                   over_current s = true ->
                   mode (exec (loop_critical_task io) s) = ERRORMODE).
  { intros H1 H2 Hover.
    assert (Hover1 : over_current (exec (retrieve_measurements io) s) = true).
    { unfold over_current in *.
      rewrite retrieve_Ilow1_value, retrieve_Ilow2_value, H1, H2.
      exact Hover. }
    destruct (standstill_tick_effect io s) as (Hm & _); [auto|].
    cbv zeta in Hm. rewrite Hover1 in Hm. exact Hm. }
  rewrite !(tick_keeps_samples Ilow1_value), !(tick_keeps_samples Ilow2_value),
    !(tick_keeps_samples Vlow_value), !(tick_keeps_samples Vac_value),
    !(tick_keeps_samples Vdc_bus), !(tick_keeps_samples Iac_value),
    !(tick_keeps_samples Vdc_bus_filt), !(tick_keeps_samples Vgrid_meas),
    !(tick_keeps_samples VN_meas), !(tick_keeps_samples Igrid_meas)
    by frame.
  rewrite <- retrieve_Ilow1_value, <- retrieve_Ilow2_value,
    <- retrieve_Vlow_value, <- retrieve_Vac_value, <- retrieve_Vdc_bus,
    <- retrieve_Iac_value.
  split; [split; reflexivity|]. split; [conjs; reflexivity|].
  split; [apply retrieve_derived | exact Hstale].
Qed.

End SamplingMore.

(** * The critical task in Startup and Power *)

Section ActiveTick.
Context {F : Type} `{Float32 F}.
Local Open Scope f32_scope.
Local Open Scope task_scope.

(** A tick in Startup or Power mode without over-current: the sampling
    and the two guards of the standstill do nothing that is seen. *)
Lemma active_tick_head (io : tick_io F) (s : globals F) :
  mode s = STARTUPMODE \/ mode s = POWERMODE ->
  over_current (exec (retrieve_measurements io) s) = false ->
  let s1 := exec (retrieve_measurements io) s in
  let s4 := exec (boost_stage io) s1 in
  let s5 := exec stop_inverter_when_disabled s4 in
  let s6 := exec (startup_ramp io) s5 in
  let s7 := exec (power_mode_control io) s6 in
  exec (loop_critical_task io) s = exec (debug_and_scope io) s7
  /\ calls (loop_critical_task io) s
     = calls (boost_stage io) s1
       ++ calls stop_inverter_when_disabled s4
       ++ calls (startup_ramp io) s5
       ++ calls (power_mode_control io) s6
       ++ [scope_acquire].
Proof.
  intros Hm Hover. cbv zeta.
  rewrite loop_critical_task_calls, loop_critical_task_exec. cbv zeta.
  rewrite retrieve_measurements_calls, debug_and_scope_calls.
  assert (Hm1 : mode (exec (retrieve_measurements io) s) = mode s)
    by (unframe; reflexivity).
  remember (exec (retrieve_measurements io) s) as s1 eqn:E1. clear E1.
  destruct (overcurrent_protection_skip s1 Hover) as [-> ->].
  destruct (stop_pwm_skip s1) as [-> ->].
  { left. rewrite Hm1. destruct Hm as [-> | ->]; reflexivity. }
  split; reflexivity.
Qed.

(** X11.  In Startup or Power mode with the inverter disabled and no
    over-current, a tick regulates the boost stage and keeps the inverter
    legs off: dead times and the regulator's duty go to the two low legs,
    which are started if they were not switching; the two high legs are
    stopped if they were; no duty goes to a high leg; the mode is kept. *)
Theorem disabled_inverter_keeps_the_boost_running
    (io : tick_io F) (s : globals F) :
  mode s = STARTUPMODE \/ mode s = POWERMODE ->
  inverter_on s = false ->
  over_current (exec (retrieve_measurements io) s) = false ->
  let duty := boost_pid io boost_voltage_reference
                (Vdc_bus_filt (exec (retrieve_measurements io) s)) in
  let s' := exec (loop_critical_task io) s in
  mode s' = mode s
  /\ pwm_enable s' = false
  /\ boost_pwm_enable s' = true
  /\ calls (loop_critical_task io) s
     = [power_setDeadTime LEG1_LOW boost_pos_dt boost_neg_dt;
        power_setDeadTime LEG2_LOW boost_pos_dt boost_neg_dt;
        power_setDutyCycle LEG1_LOW duty;
        power_setDutyCycle LEG2_LOW duty]
       ++ (if boost_pwm_enable s then []
           else [power_start LEG1_LOW; power_start LEG2_LOW])
       ++ (if pwm_enable s then [power_stop LEG1_HIGH; power_stop LEG2_HIGH]
           else [])
       ++ [scope_acquire].
Proof.
  intros Hm Hon Hover. cbv zeta.
  destruct (active_tick_head io s Hm Hover) as [-> ->].
  assert (Hm1 : mode (exec (retrieve_measurements io) s) = mode s)
    by (unframe; reflexivity).
  assert (Hon1 : inverter_on (exec (retrieve_measurements io) s) = false)
    by (unframe; exact Hon).
  assert (Hp1 : pwm_enable (exec (retrieve_measurements io) s) = pwm_enable s)
    by (unframe; reflexivity).
  assert (Hb1 : boost_pwm_enable (exec (retrieve_measurements io) s)
                = boost_pwm_enable s) by (unframe; reflexivity).
  remember (exec (retrieve_measurements io) s) as s1 eqn:E1. clear E1 Hover.
  destruct (boost_stage_active io s1) as (_ & Hb4 & ->).
  { rewrite Hm1. destruct Hm as [-> | ->]; reflexivity. }
  rewrite Hb1.
  assert (Hm4 : mode (exec (boost_stage io) s1) = mode s)
    by (unframe; exact Hm1).
  assert (Hon4 : inverter_on (exec (boost_stage io) s1) = false)
    by (unframe; exact Hon1).
  assert (Hp4 : pwm_enable (exec (boost_stage io) s1) = pwm_enable s)
    by (unframe; exact Hp1).
  remember (exec (boost_stage io) s1) as s4 eqn:E4. clear E4.
  destruct (stop_inverter_effect s4 Hon4) as [Hp5 ->]. rewrite Hp4.
  assert (Hm5 : mode (exec stop_inverter_when_disabled s4) = mode s)
    by (unframe; exact Hm4).
  assert (Hon5 : inverter_on (exec stop_inverter_when_disabled s4) = false)
    by (unframe; exact Hon4).
  assert (Hb5 : boost_pwm_enable (exec stop_inverter_when_disabled s4) = true)
    by (unframe; exact Hb4).
  remember (exec stop_inverter_when_disabled s4) as s5 eqn:E5. clear E5.
  destruct (startup_ramp_skip io s5) as [-> ->];
    [rewrite Hon5; apply andb_false_r|].
  destruct (power_mode_control_skip io s5) as [-> ->];
    [rewrite Hon5; apply andb_false_r|].
  split; [unframe; exact Hm5|]. split; [unframe; exact Hp5|].
  split; [unframe; exact Hb5|].
  cbn [app]. rewrite <- ?app_assoc. reflexivity.
Qed.

Context `{!Float32Order F}.

(** X12.  In Startup mode, forming sub-mode, inverter enabled, no
    over-current: the duty is moved by one step of [rate_limiter] towards
    0.5 at rate 50 and replaced by 0.5 when the step went above it, so the
    duty kept and sent to the first high leg never compares above 0.5;
    the second high leg gets one minus that duty; the four legs are
    started if the inverter legs were not switching; the mode stays
    Startup. *)
Theorem startup_duty_is_ramped_and_capped (io : tick_io F) (s : globals F) :
  mode s = STARTUPMODE -> inverter_on s = true -> local_mode s = FORMING ->
  over_current (exec (retrieve_measurements io) s) = false ->
  let duty := boost_pid io boost_voltage_reference
                (Vdc_bus_filt (exec (retrieve_measurements io) s)) in
  let r := rate_limiter (flit 0.5) (delta_duty_cycle s) (flit 50.0) in
  let delta := if r >? flit 0.5 then flit 0.5 else r in
  let s' := exec (loop_critical_task io) s in
  delta_duty_cycle s' = delta
  /\ (delta >? flit 0.5) = false
  /\ mode s' = STARTUPMODE
  /\ pwm_enable s' = true /\ boost_pwm_enable s' = true
  /\ calls (loop_critical_task io) s
     = [power_setDeadTime LEG1_LOW boost_pos_dt boost_neg_dt;
        power_setDeadTime LEG2_LOW boost_pos_dt boost_neg_dt;
        power_setDutyCycle LEG1_LOW duty;
        power_setDutyCycle LEG2_LOW duty]
       ++ (if boost_pwm_enable s then []
           else [power_start LEG1_LOW; power_start LEG2_LOW])
       ++ [power_setDutyCycle LEG2_HIGH (flit 1 - delta);
           power_setDutyCycle LEG1_HIGH delta]
       ++ (if pwm_enable s then [] else [power_start ALL])
       ++ [scope_acquire].
Proof.
  intros Hm Hon Hl Hover. cbv zeta.
  destruct (active_tick_head io s (or_introl Hm) Hover) as [-> ->].
  assert (Hm1 : mode (exec (retrieve_measurements io) s) = STARTUPMODE)
    by (unframe; exact Hm).
  assert (Hon1 : inverter_on (exec (retrieve_measurements io) s) = true)
    by (unframe; exact Hon).
  assert (Hl1 : local_mode (exec (retrieve_measurements io) s) = FORMING)
    by (unframe; exact Hl).
  assert (Hp1 : pwm_enable (exec (retrieve_measurements io) s) = pwm_enable s)
    by (unframe; reflexivity).
  assert (Hb1 : boost_pwm_enable (exec (retrieve_measurements io) s)
                = boost_pwm_enable s) by (unframe; reflexivity).
  assert (Hd1 : delta_duty_cycle (exec (retrieve_measurements io) s)
                = delta_duty_cycle s) by (unframe; reflexivity).
  remember (exec (retrieve_measurements io) s) as s1 eqn:E1. clear E1 Hover.
  destruct (boost_stage_active io s1) as (_ & Hb4 & ->);
    [rewrite Hm1; reflexivity|].
  rewrite Hb1.
  assert (Hm4 : mode (exec (boost_stage io) s1) = STARTUPMODE)
    by (unframe; exact Hm1).
  assert (Hon4 : inverter_on (exec (boost_stage io) s1) = true)
    by (unframe; exact Hon1).
  assert (Hl4 : local_mode (exec (boost_stage io) s1) = FORMING)
    by (unframe; exact Hl1).
  assert (Hp4 : pwm_enable (exec (boost_stage io) s1) = pwm_enable s)
    by (unframe; exact Hp1).
  assert (Hd4 : delta_duty_cycle (exec (boost_stage io) s1)
                = delta_duty_cycle s) by (unframe; exact Hd1).
  remember (exec (boost_stage io) s1) as s4 eqn:E4. clear E4.
  destruct (stop_inverter_skip s4 (or_introl Hon4)) as [-> ->].
  destruct (startup_ramp_forming io s4 Hm4 Hon4 Hl4) as (Hd6 & Hp6 & ->).
  cbv zeta in Hd6. rewrite Hd4 in *. rewrite Hp4.
  assert (Hm6 : mode (exec (startup_ramp io) s4) = STARTUPMODE)
    by (unframe; exact Hm4).
  assert (Hb6 : boost_pwm_enable (exec (startup_ramp io) s4) = true)
    by (unframe; exact Hb4).
  remember (exec (startup_ramp io) s4) as s6 eqn:E6. clear E6.
  destruct (power_mode_control_skip io s6) as [-> ->];
    [rewrite Hm6; reflexivity|].
  split; [unframe; exact Hd6|].
  split.
  { destruct (fltb (flit 0.5)
                (rate_limiter (flit 0.5) (delta_duty_cycle s) (flit 50.0)))
      eqn:Hr; [apply flt_irrefl | exact Hr]. }
  split; [unframe; exact Hm6|]. split; [unframe; exact Hp6|].
  split; [unframe; exact Hb6|].
  cbn [app]. rewrite <- ?app_assoc. reflexivity.
Qed.

(** X13.  The lock-acquire test and the lock-loss test use the same two
    bounds, strictly for the first and inclusively for the second: a
    frequency that counts towards the lock never counts towards its
    loss. *)
Theorem lock_band_is_inside_the_loss_band (w : F) :
  sync_in_band w = true -> power_in_band w = true.
Proof.
  unfold sync_in_band, power_in_band. intros Hs.
  apply andb_true_iff in Hs. destruct Hs as [H1 H2].
  apply andb_true_iff. split; apply flt_fle; assumption.
Qed.

End ActiveTick.

(** * Evaluations on concrete runs *)

Import Scenario.

(** C6.  The delay before the legs are started is counted by
    [power_counter], which nothing resets.  From a counter at zero the legs
    are started on tick 2001, once.  When the inverter is then disabled and
    enabled again, the first tick of the new entry into closed-loop
    regulation starts the legs at once: the delay of 2000 ticks is not
    observed on this entry. *)
Theorem restart_skips_the_energizing_delay :
  (awaiting_start in_power /\ power_counter in_power = 0%Z)
  /\ inverter_starts (calls (run_ticks (repeat io_nominal 2000)) in_power) = []
  /\ inverter_starts (calls (run_ticks (repeat io_nominal 2001)) in_power)
     = [ALL]
  /\ energized = exec (run_ticks (repeat io_nominal 2001)) in_power
  /\ (pwm_enable energized = true /\ power_counter energized = 2001%Z)
  /\ (pwm_enable disabled = false /\ mode disabled = POWERMODE)
  /\ (awaiting_start reenabled /\ power_counter reenabled = 2001%Z)
  /\ inverter_starts (calls (loop_critical_task io_nominal) reenabled) = [ALL].
Proof.
  assert (Hw : awaiting_start in_power)
    by (unfold awaiting_start, startup_following; conjs; vm_compute;
        reflexivity).
  assert (Hc : power_counter in_power = 0%Z) by (vm_compute; reflexivity).
  assert (Hios : forall n, Forall (fun io => currents_within_limit io = true
                                    /\ power_in_band (getw io) = true)
                             (repeat io_nominal n)).
  { intros n. apply Forall_forall. intros io Hin. apply repeat_spec in Hin.
    subst io. split; vm_compute; reflexivity. }
  split; [auto|]. split; [|split].
  - destruct (first_energizing_run _ (Hios 2000%nat) in_power Hw) as [Hrun _];
      [rewrite Hc; lia|].
    rewrite repeat_length, Hc in Hrun. cbv zeta in Hrun.
    apply Hrun. vm_compute. discriminate.
  - destruct (first_energizing_run _ (Hios 2001%nat) in_power Hw) as [_ Hrun];
      [rewrite Hc; lia|].
    rewrite repeat_length, Hc in Hrun. cbv zeta in Hrun.
    apply Hrun. vm_compute. reflexivity.
  - unfold awaiting_start.
    conjs; vm_compute; reflexivity.
Qed.

(** ** The claims that fail as stated, at a concrete input *)

(** C1 as stated fails: on the first tick in Power mode, with the
    neutral point at 20 V and the filtered bus voltage at 10 V, both leg
    duties are 2. *)
Lemma leg_duties_leave_the_unit_interval :
  (mode in_power = POWERMODE /\ inverter_on in_power = true
   /\ over_current (exec (retrieve_measurements io_filter_lagging) in_power)
      = false)
  /\ (duty_cycle_1 (exec (loop_critical_task io_filter_lagging) in_power)
      == 2)%Q
  /\ ~ (0 <= duty_cycle_1 (exec (loop_critical_task io_filter_lagging)
                              in_power) <= 1)%Q
  /\ ~ (0 <= duty_cycle_2 (exec (loop_critical_task io_filter_lagging)
                              in_power) <= 1)%Q.
Proof.
  split; [conjs; vm_compute; reflexivity|].
  split; [vm_compute; reflexivity|].
  split; intros [_ Hle]; vm_compute in Hle; apply Hle; reflexivity.
Qed.

(** C2 as stated fails: the legs are stopped in the tick of the
    overcurrent itself, and the following tick stops nothing. *)
Lemma stops_are_issued_in_the_overcurrent_tick :
  over_current (exec (retrieve_measurements io_overcurrent) energized) = true
  /\ (pwm_enable energized = true /\ boost_pwm_enable energized = true)
  /\ stop_calls (calls (loop_critical_task io_overcurrent) energized)
     = [ALL; LEG1_LOW; LEG2_LOW]
  /\ stop_calls (calls (loop_critical_task io_nominal)
                   (exec (loop_critical_task io_overcurrent) energized))
     = [].
Proof.
  conjs; vm_compute; reflexivity.
Qed.

(** C3 as stated fails: 200 consecutive out-of-band ticks from a counter
    at zero leave the mode and the requested mode at Power. *)
Lemma no_trip_after_200_ticks :
  (mode in_power = POWERMODE /\ inverter_on in_power = true
   /\ desync_counter in_power = 0%Z)
  /\ power_in_band (getw io_off_band) = false
  /\ mode (exec (run_ticks (repeat io_off_band 200)) in_power) = POWERMODE
  /\ mode_asked (exec (run_ticks (repeat io_off_band 200)) in_power)
     = POWERMODE
  /\ desync_counter (exec (run_ticks (repeat io_off_band 200)) in_power)
     = 200%Z.
Proof.
  assert (Hm : mode in_power = POWERMODE) by (vm_compute; reflexivity).
  assert (Hon : inverter_on in_power = true) by (vm_compute; reflexivity).
  assert (Hs : over_current in_power = false) by (vm_compute; reflexivity).
  assert (Hc : desync_counter in_power = 0%Z) by (vm_compute; reflexivity).
  assert (Ha : mode_asked in_power = POWERMODE) by (vm_compute; reflexivity).
  assert (Hb : power_in_band (getw io_off_band) = false)
    by (vm_compute; reflexivity).
  assert (Hios : Forall (fun io => currents_within_limit io = true
                                   /\ power_in_band (getw io) = false)
                   (repeat io_off_band 200)).
  { apply Forall_forall. intros io Hin. apply repeat_spec in Hin. subst io.
    split; vm_compute; reflexivity. }
  destruct (lock_loss_run _ Hios in_power Hm Hon Hs) as [Hrun _];
    [rewrite Hc; lia|].
  rewrite repeat_length, Hc in Hrun. cbv zeta in Hrun.
  destruct Hrun as (Hm' & Ha' & Hc'); [vm_compute; discriminate|].
  rewrite Ha in Ha'. auto 8.
Qed.

(** C4 as stated fails: 2000 consecutive in-band ticks from a counter at
    zero do not set [is_net_synchronized]. *)
Lemma no_lock_after_2000_ticks :
  (startup_following startup_unlocked
   /\ sync_counter startup_unlocked = 0%Z
   /\ is_net_synchronized startup_unlocked = false)
  /\ sync_in_band (getw io_nominal) = true
  /\ is_net_synchronized
       (exec (run_ticks (repeat io_nominal 2000)) startup_unlocked) = false
  /\ sync_counter
       (exec (run_ticks (repeat io_nominal 2000)) startup_unlocked) = 2000%Z.
Proof.
  assert (Hsf : startup_following startup_unlocked)
    by (unfold awaiting_start, startup_following; conjs; vm_compute;
        reflexivity).
  assert (Hs : over_current startup_unlocked = false)
    by (vm_compute; reflexivity).
  assert (Hc : sync_counter startup_unlocked = 0%Z)
    by (vm_compute; reflexivity).
  assert (Hn : is_net_synchronized startup_unlocked = false)
    by (vm_compute; reflexivity).
  assert (Hb : sync_in_band (getw io_nominal) = true)
    by (vm_compute; reflexivity).
  assert (Hios : Forall (fun io => currents_within_limit io = true
                                   /\ sync_in_band (getw io) = true)
                   (repeat io_nominal 2000)).
  { apply Forall_forall. intros io Hin. apply repeat_spec in Hin. subst io.
    split; vm_compute; reflexivity. }
  destruct (lock_acquire_run _ Hios startup_unlocked Hsf Hs) as [Hrun _];
    [rewrite Hc; lia|].
  rewrite repeat_length, Hc in Hrun. cbv zeta in Hrun.
  destruct Hrun as (Hc' & Hn'); [vm_compute; discriminate|].
  rewrite Hn in Hn'. auto 8.
Qed.



(** C9 as stated fails: with [min = 3] above [max = 1], [saturate] is
    neither idempotent nor monotonic, in exact arithmetic and in binary32;
    and for bounds in order, [saturate] of a NaN is that NaN, which does
    not compare equal to itself. *)
Lemma saturate_with_crossed_bounds_or_nan :
  (~ (saturate (saturate 5 3 1) 3 1 == saturate 5 3 1)%Q
   /\ (0 <= 2)%Q
   /\ ~ (saturate 0 3 1 <= saturate 2 3 1)%Q)
  /\ (let x : spec_float := S754_nan in
      fleb (flit 0 : spec_float) (flit 1) = true
      /\ saturate x (flit 0) (flit 1) = x
      /\ feqb (saturate (saturate x (flit 0) (flit 1)) (flit 0) (flit 1))
           (saturate x (flit 0) (flit 1)) = false)
  /\ (fleb (flit 1 : spec_float) (flit 3) = true
      /\ feqb (saturate (saturate (flit 5 : spec_float) (flit 3) (flit 1))
                 (flit 3) (flit 1))
           (saturate (flit 5) (flit 3) (flit 1)) = false
      /\ fleb (flit 0 : spec_float) (flit 2) = true
      /\ fleb (saturate (flit 0 : spec_float) (flit 3) (flit 1))
           (saturate (flit 2) (flit 3) (flit 1)) = false).
Proof.
  split; [|split; [cbv zeta; conjs; vm_compute; reflexivity
                  | conjs; vm_compute; reflexivity]].
  split; [|split].
  - intros Heq. vm_compute in Heq. discriminate Heq.
  - discriminate.
  - intros Hle. vm_compute in Hle. apply Hle. reflexivity.
Qed.


(** ** The theorems at a concrete input *)

Lemma power_mode_leg_duties_witness :
  (mode in_power = POWERMODE /\ inverter_on in_power = true
   /\ over_current (exec (retrieve_measurements io_nominal) in_power) = false)
  /\ duty_cycle_1 (exec (loop_critical_task io_nominal) in_power)
     = fadd (delta_duty_cycle (exec (loop_critical_task io_nominal) in_power))
         (duty_cycle_offset (exec (loop_critical_task io_nominal) in_power)).
Proof.
  assert (Hm : mode in_power = POWERMODE) by (vm_compute; reflexivity).
  assert (Hon : inverter_on in_power = true) by (vm_compute; reflexivity).
  assert (Hover : over_current (exec (retrieve_measurements io_nominal)
                                  in_power) = false)
    by (vm_compute; reflexivity).
  split; [auto|].
  pose proof (power_mode_leg_duties io_nominal in_power Hm Hon Hover) as Hw.
  cbv zeta in Hw. destruct Hw as (_ & _ & Hd & _). exact Hd.
Defined.

Lemma overcurrent_trip_witness :
  over_current (exec (retrieve_measurements io_overcurrent) energized) = true
  /\ mode (exec (loop_critical_task io_overcurrent) energized) = ERRORMODE.
Proof.
  assert (Hover : over_current (exec (retrieve_measurements io_overcurrent)
                                  energized) = true)
    by (vm_compute; reflexivity).
  split; [exact Hover|].
  pose proof (overcurrent_trips_and_stops_in_same_tick io_overcurrent energized
                Hover) as Hw.
  cbv zeta in Hw. destruct Hw as (Hm & _). exact Hm.
Defined.

Lemma lock_loss_witness :
  (mode in_power = POWERMODE /\ inverter_on in_power = true
   /\ over_current in_power = false /\ desync_counter in_power = 0%Z
   /\ Forall (fun io => currents_within_limit io = true
                        /\ power_in_band (getw io) = false)
        [io_off_band; io_off_band])
  /\ desync_counter (exec (run_ticks [io_off_band; io_off_band]) in_power)
     = 2%Z.
Proof.
  assert (Hm : mode in_power = POWERMODE) by (vm_compute; reflexivity).
  assert (Hon : inverter_on in_power = true) by (vm_compute; reflexivity).
  assert (Hs : over_current in_power = false) by (vm_compute; reflexivity).
  assert (Hc : desync_counter in_power = 0%Z) by (vm_compute; reflexivity).
  assert (Hios : Forall (fun io => currents_within_limit io = true
                                   /\ power_in_band (getw io) = false)
                   [io_off_band; io_off_band])
    by (repeat constructor; vm_compute; reflexivity).
  split; [auto 6|].
  pose proof (lock_loss_trips_on_201st_tick [io_off_band; io_off_band]
                in_power Hm Hon Hs Hc Hios) as Hw.
  cbv zeta in Hw. destruct Hw as (Hcount & _).
  destruct Hcount as (_ & _ & Hn); [cbn [length]; lia | exact Hn].
Defined.

Lemma lock_acquire_witness :
  (mode startup_unlocked = STARTUPMODE /\ inverter_on startup_unlocked = true
   /\ local_mode startup_unlocked = FOLLOWING
   /\ over_current startup_unlocked = false
   /\ currents_within_limit io_off_band = true
   /\ Forall (fun io => currents_within_limit io = true
                        /\ sync_in_band (getw io) = true)
        [io_nominal; io_nominal])
  /\ sync_counter (exec (loop_critical_task io_off_band) startup_unlocked)
     = 0%Z.
Proof.
  assert (Hm : mode startup_unlocked = STARTUPMODE)
    by (vm_compute; reflexivity).
  assert (Hon : inverter_on startup_unlocked = true)
    by (vm_compute; reflexivity).
  assert (Hl : local_mode startup_unlocked = FOLLOWING)
    by (vm_compute; reflexivity).
  assert (Hs : over_current startup_unlocked = false)
    by (vm_compute; reflexivity).
  assert (Hio : currents_within_limit io_off_band = true)
    by (vm_compute; reflexivity).
  assert (Hios : Forall (fun io => currents_within_limit io = true
                                   /\ sync_in_band (getw io) = true)
                   [io_nominal; io_nominal])
    by (repeat constructor; vm_compute; reflexivity).
  split; [auto 7|].
  pose proof (lock_acquired_on_2001st_tick [io_nominal; io_nominal]
                io_off_band startup_unlocked Hm Hon Hl Hs Hio Hios) as Hw.
  cbv zeta in Hw. destruct Hw as (_ & Hreset).
  destruct Hreset as (Hn & _); [vm_compute; reflexivity | exact Hn].
Defined.



Lemma state_machine_witness :
  (mode_asked in_error_idle_asked = IDLEMODE
   /\ mode_asked in_error <> IDLEMODE /\ mode in_error = ERRORMODE)
  /\ mode (exec (loop_application_task no_dump) in_error_idle_asked)
     = IDLEMODE
  /\ mode (exec (loop_application_task no_dump) in_error) = ERRORMODE.
Proof.
  assert (Ha : mode_asked in_error_idle_asked = IDLEMODE)
    by (vm_compute; reflexivity).
  assert (Hp : mode_asked in_error <> IDLEMODE)
    by (vm_compute; discriminate).
  assert (Hm : mode in_error = ERRORMODE) by (vm_compute; reflexivity).
  split; [auto|]. split.
  - exact (proj1 (idle_request_overrides_and_error_is_kept no_dump
                    in_error_idle_asked) Ha).
  - exact (proj2 (idle_request_overrides_and_error_is_kept no_dump
                    in_error) Hp Hm).
Defined.

Lemma saturate_witness :
  let x : spec_float := flit 7 in
  let y : spec_float := flit 9 in
  (fleb (flit 0 : spec_float) (flit 6) = true
   /\ feqb x x = true /\ fleb x y = true)
  /\ feqb (saturate (saturate x (flit 0) (flit 6)) (flit 0) (flit 6))
       (saturate x (flit 0) (flit 6)) = true
  /\ fleb (saturate x (flit 0) (flit 6)) (saturate y (flit 0) (flit 6)) = true.
Proof.
  cbv zeta.
  assert (Hb : fleb (flit 0 : spec_float) (flit 6) = true)
    by (vm_compute; reflexivity).
  assert (Hx : feqb (flit 7 : spec_float) (flit 7) = true)
    by (vm_compute; reflexivity).
  assert (Hxy : fleb (flit 7 : spec_float) (flit 9) = true)
    by (vm_compute; reflexivity).
  split; [auto|].
  pose proof (saturate_idempotent_and_monotone (flit 7) (flit 9)
                (flit 0) (flit 6) Hb) as Hw.
  destruct Hw as (_ & Hidem & Hmono).
  split; [exact (Hidem Hx) | exact (Hmono Hxy)].
Defined.

Lemma other_mode_request_witness :
  let s := set_user_cmd (command STARTUPMODE true 2) booted in
  (mode_request (user_cmd s) <> IDLEMODE
   /\ mode_request (user_cmd s) <> POWERMODE)
  /\ mode_asked (exec app_apply_command s) = mode_asked s.
Proof.
  cbv zeta.
  assert (H0 : mode_request (user_cmd (set_user_cmd
                               (command STARTUPMODE true 2) booted))
               <> IDLEMODE) by (vm_compute; discriminate).
  assert (H1 : mode_request (user_cmd (set_user_cmd
                               (command STARTUPMODE true 2) booted))
               <> POWERMODE) by (vm_compute; discriminate).
  split; [auto|].
  exact (proj1 (other_mode_requests_are_ignored _ H0 H1)).
Defined.

(** ** The command gateway, the standstill, the reachable states and the
    active tick, at a concrete input *)

Lemma command_is_idempotent_witness :
  let s := set_user_cmd (command32 POWERMODE true (flit 12)) booted32 in
  (fleb (d (Idq_ref_min s)) (d (Idq_ref_max s)) = true
   /\ fleb (d (Vdq_ref_min s)) (d (Vdq_ref_max s)) = true)
  /\ exec app_apply_command (exec app_apply_command s)
     = exec app_apply_command s.
Proof.
  cbv zeta.
  set (s := set_user_cmd (command32 POWERMODE true (flit 12)) booted32).
  assert (Hi : fleb (d (Idq_ref_min s)) (d (Idq_ref_max s)) = true)
    by (vm_compute; reflexivity).
  assert (Hv : fleb (d (Vdq_ref_min s)) (d (Vdq_ref_max s)) = true)
    by (vm_compute; reflexivity).
  split; [auto|]. apply (command_is_idempotent s Hi Hv).
Defined.

Lemma standstill_tick_witness :
  mode booted = IDLEMODE
  /\ mode (exec (loop_critical_task io_nominal) booted) = IDLEMODE
  /\ legs_of_flags (exec (loop_critical_task io_nominal) booted) = legs_off
  /\ calls (loop_critical_task io_nominal) booted = [scope_acquire].
Proof.
  assert (Hm : mode booted = IDLEMODE) by reflexivity.
  split; [exact Hm|].
  destruct (standstill_tick_stops_everything io_nominal booted (or_introl Hm))
    as (E & _ & Hl & Hc).
  split; [|split; [exact Hl | exact Hc]].
  rewrite E. vm_compute. reflexivity.
Defined.

Lemma reachable_modes_witness :
  let s := exec (loop_application_task no_dump)
             (exec (conf_command_cb THINGSET_CALLBACK_POST_WRITE)
                (set_user_cmd (command POWERMODE true 2)
                   (exec setup_routine static_init))) in
  reachable s
  /\ valid_mode (mode s)
  /\ (mode_asked s = IDLEMODE \/ mode_asked s = POWERMODE)
  /\ (pwm_enable s = true -> boost_pwm_enable s = true).
Proof.
  cbv zeta.
  match goal with |- reachable ?x /\ _ => set (s := x) end.
  assert (Hr : reachable s).
  { apply reach_application, reach_callback, reach_store, reach_setup. }
  split; [exact Hr|]. apply (reachable_modes_and_flags s Hr).
Defined.

Lemma disabled_inverter_witness :
  let s' := exec (loop_critical_task io_nominal) disabling in
  (mode disabling = POWERMODE /\ inverter_on disabling = false
   /\ pwm_enable disabling = true
   /\ over_current (exec (retrieve_measurements io_nominal) disabling) = false)
  /\ mode s' = POWERMODE /\ pwm_enable s' = false
  /\ boost_pwm_enable s' = true.
Proof.
  cbv zeta.
  assert (Hm : mode disabling = POWERMODE) by (vm_compute; reflexivity).
  assert (Hon : inverter_on disabling = false) by (vm_compute; reflexivity).
  assert (Hp : pwm_enable disabling = true) by (vm_compute; reflexivity).
  assert (Ho : over_current (exec (retrieve_measurements io_nominal) disabling)
               = false) by (vm_compute; reflexivity).
  split; [auto|].
  destruct (disabled_inverter_keeps_the_boost_running io_nominal disabling
              (or_intror Hm) Hon Ho) as (E & Hp' & Hb & _).
  rewrite E. auto.
Defined.

Lemma startup_duty_witness :
  let io := io32 (flit 1) (flit 314.159) in
  let s' := exec (loop_critical_task io) forming_startup32 in
  (mode forming_startup32 = STARTUPMODE
   /\ inverter_on forming_startup32 = true
   /\ local_mode forming_startup32 = FORMING
   /\ over_current (exec (retrieve_measurements io) forming_startup32) = false)
  /\ fltb (flit 0.5) (delta_duty_cycle s') = false
  /\ mode s' = STARTUPMODE /\ pwm_enable s' = true.
Proof.
  cbv zeta.
  set (io := io32 (flit 1) (flit 314.159)).
  assert (Hm : mode forming_startup32 = STARTUPMODE) by reflexivity.
  assert (Hon : inverter_on forming_startup32 = true) by reflexivity.
  assert (Hl : local_mode forming_startup32 = FORMING) by reflexivity.
  assert (Ho : over_current (exec (retrieve_measurements io) forming_startup32)
               = false) by (vm_compute; reflexivity).
  split; [auto|].
  destruct (startup_duty_is_ramped_and_capped io forming_startup32 Hm Hon Hl Ho)
    as (E & Hcap & Hm' & Hp & _).
  rewrite E. auto.
Defined.

Lemma lock_band_witness :
  let w : spec_float := flit 314.159 in
  sync_in_band w = true /\ power_in_band w = true.
Proof.
  cbv zeta.
  assert (Hs : sync_in_band (flit 314.159 : spec_float) = true)
    by (vm_compute; reflexivity).
  split; [exact Hs|]. apply (lock_band_is_inside_the_loss_band _ Hs).
Defined.
